(** * Timeline reconstruction and validation engine of the connector PR dashboard

    A shallow embedding of the analysis core of [backend/src/index.ts]:
    the content classifier ([isHumanComment], [determineAnalysisStrategy]),
    the timeline reconstructor ([calculateEnhancedPRTimeline],
    [findChangesAddressedTime], [calculateDaysDiff]), the validator
    ([validateTimeline]) and the derived-artifact cache
    ([generateDataVersionHash], [isCacheValid], [createCacheEntry]).
    Around the core stand the parts of the same file that feed it and serve
    its results: the stores of reviews and comments with their fetches
    ([fetchPRReviews], [fetchPRComments], [countApprovals],
    [getPendingReviewers]), the code context of review comments
    ([getLanguageFromPath], [fetchCodeContext], [getCachedCodeContext]), the
    rate limiter, the webhook, the background summaries and the handlers of
    the timeline analytics, of the comment categorization and of the status
    of its cache.

    Conventions of the embedding.
    - A JavaScript string is the list of its UTF-16 code units.
    - A JavaScript number that holds a measure (a duration in days, a
      confidence) is a binary64 float; a count or an index is a [nat]; a time
      value (milliseconds since the epoch) is an integer and [None] stands
      for the NaN of an invalid date.
    - [null] and [undefined] are [None].
    - The wall clock, the in-memory store and the array that
      [Array.prototype.sort] reorders are passed and returned explicitly.
    - What GitHub or the Gemini service answers to a request is an argument
      of the function that makes the request, [None] when the request fails;
      an asynchronous function runs to its end with no other handler in
      between.
    - [console.log] calls are not modelled. *)

From Stdlib Require Import Ascii String.
From Stdlib Require Import ZArith NArith List Bool Lia Floats Uint63.
From Stdlib Require Import Sorting.Permutation Sorting.Sorted.
Import ListNotations.

Set Warnings "-inexact-float".
Local Open Scope bool_scope.

(* ================================================================= *)
(** ** JavaScript strings *)

Definition jsstring := list N.

(** An ASCII literal as a JavaScript string. *)
Definition str (s : string) : jsstring :=
  map N_of_ascii (list_ascii_of_string s).

Fixpoint jsstring_eqb (a b : jsstring) : bool :=
  match a, b with
  | [], [] => true
  | x :: a', y :: b' => N.eqb x y && jsstring_eqb a' b'
  | _, _ => false
  end.

(** ToBoolean on a string: only the empty string is falsy. *)
Definition truthy (s : jsstring) : bool :=
  match s with [] => false | _ :: _ => true end.

(** ToBoolean on [string | null]. *)
Definition truthy_opt (o : option jsstring) : bool :=
  match o with Some s => truthy s | None => false end.

(** [a || b] where [a] is [string | null | undefined] and [b] a string. *)
Definition js_or (a : option jsstring) (b : jsstring) : jsstring :=
  match a with
  | Some s => if truthy s then s else b
  | None => b
  end.

(** WhiteSpace and LineTerminator code units: what [String.prototype.trim]
    strips and what [\s] matches. *)
Definition is_ws (c : N) : bool :=
  existsb (N.eqb c)
    [9; 10; 11; 12; 13; 32; 160; 5760; 8232; 8233; 8239; 8287; 12288; 65279]%N
  || (N.leb 8192 c && N.leb c 8202).

Fixpoint trimStart (s : jsstring) : jsstring :=
  match s with
  | c :: s' => if is_ws c then trimStart s' else s
  | [] => []
  end.

Definition trim (s : jsstring) : jsstring :=
  rev (trimStart (rev (trimStart s))).

(** [String.prototype.toLowerCase] on one code unit, for the comparison with
    the lower-case ASCII names of [BOT_PATTERNS]: the capitals of ASCII and
    Latin-1 and the Kelvin sign (the one code unit outside ASCII whose lower
    case is an ASCII letter). Every other code unit is left as it is; its real
    lower case is never an ASCII character. *)
Definition toLowerCase_unit (c : N) : N :=
  if N.leb 65 c && N.leb c 90 then c + 32
  else if N.leb 192 c && N.leb c 222 && negb (N.eqb c 215) then c + 32
  else if N.eqb c 8490 then 107
  else c.

Definition toLowerCase (s : jsstring) : jsstring := map toLowerCase_unit s.

(** The Canonicalize operation of a regular expression with the [i] flag and
    without the [u] flag: the upper case of a code unit, unless that leaves
    the BMP unit or maps a non-ASCII unit into ASCII. It is written out for
    ASCII and Latin-1, where the literals of this file's patterns live. *)
Definition Canonicalize (c : N) : N :=
  if N.leb 97 c && N.leb c 122 then c - 32
  else if N.leb 224 c && N.leb c 254 && negb (N.eqb c 247) then c - 32
  else c.

Definition unit_eq_i (a b : N) : bool := N.eqb (Canonicalize a) (Canonicalize b).

(** [strip_prefix eq lit s] matches the literal [lit] at the start of [s]
    and returns what follows. *)
Fixpoint strip_prefix (eq : N -> N -> bool) (lit s : jsstring) : option jsstring :=
  match lit, s with
  | [], _ => Some s
  | p :: lit', c :: s' => if eq p c then strip_prefix eq lit' s' else None
  | _ :: _, [] => None
  end.

(** [\s+] at the start of [s], greedy. In the one pattern that uses it the
    next atom is a letter, so no shorter run of blanks can match instead. *)
Definition strip_ws_plus (s : jsstring) : option jsstring :=
  match s with
  | c :: s' => if is_ws c then Some (trimStart s') else None
  | [] => None
  end.

(** The regular expressions of the source, by shape. *)
Inductive RegExp : Type :=
| ReSuffixI (lit : jsstring)            (* /lit$/i *)
| RePrefixI (lit : jsstring)            (* /^lit/i *)
| RePrefixWsI (lit1 lit2 : jsstring)    (* /^lit1\s+lit2/i *)
| ReAltWs (alts : list jsstring).       (* /^(a1|a2|...)\s/ *)

Definition isSome {A} (o : option A) : bool :=
  match o with Some _ => true | None => false end.

Definition RegExp_test (re : RegExp) (s : jsstring) : bool :=
  match re with
  | ReSuffixI lit => isSome (strip_prefix unit_eq_i (rev lit) (rev s))
  | RePrefixI lit => isSome (strip_prefix unit_eq_i lit s)
  | RePrefixWsI lit1 lit2 =>
      match strip_prefix unit_eq_i lit1 s with
      | Some r1 =>
          match strip_ws_plus r1 with
          | Some r2 => isSome (strip_prefix unit_eq_i lit2 r2)
          | None => false
          end
      | None => false
      end
  | ReAltWs alts =>
      existsb (fun alt =>
                 match strip_prefix N.eqb alt s with
                 | Some (c :: _) => is_ws c
                 | _ => false
                 end) alts
  end.

(* ================================================================= *)
(** ** Data model *)

Inductive PRStatus := status_open | status_merged | status_closed.

Inductive ReviewState := commented | approved | changes_requested.

Inductive CommentType := ct_review | ct_issue | ct_general.

(** [interface PullRequest]; the label and reviewer lists, the URL and the
    connector flag are read by none of the functions below and are left out. *)
Record PullRequest := mkPullRequest {
  pr_id_ : Z;
  github_pr_number : Z;
  title : jsstring;
  author : jsstring;
  created_at : jsstring;
  updated_at : jsstring;
  merged_at : option jsstring;
  status : PRStatus;
  current_approvals_count : Z
}.

Record Review := mkReview {
  review_id : Z;
  review_pr_id : Z;
  reviewer_username : jsstring;
  review_state : ReviewState;
  submitted_at : jsstring;
  is_latest_review : bool;
  review_content : option jsstring
}.

(** [interface Comment], without the optional code-context fields. *)
Record Comment := mkComment {
  comment_id : Z;
  comment_pr_id : Z;
  github_comment_id : Z;
  comment_author : jsstring;
  content : jsstring;
  comment_created_at : jsstring;
  is_resolved : bool;
  comment_type : CommentType
}.

Definition status_eqb (a b : PRStatus) : bool :=
  match a, b with
  | status_open, status_open | status_merged, status_merged
  | status_closed, status_closed => true
  | _, _ => false
  end.

Definition state_eqb (a b : ReviewState) : bool :=
  match a, b with
  | commented, commented | approved, approved
  | changes_requested, changes_requested => true
  | _, _ => false
  end.

(* ================================================================= *)
(** ** Content classifier *)

Inductive BotPattern :=
| BotRegExp (re : RegExp)
| BotName (name : jsstring).

Definition BOT_PATTERNS : list BotPattern :=
  [ BotRegExp (ReSuffixI (str "[bot]"));
    BotRegExp (ReSuffixI (str "bot"));
    BotRegExp (ReSuffixI (str "-bot"));
    BotName (str "semanticdiff-com[bot]");
    BotName (str "coderabbitai[bot]");
    BotName (str "dependabot[bot]");
    BotName (str "github-actions[bot]");
    BotName (str "renovate[bot]");
    BotName (str "codecov[bot]");
    BotName (str "sonarcloud[bot]");
    BotName (str "snyk-bot");
    BotName (str "whitesource-bolt[bot]");
    BotName (str "deepsource-autofix[bot]");
    BotName (str "gitguardian[bot]");
    BotName (str "circleci-bot");
    BotName (str "travis-ci");
    BotName (str "jenkins-bot");
    BotName (str "azure-pipelines[bot]");
    BotName (str "lgtm-com[bot]");
    BotName (str "codeclimate[bot]");
    BotName (str "houndci-bot");
    BotName (str "vercel[bot]");
    BotName (str "netlify[bot]");
    BotName (str "heroku[bot]") ].

(** The four code units that open the eleventh pattern in [index.ts]. *)
Definition robot_glyph : jsstring := [63743; 252; 167; 241]%N.

Definition AUTOMATED_CONTENT_PATTERNS : list RegExp :=
  [ RePrefixWsI (str "Review changes with") (str "SemanticDiff");
    RePrefixI (str "Changed Files");
    RePrefixI (str "Coverage report");
    RePrefixI (str "Build Status:");
    RePrefixI (str "Deploy Preview");
    RePrefixI (str "This pull request");
    RePrefixI (str "Automated merge");
    RePrefixI (str "**Summary** by CodeRabbit");
    RePrefixI (str "## Summary by Coderabbit");
    RePrefixI (str "## Summary by CodeRabbit");
    RePrefixI (robot_glyph ++ str " This is an automated");
    RePrefixI (str "Dependency update");
    RePrefixI (str "Security update");
    RePrefixI (str "Auto-generated");
    RePrefixI (str "Automatically generated") ].

(** The alternatives of the status-glyph pattern, code unit by code unit as
    they stand in [index.ts]. *)
Definition STATUS_GLYPHS : RegExp :=
  ReAltWs [ [8218; 250; 214]; [8218; 249; 229]; [63743; 252; 238; 209];
            [8218; 246; 8224; 212; 8719; 232]; [63743; 252; 246; 196];
            [63743; 252; 236; 182]; [63743; 252; 238; 223] ]%N.

Definition isBotUser (who : jsstring) : bool :=
  existsb (fun pattern =>
             match pattern with
             | BotName name => jsstring_eqb (toLowerCase who) (toLowerCase name)
             | BotRegExp re => RegExp_test re who
             end) BOT_PATTERNS.

Definition isAutomatedContent (body : jsstring) : bool :=
  existsb (fun pattern => RegExp_test pattern (trim body)) AUTOMATED_CONTENT_PATTERNS.

Definition isHumanComment (comment : Comment) : bool :=
  if isBotUser (comment_author comment) then false
  else if isAutomatedContent (content comment) then false
  else if Nat.ltb (length (content comment)) 10 then false
  else if RegExp_test STATUS_GLYPHS (content comment) then false
  else true.

Definition isHumanReview (review : Review) : bool :=
  isHumanComment
    {| comment_author := reviewer_username review;
       content := match review_content review with
                  | Some s => if truthy s then s else []
                  | None => []
                  end;
       comment_id := review_id review;
       comment_pr_id := review_pr_id review;
       github_comment_id := review_id review;
       comment_created_at := submitted_at review;
       is_resolved := false;
       comment_type := ct_review |}.

Inductive StrategyType := human_discussion | code_only | hybrid.
Inductive Level := high | medium | low.

Record PRAnalysisStrategy := mkStrategy {
  strategy_type : StrategyType;
  human_comments : nat;
  bot_comments : nat;
  human_reviews : nat;
  bot_reviews : nat;
  confidence_level : Level
}.

Definition determineAnalysisStrategy (comments : list Comment) (reviews : list Review)
  : PRAnalysisStrategy :=
  let humanComments := filter isHumanComment comments in
  let botComments := filter (fun c => negb (isHumanComment c)) comments in
  let humanReviews := filter isHumanReview reviews in
  let botReviews := filter (fun r => negb (isHumanReview r)) reviews in
  let totalHumanInteractions := length humanComments + length humanReviews in
  if Nat.eqb totalHumanInteractions 0 then
    mkStrategy code_only (length humanComments) (length botComments)
               (length humanReviews) (length botReviews) medium
  else if Nat.leb 5 totalHumanInteractions || Nat.leb 2 (length humanReviews) then
    mkStrategy human_discussion (length humanComments) (length botComments)
               (length humanReviews) (length botReviews) high
  else
    mkStrategy hybrid (length humanComments) (length botComments)
               (length humanReviews) (length botReviews) medium.

(* ================================================================= *)
(** ** Dates of the host runtime

    [new Date(s).getTime()] and [Date.prototype.toISOString], for the date-time
    string format of ECMAScript in the forms the fetch layer and
    [toISOString] produce: [YYYY-MM-DD], [YYYY-MM-DDTHH:mm:ssZ] and
    [YYYY-MM-DDTHH:mm:ss.sssZ], the year also as a sign and six digits. Field
    ranges are checked the way the V8 engine of Node.js checks them (month
    1..12, day 1..31, hour 0..24); any other string is an invalid date. *)

Local Open Scope Z_scope.

Definition msPerDay : Z := 86400000.

(** Largest time value of a Date (TimeClip). *)
Definition maxTime : Z := 8640000000000000.

Definition obind {A B} (o : option A) (f : A -> option B) : option B :=
  match o with Some a => f a | None => None end.

Notation "x <- o ;; k" := (obind o (fun x => k))
  (at level 61, o at next level, right associativity).
Notation "' pat <- o ;; k" := (obind o (fun pat => k))
  (at level 61, pat pattern, o at next level, right associativity).

Definition digit (c : N) : option Z :=
  if N.leb 48 c && N.leb c 57 then Some (Z.of_N c - 48) else None.

(** [n] decimal digits at the start of [s]: their value and the rest. *)
Fixpoint digits (n : nat) (acc : Z) (s : jsstring) : option (Z * jsstring) :=
  match n with
  | O => Some (acc, s)
  | S n' =>
      match s with
      | c :: s' => d <- digit c;; digits n' (10 * acc + d) s'
      | [] => None
      end
  end.

Definition expect (c : N) (s : jsstring) : option jsstring :=
  match s with
  | x :: s' => if N.eqb x c then Some s' else None
  | [] => None
  end.

(** The day arithmetic of ECMAScript (proleptic Gregorian calendar, day 0 is
    1970-01-01). *)
Definition DayFromYear (y : Z) : Z :=
  365 * (y - 1970) + (y - 1969) / 4 - (y - 1901) / 100 + (y - 1601) / 400.

Definition InLeapYear (y : Z) : bool :=
  (y mod 4 =? 0) && negb (y mod 100 =? 0) || (y mod 400 =? 0).

(** The days of the year before month [m] (1..12). *)
Definition DaysBeforeMonth (leap : bool) (m : Z) : Z :=
  match m with
  | 1 => 0 | 2 => 31 | 3 => 59 | 4 => 90 | 5 => 120 | 6 => 151 | 7 => 181
  | 8 => 212 | 9 => 243 | 10 => 273 | 11 => 304 | 12 => 334 | _ => 0
  end + (if leap && (2 <? m) then 1 else 0).

(** MakeDay for a month in 1..12: a day beyond the end of its month runs
    into the next one. *)
Definition MakeDay (y m d : Z) : Z :=
  DayFromYear y + DaysBeforeMonth (InLeapYear y) m + d - 1.

(** YearFromTime on a day number: the largest year that starts on or before
    the day, found next to the estimate the mean length of a year gives. *)
Definition YearFromDay (day : Z) : Z :=
  let y0 := 1970 + day * 400 / 146097 in
  if DayFromYear (y0 + 1) <=? day then y0 + 1
  else if DayFromYear y0 <=? day then y0
  else y0 - 1.

(** MonthFromTime (as 1..12) on the day within the year. *)
Definition MonthFromDayInYear (leap : bool) (doy : Z) : Z :=
  let L := if leap then 1 else 0 in
  if doy <? 31 then 1
  else if doy <? 59 + L then 2
  else if doy <? 90 + L then 3
  else if doy <? 120 + L then 4
  else if doy <? 151 + L then 5
  else if doy <? 181 + L then 6
  else if doy <? 212 + L then 7
  else if doy <? 243 + L then 8
  else if doy <? 273 + L then 9
  else if doy <? 304 + L then 10
  else if doy <? 334 + L then 11
  else 12.

(** Year, month (1..12) and day of the month of a day number. *)
Definition civil_from_days (day : Z) : Z * Z * Z :=
  let y := YearFromDay day in
  let doy := day - DayFromYear y in
  let m := MonthFromDayInYear (InLeapYear y) doy in
  (y, m, doy - DaysBeforeMonth (InLeapYear y) m + 1).

Definition parse_year (s : jsstring) : option (Z * jsstring) :=
  match s with
  | c :: s' =>
      if N.eqb c 43 then digits 6 0 s'                            (* + *)
      else if N.eqb c 45 then                                     (* - *)
        '(y, r) <- digits 6 0 s';;
        if y =? 0 then None else Some (- y, r)
      else digits 4 0 s
  | [] => None
  end.

Definition parse_time (s : jsstring) : option Z :=
  '(h, s1) <- digits 2 0 s;;
  s2 <- expect 58 s1;;
  '(mi, s3) <- digits 2 0 s2;;
  s4 <- expect 58 s3;;
  '(sec, s5) <- digits 2 0 s4;;
  '(ms, s6) <-
     match s5 with
     | 46%N :: s' => digits 3 0 s'                                (* . *)
     | _ => Some (0, s5)
     end;;
  match s6 with
  | [90%N] =>                                                     (* Z *)
      if (h <=? 23) && (mi <=? 59) && (sec <=? 59)
         || (h =? 24) && (mi =? 0) && (sec =? 0) && (ms =? 0)
      then Some (h * 3600000 + mi * 60000 + sec * 1000 + ms)
      else None
  | _ => None
  end.

(** [new Date(s).getTime()]; [None] is NaN. *)
Definition Date_getTime (s : jsstring) : option Z :=
  '(y, s1) <- parse_year s;;
  s2 <- expect 45 s1;;
  '(m, s3) <- digits 2 0 s2;;
  s4 <- expect 45 s3;;
  '(d, s5) <- digits 2 0 s4;;
  if (1 <=? m) && (m <=? 12) && (1 <=? d) && (d <=? 31) then
    time <-
       match s5 with
       | [] => Some 0
       | 84%N :: s6 => parse_time s6                              (* T *)
       | _ => None
       end;;
    let t := MakeDay y m d * msPerDay + time in
    if Z.abs t <=? maxTime then Some t else None
  else None.

(** [n] as [w] decimal digits, most significant first. *)
Fixpoint pad_digits (w : nat) (n : Z) : jsstring :=
  match w with
  | O => []
  | S w' => pad_digits w' (n / 10) ++ [Z.to_N (48 + n mod 10)]
  end.

(** [new Date(t).toISOString()]; [None] is the RangeError of an invalid
    date. *)
Definition Date_toISOString (t : Z) : option jsstring :=
  if Z.abs t <=? maxTime then
    let '(y, m, d) := civil_from_days (t / msPerDay) in
    let tod := t mod msPerDay in
    let year :=
      if (0 <=? y) && (y <=? 9999) then pad_digits 4 y
      else (if y <? 0 then 45%N else 43%N) :: pad_digits 6 (Z.abs y) in
    Some (year ++ [45%N] ++ pad_digits 2 m ++ [45%N] ++ pad_digits 2 d
          ++ [84%N] ++ pad_digits 2 (tod / 3600000)
          ++ [58%N] ++ pad_digits 2 (tod / 60000 mod 60)
          ++ [58%N] ++ pad_digits 2 (tod / 1000 mod 60)
          ++ [46%N] ++ pad_digits 3 (tod mod 1000) ++ [90%N])
  else None.

(** The relational operators on two Date objects compare their time values;
    a comparison with NaN is false. *)
Definition time_ltb (a b : option Z) : bool :=
  match a, b with
  | Some x, Some y => x <? y
  | _, _ => false
  end.

(** [new Date(a) < new Date(b)] *)
Definition Date_lt (a b : jsstring) : bool :=
  time_ltb (Date_getTime a) (Date_getTime b).

(** [new Date(a) > new Date(b)] *)
Definition Date_gt (a b : jsstring) : bool :=
  time_ltb (Date_getTime b) (Date_getTime a).

(* ================================================================= *)
(** ** Numbers *)

(** The float nearest to an integer; exact below 2^53, which covers every
    time value, and rounded to nearest-even above, as float subtraction
    rounds the difference of two time values. *)
Definition number_of_Z (z : Z) : float :=
  match z with
  | Z0 => 0%float
  | Zpos _ => of_uint63 (Uint63.of_Z z)
  | Zneg _ => (- of_uint63 (Uint63.of_Z (- z)))%float
  end.

(** [Math.round]: the nearest integer, a tie going up; NaN, the infinities
    and the zeros are returned unchanged, and a negative argument that rounds
    to zero gives the negative zero. *)
Definition Math_round (x : float) : float :=
  match Prim2SF x with
  | S754_finite s m e =>
      if 0 <=? e then x
      else
        let twice := 2 * (if s then Z.neg m else Z.pos m) + 2 ^ (- e) in
        let n := twice / 2 ^ (1 - e) in
        if n =? 0 then (if s then (-0)%float else 0%float) else number_of_Z n
  | _ => x
  end.

(** [Math.min] and [Math.max] of two numbers: NaN if either is NaN, and the
    negative zero below the positive one. *)
Definition Math_min (a b : float) : float :=
  if is_nan a || is_nan b then nan
  else if (a <? b)%float then a
  else if (b <? a)%float then b
  else if get_sign a then a else b.

Definition Math_max (a b : float) : float :=
  if is_nan a || is_nan b then nan
  else if (a <? b)%float then b
  else if (b <? a)%float then a
  else if get_sign a then b else a.

(** ToBoolean on [number | undefined]: undefined, the zeros and NaN are
    falsy. *)
Definition truthy_num (o : option float) : bool :=
  match o with
  | Some x => negb (PrimFloat.is_zero x || is_nan x)
  | None => false
  end.

(** [calculateDaysDiff(startDate, endDate)]: the days from start to end,
    rounded to one decimal. *)
Definition calculateDaysDiff (startDate endDate : jsstring) : float :=
  match Date_getTime startDate, Date_getTime endDate with
  | Some start, Some end_ =>
      (Math_round (number_of_Z (end_ - start) / 86400000 * 10) / 10)%float
  | _, _ => nan
  end.

(* ================================================================= *)
(** ** [Array.prototype.sort] *)

Section ArraySort.
Context {A : Type}.
(** The comparator's result; [None] is NaN, which the sort reads as +0. *)
Variable comparefn : A -> A -> option Z.

Definition SortCompare (x y : A) : Z :=
  match comparefn x y with Some v => v | None => 0 end.

Fixpoint sort_insert (x : A) (sorted : list A) : list A :=
  match sorted with
  | [] => [x]
  | y :: rest =>
      if SortCompare x y <=? 0 then x :: y :: rest
      else y :: sort_insert x rest
  end.

(** The elements in the order the sort leaves them in the array: a stable
    sort, which is determined by the comparator whenever the comparator is a
    consistent one (ECMAScript leaves the order open otherwise). *)
Fixpoint Array_sort (l : list A) : list A :=
  match l with
  | [] => []
  | x :: rest => sort_insert x (Array_sort rest)
  end.
End ArraySort.

(* ================================================================= *)
(** ** Timeline data *)

Inductive StageName :=
| s_pr_raised | s_first_review | s_comments_fixed | s_approved | s_merged.

Inductive EventType :=
| e_pr_created | e_first_review | e_changes_requested | e_changes_addressed
| e_approved | e_merged.

Record PRTimelineStage := mkStage {
  stage : StageName;
  timestamp : jsstring;
  duration_from_previous : option float
}.

Record TimelineEvent := mkEvent {
  event_type : EventType;
  event_timestamp : jsstring;
  actor : jsstring;
  details : option ReviewState
}.

Record ReviewCycle := mkCycle {
  cycle_number : nat;
  changes_requested_at : jsstring;
  changes_addressed_at : option jsstring;
  duration_days : float;
  reviewer : jsstring
}.

Record StageDurations := mkDurations {
  pr_raised_to_first_review : float;
  first_review_to_comments_fixed : float;
  comments_fixed_to_approved : float;
  approved_to_merged : float;
  ongoing_time : float;
  total_review_time : float
}.

Record Milestone := mkMilestone {
  milestone_timestamp : option jsstring;
  achieved : bool
}.

Record Milestones := mkMilestones {
  m_pr_created : Milestone;
  m_first_review : Milestone;
  m_approved : Milestone;
  m_merged : Milestone
}.

(** One entry of [issues: string[]]: a plain string, or one of the template
    literals of [validateTimeline] with the values it interpolates (the text
    of a number is the runtime's). *)
Inductive Issue :=
| IssueText (text : jsstring)
| StageOccursBefore (curr prev : StageName)
    (* `Stage ${curr} occurs before ${prev}` *)
| NegativeDuration (s : StageName)
    (* `Negative duration detected for stage ${s}` *)
| UnusuallyLongDuration (days : float) (s : StageName)
    (* `Unusually long duration (${days} days) for stage ${s}` *)
| ReviewCycleTook (n : nat) (days : float).
    (* `Review cycle ${n} took ${days} days to address` *)

Record PRTimelineValidation := mkValidation {
  is_valid : bool;
  confidence_score : float;
  issues : list Issue;
  data_quality : Level
}.

Record EnhancedPRTimeline := mkTimeline {
  pr_number : Z;
  pr_title : jsstring;
  pr_author : jsstring;
  total_duration : float;
  stages : list PRTimelineStage;
  is_completed : bool;
  stage_durations : StageDurations;
  milestones : Milestones;
  validation : PRTimelineValidation;
  review_cycles : list ReviewCycle;
  actual_events : list TimelineEvent
}.

Definition stage_eqb (a b : StageName) : bool :=
  match a, b with
  | s_pr_raised, s_pr_raised | s_first_review, s_first_review
  | s_comments_fixed, s_comments_fixed | s_approved, s_approved
  | s_merged, s_merged => true
  | _, _ => false
  end.

(** [stages.find(s => s.stage === name)] *)
Definition find_stage (name : StageName) (stages : list PRTimelineStage)
  : option PRTimelineStage :=
  find (fun s => stage_eqb (stage s) name) stages.

(** [stages.find(s => s.stage === name)?.timestamp] *)
Definition stage_timestamp (name : StageName) (stages : list PRTimelineStage)
  : option jsstring :=
  option_map timestamp (find_stage name stages).

(* ================================================================= *)
(** ** Timeline validator *)

Definition unresolved_message : Issue :=
  IssueText (str "Changes were requested but no clear resolution detected").

(** The two locals the loops of [validateTimeline] update. *)
Record VState := mkVState {
  additionalIssues : list Issue;
  adjustedConfidence : float
}.

Definition flag (i : Issue) (penalty : float) (v : VState) : VState :=
  {| additionalIssues := additionalIssues v ++ [i];
     adjustedConfidence := (adjustedConfidence v - penalty)%float |}.

(** The guards of the three loops. *)
Definition out_of_order (prev curr : PRTimelineStage) : bool :=
  Date_lt (timestamp curr) (timestamp prev).

Definition negative_duration (s : PRTimelineStage) : bool :=
  truthy_num (duration_from_previous s)
  && match duration_from_previous s with
     | Some d => (d <? 0)%float
     | None => false
     end.

Definition long_duration (s : PRTimelineStage) : bool :=
  truthy_num (duration_from_previous s)
  && match duration_from_previous s with
     | Some d => (30 <? d)%float
     | None => false
     end.

Definition long_cycle (c : ReviewCycle) : bool := (14 <? duration_days c)%float.

(** [for (let i = 1; i < stages.length; i++)]: the chronological check of each
    stage against the one before it. *)
Fixpoint check_order (stages : list PRTimelineStage) (v : VState) : VState :=
  match stages with
  | prev :: rest =>
      match rest with
      | curr :: _ =>
          check_order rest
            (if out_of_order prev curr
             then flag (StageOccursBefore (stage curr) (stage prev)) 0.3 v
             else v)
      | [] => v
      end
  | [] => v
  end.

Definition check_duration (v : VState) (s : PRTimelineStage) : VState :=
  let v1 := if negative_duration s
            then flag (NegativeDuration (stage s)) 0.2 v else v in
  if long_duration s
  then flag (UnusuallyLongDuration
               (match duration_from_previous s with Some d => d | None => nan end)
               (stage s)) 0.1 v1
  else v1.

Definition check_cycle (v : VState) (c : ReviewCycle) : VState :=
  if long_cycle c
  then flag (ReviewCycleTook (cycle_number c) (duration_days c)) 0.05 v
  else v.

Definition validateTimeline (stages : list PRTimelineStage)
    (events : list TimelineEvent) (reviewCycles : list ReviewCycle)
    (issues : list Issue) (confidenceScore : float) : PRTimelineValidation :=
  let v0 := mkVState issues confidenceScore in
  let v1 := check_order stages v0 in
  let v2 := fold_left check_duration stages v1 in
  let v3 := fold_left check_cycle reviewCycles v2 in
  let adjustedConfidence := adjustedConfidence v3 in
  let additionalIssues := additionalIssues v3 in
  let dataQuality :=
    if (0.8 <=? adjustedConfidence)%float && Nat.eqb (length additionalIssues) 0
    then high
    else if (0.6 <=? adjustedConfidence)%float && Nat.leb (length additionalIssues) 2
    then medium
    else low in
  {| is_valid := (0.5 <=? adjustedConfidence)%float
                 && Nat.ltb (length additionalIssues) 5;
     confidence_score := Math_max 0 (Math_min 1 adjustedConfidence);
     issues := additionalIssues;
     data_quality := dataQuality |}.

(* ================================================================= *)
(** ** Timeline reconstructor *)

(** [findChangesAddressedTime(pr, changesRequestedAt, allReviews)] *)
Definition findChangesAddressedTime (pr : PullRequest)
    (changesRequestedAt : jsstring) (allReviews : list Review) : option jsstring :=
  let subsequentReviews :=
    filter (fun review =>
              Date_gt (submitted_at review) changesRequestedAt
              && (state_eqb (review_state review) approved
                  || state_eqb (review_state review) commented))
           allReviews in
  match subsequentReviews with
  | first :: _ => Some (submitted_at first)
  | [] =>
      if Date_gt (updated_at pr) changesRequestedAt
      then Some (updated_at pr)
      else None
  end.

(** The locals of [calculateEnhancedPRTimeline] that its statements update. *)
Record Locals := mkLocals {
  l_stages : list PRTimelineStage;
  l_stageDurations : StageDurations;
  l_events : list TimelineEvent;
  l_issues : list Issue;
  l_confidenceScore : float;
  l_reviewCycles : list ReviewCycle;
  l_firstReviewFound : bool;
  l_currentCycle : nat;
  l_lastChangesRequestedTime : option jsstring;
  l_lastApprovalTime : option jsstring
}.

Definition push_stage (s : PRTimelineStage) (l : Locals) : Locals :=
  mkLocals (l_stages l ++ [s]) (l_stageDurations l) (l_events l) (l_issues l)
    (l_confidenceScore l) (l_reviewCycles l) (l_firstReviewFound l)
    (l_currentCycle l) (l_lastChangesRequestedTime l) (l_lastApprovalTime l).

Definition set_durations (f : StageDurations -> StageDurations) (l : Locals) : Locals :=
  mkLocals (l_stages l) (f (l_stageDurations l)) (l_events l) (l_issues l)
    (l_confidenceScore l) (l_reviewCycles l) (l_firstReviewFound l)
    (l_currentCycle l) (l_lastChangesRequestedTime l) (l_lastApprovalTime l).

Definition push_event (e : TimelineEvent) (l : Locals) : Locals :=
  mkLocals (l_stages l) (l_stageDurations l) (l_events l ++ [e]) (l_issues l)
    (l_confidenceScore l) (l_reviewCycles l) (l_firstReviewFound l)
    (l_currentCycle l) (l_lastChangesRequestedTime l) (l_lastApprovalTime l).

Definition push_issue (i : Issue) (penalty : float) (l : Locals) : Locals :=
  mkLocals (l_stages l) (l_stageDurations l) (l_events l) (l_issues l ++ [i])
    (l_confidenceScore l - penalty)%float (l_reviewCycles l)
    (l_firstReviewFound l) (l_currentCycle l) (l_lastChangesRequestedTime l)
    (l_lastApprovalTime l).

Definition push_cycle (c : ReviewCycle) (l : Locals) : Locals :=
  mkLocals (l_stages l) (l_stageDurations l) (l_events l) (l_issues l)
    (l_confidenceScore l) (l_reviewCycles l ++ [c]) (l_firstReviewFound l)
    (l_currentCycle l) (l_lastChangesRequestedTime l) (l_lastApprovalTime l).

Definition set_firstReviewFound (l : Locals) : Locals :=
  mkLocals (l_stages l) (l_stageDurations l) (l_events l) (l_issues l)
    (l_confidenceScore l) (l_reviewCycles l) true
    (l_currentCycle l) (l_lastChangesRequestedTime l) (l_lastApprovalTime l).

(** [currentCycle++; lastChangesRequestedTime = t] *)
Definition open_cycle (t : jsstring) (l : Locals) : Locals :=
  mkLocals (l_stages l) (l_stageDurations l) (l_events l) (l_issues l)
    (l_confidenceScore l) (l_reviewCycles l) (l_firstReviewFound l)
    (S (l_currentCycle l)) (Some t) (l_lastApprovalTime l).

Definition set_lastApprovalTime (t : jsstring) (l : Locals) : Locals :=
  mkLocals (l_stages l) (l_stageDurations l) (l_events l) (l_issues l)
    (l_confidenceScore l) (l_reviewCycles l) (l_firstReviewFound l)
    (l_currentCycle l) (l_lastChangesRequestedTime l) (Some t).

Definition set_pr_raised_to_first_review (d : float) (sd : StageDurations) :=
  mkDurations d (first_review_to_comments_fixed sd) (comments_fixed_to_approved sd)
    (approved_to_merged sd) (ongoing_time sd) (total_review_time sd).

Definition set_first_review_to_comments_fixed (d : float) (sd : StageDurations) :=
  mkDurations (pr_raised_to_first_review sd) d (comments_fixed_to_approved sd)
    (approved_to_merged sd) (ongoing_time sd) (total_review_time sd).

Definition set_comments_fixed_to_approved (d : float) (sd : StageDurations) :=
  mkDurations (pr_raised_to_first_review sd) (first_review_to_comments_fixed sd) d
    (approved_to_merged sd) (ongoing_time sd) (total_review_time sd).

Definition set_approved_to_merged (d : float) (sd : StageDurations) :=
  mkDurations (pr_raised_to_first_review sd) (first_review_to_comments_fixed sd)
    (comments_fixed_to_approved sd) d (ongoing_time sd) (total_review_time sd).

Definition set_ongoing_time (d : float) (sd : StageDurations) :=
  mkDurations (pr_raised_to_first_review sd) (first_review_to_comments_fixed sd)
    (comments_fixed_to_approved sd) (approved_to_merged sd) d (total_review_time sd).

Definition set_total_review_time (d : float) (sd : StageDurations) :=
  mkDurations (pr_raised_to_first_review sd) (first_review_to_comments_fixed sd)
    (comments_fixed_to_approved sd) (approved_to_merged sd) (ongoing_time sd) d.

(** The timestamp a stage's [duration_from_previous] is counted from, given
    the stages pushed before it: the [baseTime] of each stage block (for
    [first_review] the PR's creation time). No duration is attributed to
    [pr_raised]. *)
Definition baseTime (pr : PullRequest) (stages : list PRTimelineStage)
    (name : StageName) : jsstring :=
  match name with
  | s_pr_raised | s_first_review => created_at pr
  | s_comments_fixed =>
      js_or (stage_timestamp s_first_review stages) (created_at pr)
  | s_approved =>
      js_or (stage_timestamp s_comments_fixed stages)
        (js_or (stage_timestamp s_first_review stages) (created_at pr))
  | s_merged =>
      js_or (stage_timestamp s_approved stages)
        (js_or (stage_timestamp s_comments_fixed stages)
           (js_or (stage_timestamp s_first_review stages) (created_at pr)))
  end.

(** The state before the review loop: the [pr_created] event and the
    [pr_raised] stage are in place. *)
Definition initial_locals (pr : PullRequest) : Locals :=
  {| l_stages := [mkStage s_pr_raised (created_at pr) None];
     l_stageDurations := mkDurations 0 0 0 0 0 0;
     l_events := [mkEvent e_pr_created (created_at pr) (author pr) None];
     l_issues := [];
     l_confidenceScore := 1;
     l_reviewCycles := [];
     l_firstReviewFound := false;
     l_currentCycle := O;
     l_lastChangesRequestedTime := None;
     l_lastApprovalTime := None |}.

(** The body of [for (const review of sortedReviews)]. *)
Definition review_step (pr : PullRequest) (sortedReviews : list Review)
    (l : Locals) (review : Review) : Locals :=
  (* first review detection *)
  let l1 :=
    if negb (l_firstReviewFound l) then
      let duration :=
        calculateDaysDiff (baseTime pr (l_stages l) s_first_review)
                          (submitted_at review) in
      push_stage (mkStage s_first_review (submitted_at review) (Some duration))
        (push_event (mkEvent e_first_review (submitted_at review)
                       (reviewer_username review) (Some (review_state review)))
           (set_durations (set_pr_raised_to_first_review duration)
              (set_firstReviewFound l)))
    else l in
  (* review cycles for changes requested *)
  let l2 :=
    if state_eqb (review_state review) changes_requested then
      let l' :=
        push_event (mkEvent e_changes_requested (submitted_at review)
                      (reviewer_username review) None)
          (open_cycle (submitted_at review) l1) in
      let changesAddressedTime :=
        findChangesAddressedTime pr (submitted_at review) sortedReviews in
      let l'' :=
        push_cycle
          {| cycle_number := l_currentCycle l';
             changes_requested_at := submitted_at review;
             changes_addressed_at := changesAddressedTime;
             duration_days :=
               match changesAddressedTime with
               | Some t =>
                   if truthy t
                   then calculateDaysDiff (submitted_at review) t
                   else 0%float
               | None => 0%float
               end;
             reviewer := reviewer_username review |} l' in
      match changesAddressedTime with
      | Some t =>
          if truthy t
          then push_event (mkEvent e_changes_addressed t (author pr) None) l''
          else l''
      | None => l''
      end
    else l1 in
  (* approvals *)
  if state_eqb (review_state review) approved then
    push_event (mkEvent e_approved (submitted_at review)
                  (reviewer_username review) None)
      (set_lastApprovalTime (submitted_at review) l2)
  else l2.

(** [if (lastChangesRequestedTime && reviewCycles.length > 0) { ... }] *)
Definition comments_fixed_block (pr : PullRequest) (l : Locals) : Locals :=
  if truthy_opt (l_lastChangesRequestedTime l)
     && Nat.ltb 0 (length (l_reviewCycles l)) then
    match nth_error (l_reviewCycles l) (length (l_reviewCycles l) - 1) with
    | Some lastCycle =>
        match changes_addressed_at lastCycle with
        | Some commentsFixedTime =>
            if truthy commentsFixedTime then
              let duration :=
                calculateDaysDiff (baseTime pr (l_stages l) s_comments_fixed)
                                  commentsFixedTime in
              push_stage (mkStage s_comments_fixed commentsFixedTime (Some duration))
                (set_durations (set_first_review_to_comments_fixed duration) l)
            else push_issue unresolved_message 0.2 l
        | None => push_issue unresolved_message 0.2 l
        end
    | None => l
    end
  else l.

(** [if (lastApprovalTime) { ... }] *)
Definition approval_block (pr : PullRequest) (l : Locals) : Locals :=
  match l_lastApprovalTime l with
  | Some lastApprovalTime =>
      if truthy lastApprovalTime then
        let duration :=
          calculateDaysDiff (baseTime pr (l_stages l) s_approved)
                            lastApprovalTime in
        let l1 := set_durations (set_comments_fixed_to_approved duration) l in
        if negb (isSome (find_stage s_approved (l_stages l1))) then
          push_stage (mkStage s_approved lastApprovalTime (Some duration)) l1
        else l1
      else l
  | None => l
  end.

(** [if (pr.merged_at) { ... }] *)
Definition merge_block (pr : PullRequest) (l : Locals) : Locals :=
  match merged_at pr with
  | Some mergedAt =>
      if truthy mergedAt then
        let duration :=
          calculateDaysDiff (baseTime pr (l_stages l) s_merged) mergedAt in
        push_stage (mkStage s_merged mergedAt (Some duration))
          (push_event (mkEvent e_merged mergedAt (str "system") None)
             (set_durations (set_approved_to_merged duration) l))
      else l
  | None => l
  end.

(** The comparator of [prReviews.sort]: the difference of the two time
    values, NaN when one of them is. (Float subtraction of two time values
    has the sign of their integer difference.) *)
Definition compareBySubmittedAt (a b : Review) : option Z :=
  match Date_getTime (submitted_at a), Date_getTime (submitted_at b) with
  | Some ta, Some tb => Some (ta - tb)
  | _, _ => None
  end.

(** The locals once the stage blocks have run. *)
Definition reconstruct (pr : PullRequest) (sortedReviews : list Review) : Locals :=
  merge_block pr
    (approval_block pr
       (comments_fixed_block pr
          (fold_left (review_step pr sortedReviews) sortedReviews
             (initial_locals pr)))).

(** [calculateEnhancedPRTimeline(pr, prReviews, prComments)].

    [now1] and [now2] are what the two calls [new Date().toISOString()]
    return. The result comes with the contents of the caller's [prReviews]
    array after the call: [prReviews.sort(...)] sorts that array in place and
    [sortedReviews] is the same array. *)
Definition calculateEnhancedPRTimeline (now1 now2 : jsstring) (pr : PullRequest)
    (prReviews : list Review) (prComments : list Comment)
  : EnhancedPRTimeline * list Review :=
  let sortedReviews := Array_sort compareBySubmittedAt prReviews in
  let l := reconstruct pr sortedReviews in
  let stages := l_stages l in
  (* total duration and ongoing time *)
  let endTime := js_or (merged_at pr) now1 in
  let totalDuration := calculateDaysDiff (created_at pr) endTime in
  let sd1 := set_total_review_time totalDuration (l_stageDurations l) in
  let stageDurations :=
    if negb (truthy_opt (merged_at pr)) then
      let lastActivityTime :=
        if Nat.ltb 1 (length stages)
        then match nth_error stages (length stages - 1) with
             | Some s => timestamp s
             | None => created_at pr
             end
        else created_at pr in
      set_ongoing_time (calculateDaysDiff lastActivityTime now2) sd1
    else sd1 in
  let milestones :=
    {| m_pr_created := mkMilestone (Some (created_at pr)) true;
       m_first_review :=
         mkMilestone
           (match stage_timestamp s_first_review stages with
            | Some t => if truthy t then Some t else None
            | None => None
            end)
           (isSome (find_stage s_first_review stages));
       m_approved :=
         mkMilestone (l_lastApprovalTime l) (truthy_opt (l_lastApprovalTime l));
       m_merged :=
         mkMilestone (merged_at pr) (status_eqb (status pr) status_merged) |} in
  let validation :=
    validateTimeline stages (l_events l) (l_reviewCycles l) (l_issues l)
      (l_confidenceScore l) in
  ({| pr_number := github_pr_number pr;
      pr_title := title pr;
      pr_author := author pr;
      total_duration := totalDuration;
      stages := stages;
      is_completed := status_eqb (status pr) status_merged
                      || status_eqb (status pr) status_closed;
      stage_durations := stageDurations;
      milestones := milestones;
      validation := validation;
      review_cycles := l_reviewCycles l;
      actual_events := l_events l |},
   sortedReviews).

(** [interface PRTimeline] and [calculatePRTimeline(pr, prReviews,
    prComments)]: the enhanced timeline without its validation, review cycles
    and events. The call sorts the caller's [prReviews] as the enhanced
    calculation does. *)
Record PRTimeline := mkPRTimeline {
  basic_pr_number : Z;
  basic_pr_title : jsstring;
  basic_pr_author : jsstring;
  basic_total_duration : float;
  basic_stages : list PRTimelineStage;
  basic_is_completed : bool;
  basic_stage_durations : StageDurations;
  basic_milestones : Milestones
}.

Definition calculatePRTimeline (now1 now2 : jsstring) (pr : PullRequest)
    (prReviews : list Review) (prComments : list Comment)
  : PRTimeline * list Review :=
  let '(enhancedTimeline, prReviews') :=
    calculateEnhancedPRTimeline now1 now2 pr prReviews prComments in
  ({| basic_pr_number := pr_number enhancedTimeline;
      basic_pr_title := pr_title enhancedTimeline;
      basic_pr_author := pr_author enhancedTimeline;
      basic_total_duration := total_duration enhancedTimeline;
      basic_stages := stages enhancedTimeline;
      basic_is_completed := is_completed enhancedTimeline;
      basic_stage_durations := stage_durations enhancedTimeline;
      basic_milestones := milestones enhancedTimeline |},
   prReviews').

(* ================================================================= *)
(** ** Derived-artifact cache *)

(** The module-level arrays the cache version is computed from. *)
Record Store := mkStore {
  pullRequests : list PullRequest;
  comments : list Comment
}.

(** [interface CachedCommentCategorization], for any type of the cached data. *)
Record CachedCommentCategorization (D : Type) := mkCached {
  data : D;
  generated_at : jsstring;
  expires_at : jsstring;
  version : jsstring
}.
Arguments mkCached {D}.
Arguments data {D}.
Arguments generated_at {D}.
Arguments expires_at {D}.
Arguments version {D}.

Definition CACHE_EXPIRY_HOURS : Z := 2.
Definition CACHE_VERSION_PREFIX : jsstring := str "v1_".

(** A digit of a radix up to 36: [0-9a-z]. *)
Definition radix_digit (d : Z) : N :=
  if d <? 10 then Z.to_N (48 + d) else Z.to_N (87 + d).

(** The digits of a non-negative integer, at most [fuel] of them. *)
Fixpoint to_radix (radix : Z) (fuel : nat) (n : Z) (acc : jsstring) : jsstring :=
  match fuel with
  | O => acc
  | S fuel' =>
      let acc' := radix_digit (n mod radix) :: acc in
      if n / radix =? 0 then acc' else to_radix radix fuel' (n / radix) acc'
  end.

(** The text of a count (a non-negative integer) in JSON. *)
Definition nat_toString (n : nat) : jsstring :=
  to_radix 10 (S n) (Z.of_nat n) [].

Definition hex4 (c : N) : jsstring :=
  let z := Z.of_N c in
  [radix_digit (z / 4096 mod 16); radix_digit (z / 256 mod 16);
   radix_digit (z / 16 mod 16); radix_digit (z mod 16)].

Definition is_high_surrogate (c : N) : bool := N.leb 55296 c && N.leb c 56319.
Definition is_low_surrogate (c : N) : bool := N.leb 56320 c && N.leb c 57343.

Definition unicode_escape (c : N) : jsstring := [92; 117]%N ++ hex4 c.

(** The body of QuoteJSONString: the short escapes, [\uXXXX] for the other
    control characters and for a surrogate without its partner. *)
Fixpoint json_escape (s : jsstring) : jsstring :=
  match s with
  | [] => []
  | c :: rest =>
      if N.eqb c 8 then [92; 98]%N ++ json_escape rest
      else if N.eqb c 9 then [92; 116]%N ++ json_escape rest
      else if N.eqb c 10 then [92; 110]%N ++ json_escape rest
      else if N.eqb c 12 then [92; 102]%N ++ json_escape rest
      else if N.eqb c 13 then [92; 114]%N ++ json_escape rest
      else if N.eqb c 34 then [92; 34]%N ++ json_escape rest
      else if N.eqb c 92 then [92; 92]%N ++ json_escape rest
      else if N.ltb c 32 then unicode_escape c ++ json_escape rest
      else if is_high_surrogate c then
        match rest with
        | c2 :: rest2 =>
            if is_low_surrogate c2 then c :: c2 :: json_escape rest2
            else unicode_escape c ++ json_escape rest
        | [] => unicode_escape c
        end
      else if is_low_surrogate c then unicode_escape c ++ json_escape rest
      else c :: json_escape rest
  end.

Definition QuoteJSONString (s : jsstring) : jsstring :=
  [34%N] ++ json_escape s ++ [34%N].

(** A property name of a JSON object with its colon. *)
Definition json_key (name : string) : jsstring :=
  QuoteJSONString (str name) ++ str ":".

(** The order of [Array.prototype.sort] without a comparator: strings by
    their code units. *)
Fixpoint jsstring_compare (a b : jsstring) : comparison :=
  match a, b with
  | [], [] => Eq
  | [], _ :: _ => Lt
  | _ :: _, [] => Gt
  | x :: a', y :: b' =>
      match N.compare x y with
      | Eq => jsstring_compare a' b'
      | c => c
      end
  end.

Definition compareStrings (a b : jsstring) : option Z :=
  Some (match jsstring_compare a b with Lt => -1 | Eq => 0 | Gt => 1 end).

(** ToInt32 of an integer. *)
Definition ToInt32 (z : Z) : Z := (z + 2 ^ 31) mod 2 ^ 32 - 2 ^ 31.

(** One round of the hash loop: [hash = ((hash << 5) - hash) + char;
    hash = hash & hash]. *)
Definition hash_step (hash : Z) (char : N) : Z :=
  ToInt32 (ToInt32 (hash * 32) - hash + Z.of_N char).

(** [generateDataVersionHash()] *)
Definition generateDataVersionHash (st : Store) : jsstring :=
  let lastUpdated :=
    let sorted := Array_sort compareStrings (map updated_at (pullRequests st)) in
    js_or (nth_error sorted (length sorted - 1)) [] in
  let dataString :=
    str "{" ++ json_key "prCount" ++ nat_toString (length (pullRequests st))
    ++ str "," ++ json_key "commentCount" ++ nat_toString (length (comments st))
    ++ str "," ++ json_key "lastUpdated" ++ QuoteJSONString lastUpdated
    ++ str "," ++ json_key "humanCommentCount"
    ++ nat_toString (length (filter isHumanComment (comments st)))
    ++ str "}" in
  let hash := fold_left hash_step dataString 0 in
  CACHE_VERSION_PREFIX ++ to_radix 36 7 (Z.abs hash) [].

(** [isCacheValid(cache)] when the clock reads [now]. *)
Definition isCacheValid {D} (st : Store) (now : Z)
    (cache : option (CachedCommentCategorization D)) : bool :=
  match cache with
  | None => false
  | Some cache =>
      let expiryTime := Date_getTime (expires_at cache) in
      let currentVersion := generateDataVersionHash st in
      let isNotExpired := time_ltb (Some now) expiryTime in
      let isVersionValid := jsstring_eqb (version cache) currentVersion in
      isNotExpired && isVersionValid
  end.

(** [createCacheEntry(data)] when the clock reads [now]; [None] is the
    RangeError that [toISOString] throws on an expiry beyond the range of
    Date. *)
Definition createCacheEntry {D} (st : Store) (now : Z) (data : D)
  : option (CachedCommentCategorization D) :=
  let expiryTime := now + CACHE_EXPIRY_HOURS * 60 * 60 * 1000 in
  generated <- Date_toISOString now;;
  expires <- Date_toISOString expiryTime;;
  Some {| data := data;
          generated_at := generated;
          expires_at := expires;
          version := generateDataVersionHash st |}.

(* ================================================================= *)
(** ** Review store

    The module-level array [reviews] is passed to the functions that read it
    and returned by the one that replaces it. *)

(** [String.prototype.toUpperCase] on one code unit, for the comparison with
    the upper-case ASCII names of the review states. It is written out for
    Latin-1 and for the code units whose upper case is made of ASCII letters
    only: the small letters of ASCII, the dotless i, the long s, the sharp s
    and the ligatures ff to st, the last eight of which become two or three
    letters. Every other code unit is left as it is; its real upper case
    holds a code unit outside ASCII. *)
Definition toUpperCase_unit (c : N) : jsstring :=
  (if N.leb 97 c && N.leb c 122 then [c - 32]
   else if N.eqb c 181 then [924]
   else if N.eqb c 223 then [83; 83]
   else if N.leb 224 c && N.leb c 254 && negb (N.eqb c 247) then [c - 32]
   else if N.eqb c 255 then [376]
   else if N.eqb c 305 then [73]
   else if N.eqb c 383 then [83]
   else if N.eqb c 64256 then [70; 70]
   else if N.eqb c 64257 then [70; 73]
   else if N.eqb c 64258 then [70; 76]
   else if N.eqb c 64259 then [70; 70; 73]
   else if N.eqb c 64260 then [70; 70; 76]
   else if N.eqb c 64261 then [83; 84]
   else if N.eqb c 64262 then [83; 84]
   else [c])%N.

Definition toUpperCase (s : jsstring) : jsstring := flat_map toUpperCase_unit s.

(** [normalizeReviewState(githubState)] *)
Definition normalizeReviewState (githubState : jsstring) : ReviewState :=
  let upper := toUpperCase githubState in
  if jsstring_eqb upper (str "APPROVED") then approved
  else if jsstring_eqb upper (str "CHANGES_REQUESTED") then changes_requested
  else if jsstring_eqb upper (str "COMMENTED") then commented
  else if jsstring_eqb upper (str "DISMISSED") then commented
  else commented.

(** [countApprovals(prNumber)] *)
Definition countApprovals (reviews : list Review) (prNumber : Z) : nat :=
  let prReviews :=
    filter (fun r => Z.eqb (review_pr_id r) prNumber && is_latest_review r)
           reviews in
  let approvedReviews :=
    filter (fun r => state_eqb (review_state r) approved) prReviews in
  length approvedReviews.

(** [array.includes(x)] on strings. *)
Definition includes (l : list jsstring) (x : jsstring) : bool :=
  existsb (fun y => jsstring_eqb y x) l.

(** A [Set] of strings by the order of insertion: [set.add(x)], and
    [Array.from(set)] is the list itself. *)
Definition Set_add (set : list jsstring) (x : jsstring) : list jsstring :=
  if includes set x then set else set ++ [x].

(** [getPendingReviewers(prNumber, requestedReviewers, prAuthor)] *)
Definition getPendingReviewers (reviews : list Review) (prNumber : Z)
    (requestedReviewers : list jsstring) (prAuthor : jsstring) : list jsstring :=
  let prReviews :=
    filter (fun r => Z.eqb (review_pr_id r) prNumber && is_latest_review r)
           reviews in
  let approvedReviewers :=
    map reviewer_username
      (filter (fun r => state_eqb (review_state r) approved) prReviews) in
  let changesRequestedReviewers :=
    map reviewer_username
      (filter (fun r => state_eqb (review_state r) changes_requested) prReviews) in
  let commentedReviewers :=
    map reviewer_username
      (filter (fun r => state_eqb (review_state r) commented) prReviews) in
  let notAuthor := fun reviewer => negb (jsstring_eqb reviewer prAuthor) in
  let filteredRequestedReviewers := filter notAuthor requestedReviewers in
  let filteredChangesRequestedReviewers :=
    filter notAuthor changesRequestedReviewers in
  let filteredCommentedReviewers := filter notAuthor commentedReviewers in
  let allPendingReviewers : list jsstring := [] in
  let allPendingReviewers :=
    fold_left (fun set reviewer =>
                 if negb (includes approvedReviewers reviewer)
                 then Set_add set reviewer else set)
              filteredRequestedReviewers allPendingReviewers in
  let allPendingReviewers :=
    fold_left Set_add filteredChangesRequestedReviewers allPendingReviewers in
  let allPendingReviewers :=
    fold_left (fun set reviewer =>
                 if negb (includes approvedReviewers reviewer)
                 then Set_add set reviewer else set)
              filteredCommentedReviewers allPendingReviewers in
  allPendingReviewers.

(** One entry of what [octokit.rest.pulls.listReviews] answers, as far as it
    is read: [review.id], [review.user?.login], [review.state],
    [review.submitted_at] and [review.body]. A review without
    [submitted_at] has the empty string here, which is as falsy and as
    little a date as [undefined]. *)
Record GitHubReview := mkGitHubReview {
  gh_review_id : Z;
  gh_review_login : option jsstring;
  gh_review_state : jsstring;
  gh_review_submitted_at : jsstring;
  gh_review_body : option jsstring
}.

(** A [Map] with string keys by the order of insertion: [map.set(k, v)]
    keeps the place of a key that is there already. *)
Fixpoint Map_set {V} (m : list (jsstring * V)) (k : jsstring) (v : V)
  : list (jsstring * V) :=
  match m with
  | [] => [(k, v)]
  | (k', v') :: rest =>
      if jsstring_eqb k' k then (k', v) :: rest
      else (k', v') :: Map_set rest k v
  end.

(** [map.get(k)] *)
Definition Map_get {V} (m : list (jsstring * V)) (k : jsstring) : option V :=
  option_map snd (find (fun entry => jsstring_eqb (fst entry) k) m).

(** The [reviews] array after [fetchPRReviews(prNumber)], when
    [listReviews] answers [response] ([None]: the request fails and the
    [catch] block only logs). The call of [fetchPRReviewComments] at its end
    works on [comments] and leaves [reviews] alone. *)
Definition fetchPRReviews (response : option (list GitHubReview))
    (reviews : list Review) (prNumber : Z) : list Review :=
  match response with
  | None => reviews
  | Some prReviews =>
      let reviews := filter (fun r => negb (Z.eqb (review_pr_id r) prNumber))
                            reviews in
      let latestReviews :=
        fold_left (fun latest review =>
                     match gh_review_login review with
                     | Some login =>
                         if truthy login then Map_set latest login review
                         else latest
                     | None => latest
                     end) prReviews [] in
      fold_left (fun reviews entry =>
                   let '(reviewer, review) := entry in
                   let normalizedState :=
                     normalizeReviewState (gh_review_state review) in
                   reviews ++ [ {| review_id := gh_review_id review;
                                   review_pr_id := prNumber;
                                   reviewer_username := reviewer;
                                   review_state := normalizedState;
                                   submitted_at := gh_review_submitted_at review;
                                   is_latest_review := true;
                                   review_content :=
                                     Some (js_or (gh_review_body review) []) |} ])
                latestReviews reviews
  end.

(* ================================================================= *)
(** ** Comment store

    The module-level array [comments], handled as [reviews] is. *)




(* ================================================================= *)
(** ** Rate limiter of the API

    The middleware mounted on [/api], as a step on the map [requestCounts]
    when [Date.now()] reads [now] and the request comes from [clientIP]. The
    entry of a client is an object that [clientData.count++] changes in
    place; here the map is given the changed entry. *)

Record ClientData := mkClientData {
  count : Z;
  resetTime : Z
}.

Definition RATE_LIMIT : Z := 1000000.
Definition RATE_WINDOW : Z := 60 * 60 * 1000.

(** What the middleware does with the request: [next()], or the answer
    [429] with its error message. *)
Inductive Verdict := Next | RateLimitExceeded.

Definition rateLimit (now : Z) (clientIP : jsstring)
    (requestCounts : list (jsstring * ClientData))
  : list (jsstring * ClientData) * Verdict :=
  let clientData := Map_get requestCounts clientIP in
  if match clientData with
     | None => true
     | Some clientData => now >? resetTime clientData
     end
  then
    (Map_set requestCounts clientIP
       {| count := 1; resetTime := now + RATE_WINDOW |}, Next)
  else
    match clientData with
    | Some clientData =>
        if count clientData <? RATE_LIMIT
        then (Map_set requestCounts clientIP
                {| count := count clientData + 1;
                   resetTime := resetTime clientData |}, Next)
        else (requestCounts, RateLimitExceeded)
    | None => (requestCounts, RateLimitExceeded)
    end.

(* ================================================================= *)
(** ** Code context of a review comment *)

(** [String.prototype.split(sep)] for a separator of one code unit. *)
Fixpoint split_on (sep : N) (s : jsstring) : list jsstring :=
  match s with
  | [] => [[]]
  | c :: rest =>
      if N.eqb c sep then [] :: split_on sep rest
      else match split_on sep rest with
           | segment :: segments => (c :: segment) :: segments
           | [] => [[c]]
           end
  end.

(** [Array.prototype.join(sep)] on strings, for a separator of one code
    unit. *)
Fixpoint Array_join (sep : N) (l : list jsstring) : jsstring :=
  match l with
  | [] => []
  | [s] => s
  | s :: rest => s ++ sep :: Array_join sep rest
  end.

(** [Array.prototype.slice(start, end)] with integer bounds: a negative
    bound counts from the end of the array. *)
Definition Array_slice {A} (start end_ : Z) (l : list A) : list A :=
  let len := Z.of_nat (length l) in
  let k := if start <? 0 then Z.max (len + start) 0 else Z.min start len in
  let final := if end_ <? 0 then Z.max (len + end_) 0 else Z.min end_ len in
  firstn (Z.to_nat (final - k)) (skipn (Z.to_nat k) l).

(** The text of an integer in a template literal (below 10^21, where the
    runtime still writes every digit). *)
Definition Z_toString (z : Z) : jsstring :=
  if z <? 0 then 45%N :: nat_toString (Z.to_nat (- z))
  else nat_toString (Z.to_nat z).

(** What [getLanguageFromPath] returns: a string, or for a key that the
    object literal [languageMap] only inherits, the function or object that
    [Object.prototype] holds under the key. *)
Inductive Language :=
| LanguageName (name : jsstring)
| InheritedProperty (key : jsstring).

Definition languageMap : list (string * string) :=
  [ ("rs", "rust"); ("js", "javascript"); ("ts", "typescript");
    ("tsx", "typescript"); ("jsx", "javascript"); ("py", "python");
    ("java", "java"); ("go", "go"); ("cpp", "cpp"); ("c", "c"); ("h", "c");
    ("hpp", "cpp"); ("cs", "csharp"); ("php", "php"); ("rb", "ruby");
    ("swift", "swift"); ("kt", "kotlin"); ("scala", "scala"); ("sql", "sql");
    ("json", "json"); ("yaml", "yaml"); ("yml", "yaml"); ("toml", "toml");
    ("md", "markdown"); ("sh", "bash"); ("dockerfile", "dockerfile") ]%string.

(** The property names of [Object.prototype], all of them with a value
    that is truthy. *)
Definition Object_prototype_keys : list jsstring :=
  map str [ "constructor"; "__defineGetter__"; "__defineSetter__";
            "hasOwnProperty"; "__lookupGetter__"; "__lookupSetter__";
            "isPrototypeOf"; "propertyIsEnumerable"; "toString"; "valueOf";
            "__proto__"; "toLocaleString" ]%string.

(** [getLanguageFromPath(filePath)]. [split] returns at least one string, so
    [pop()] returns a string and [?.] has nothing to guard. *)
Definition getLanguageFromPath (filePath : jsstring) : Language :=
  let extension := toLowerCase (last (split_on 46 filePath) []) in
  let key := if truthy extension then extension else [] in
  match find (fun entry => jsstring_eqb (str (fst entry)) key) languageMap with
  | Some entry =>
      if truthy (str (snd entry)) then LanguageName (str (snd entry))
      else LanguageName (str "text")
  | None =>
      if includes Object_prototype_keys key then InheritedProperty key
      else LanguageName (str "text")
  end.

(** [interface CodeContext] *)
Record CodeContext := mkCodeContext {
  context_file_path : jsstring;
  context_line_number : Z;
  code_snippet : jsstring;
  context_range : jsstring;
  language : Language
}.

(** The two code-context fields of [interface Comment] that the functions
    below read; a line number is an integer. *)
Record CommentLocation := mkCommentLocation {
  file_path : option jsstring;
  line_number : option Z
}.

(** [!comment.file_path || !comment.line_number] *)
Definition no_location (comment : CommentLocation) : bool :=
  negb (truthy_opt (file_path comment))
  || match line_number comment with
     | Some line => line =? 0
     | None => true
     end.

(** What [octokit.rest.repos.getContent] answers: the request fails, or
    the answer is an array (the path is a directory), or it is one entry
    with its [type] and the text that its [content] decodes to. *)
Inductive ContentResponse :=
| RequestFailed
| DirectoryListing
| ContentEntry (type : jsstring) (fileContent : jsstring).

(** [fetchCodeContext(comment, prNumber)] when GitHub answers [response] to
    the request for the file at the head of the pull request. *)
Definition fetchCodeContext (response : ContentResponse)
    (comment : CommentLocation) : option CodeContext :=
  if no_location comment then None
  else
    match file_path comment, line_number comment, response with
    | Some path, Some line, ContentEntry type fileContent =>
        if negb (jsstring_eqb type (str "file")) then None
        else
          let lines := split_on 10 fileContent in
          let contextLines := 5 in
          let startLine := Z.max 0 (line - contextLines - 1) in
          let endLine := Z.min (Z.of_nat (length lines)) (line + contextLines) in
          let codeSnippet := Array_join 10 (Array_slice startLine endLine lines) in
          let contextRange :=
            Z_toString (startLine + 1) ++ str "-" ++ Z_toString endLine in
          let language := getLanguageFromPath path in
          Some {| context_file_path := path;
                  context_line_number := line;
                  code_snippet := codeSnippet;
                  context_range := contextRange;
                  language := language |}
    | _, _, _ => None
    end.

(** [getCachedCodeContext(comment, prNumber)] on the map [codeContextCache],
    when GitHub would answer [response]: the context, the map afterwards,
    and whether GitHub was asked. *)
Definition getCachedCodeContext (response : ContentResponse)
    (codeContextCache : list (jsstring * option CodeContext))
    (comment : CommentLocation) (prNumber : Z)
  : option CodeContext * list (jsstring * option CodeContext) * bool :=
  if no_location comment then (None, codeContextCache, false)
  else
    match file_path comment, line_number comment with
    | Some path, Some line =>
        let cacheKey :=
          Z_toString prNumber ++ str ":" ++ path ++ str ":" ++ Z_toString line in
        match Map_get codeContextCache cacheKey with
        | Some cached => (cached, codeContextCache, false)
        | None =>
            let context := fetchCodeContext response comment in
            (context, Map_set codeContextCache cacheKey context, true)
        end
    | _, _ => (None, codeContextCache, false)
    end.

(* ================================================================= *)
(** ** Status of the derived-artifact cache *)

(** The part of [CommentCategorizationResponse] that the status endpoint
    reads: three numbers of [overall_summary]. *)
Record OverallSummary := mkOverallSummary {
  total_prs_analyzed : float;
  total_comments_categorized : float;
  avg_confidence_score : float
}.

Record CategorizationData := mkCategorizationData {
  overall_summary : OverallSummary
}.

Record DataSummary := mkDataSummary {
  total_prs : float;
  total_comments : float;
  avg_confidence : float
}.

(** What the status endpoint answers: [{cached: false, valid: false,
    message}], or the fields of a cached entry. *)
Inductive CacheStatus :=
| NotCached
| Cached (valid : bool) (generated expires cached_version : jsstring)
    (age_minutes expires_in_minutes : float) (data_summary : DataSummary).

(** The difference of two time values as a number: NaN when one of them
    is. *)
Definition time_difference (a b : option Z) : float :=
  match a, b with
  | Some ta, Some tb => number_of_Z (ta - tb)
  | _, _ => nan
  end.

(** The handler of [GET /api/analytics/comment-categorization/cache/status]
    when its own [new Date()] reads [now] and the one of [isCacheValid]
    reads [now']. *)
Definition cacheStatus (st : Store) (now now' : Z)
    (commentCategorizationCache
       : option (CachedCommentCategorization CategorizationData))
  : CacheStatus :=
  match commentCategorizationCache with
  | Some cache =>
      let generated := Date_getTime (generated_at cache) in
      let expires := Date_getTime (expires_at cache) in
      let ageMinutes :=
        Math_round (time_difference (Some now) generated / (1000 * 60))%float in
      let expiresInMinutes :=
        Math_round (time_difference expires (Some now) / (1000 * 60))%float in
      let isValid := isCacheValid st now' commentCategorizationCache in
      Cached isValid (generated_at cache) (expires_at cache)
        (version cache) ageMinutes (Math_max 0 expiresInMinutes)
        {| total_prs := total_prs_analyzed (overall_summary (data cache));
           total_comments :=
             total_comments_categorized (overall_summary (data cache));
           avg_confidence := avg_confidence_score (overall_summary (data cache)) |}
  | None => NotCached
  end.

(* ================================================================= *)
(** ** Webhook of GitHub events *)

(** What the handler reads of [payload.pull_request]: the names of its
    labels ([None]: the object has no [labels]) and its number. *)
Record PullRequestPayload := mkPullRequestPayload {
  payload_labels : option (list jsstring);
  payload_number : Z
}.

(** What the handler reads of [payload.issue]: whether [pull_request] is
    truthy, the names of its labels and its number. *)
Record IssuePayload := mkIssuePayload {
  issue_pull_request : bool;
  issue_labels : option (list jsstring);
  issue_number : Z
}.

Record WebhookPayload := mkWebhookPayload {
  pull_request : option PullRequestPayload;
  issue : option IssuePayload
}.

(** [labels.some(label => label.name === 'A-connector-integration')] *)
Definition has_connector_label (labels : list jsstring) : bool :=
  existsb (fun name => jsstring_eqb name (str "A-connector-integration")) labels.

(** [isConnectorIntegrationPR(pr)]; [None] is the TypeError of reading
    [labels] of [undefined], or of calling [some] of [undefined]. *)
Definition isConnectorIntegrationPR (pr : option PullRequestPayload)
  : option bool :=
  match pr with
  | Some pr => option_map has_connector_label (payload_labels pr)
  | None => None
  end.

(** The fetches that the handler starts without waiting for them. *)
Inductive Refresh :=
| FetchConnectorPRs
| FetchPRReviews (prNumber : Z)
| FetchPRReviewComments (prNumber : Z)
| FetchPRComments (prNumber : Z).

(** The handler throws a TypeError, or it answers with a status and a body
    after it has started some fetches. *)
Inductive WebhookResult :=
| TypeError
| Responded (status : Z) (body : jsstring) (started : list Refresh).

(** The handler of [POST /api/webhook] for the header [x-github-event] and
    the body of the request. *)
Definition webhook (event : option jsstring) (payload : WebhookPayload)
  : WebhookResult :=
  let is_event (name : string) :=
    match event with
    | Some e => jsstring_eqb e (str name)
    | None => false
    end in
  let respond started := Responded 200 (str "OK") started in
  if is_event "pull_request"%string then
    match isConnectorIntegrationPR (pull_request payload) with
    | Some true => respond [FetchConnectorPRs]
    | Some false => respond []
    | None => TypeError
    end
  else if is_event "pull_request_review"%string then
    match pull_request payload with
    | Some pr =>
        match isConnectorIntegrationPR (Some pr) with
        | Some true =>
            respond [FetchPRReviews (payload_number pr); FetchConnectorPRs]
        | Some false => respond []
        | None => TypeError
        end
    | None => respond []
    end
  else if is_event "pull_request_review_comment"%string then
    match pull_request payload with
    | Some pr =>
        match isConnectorIntegrationPR (Some pr) with
        | Some true => respond [FetchPRReviewComments (payload_number pr)]
        | Some false => respond []
        | None => TypeError
        end
    | None => respond []
    end
  else if is_event "issue_comment"%string then
    match issue payload with
    | Some issue =>
        if issue_pull_request issue
           && match issue_labels issue with
              | Some labels => has_connector_label labels
              | None => false
              end
        then respond [FetchPRComments (issue_number issue)]
        else respond []
    | None => respond []
    end
  else respond [].

(* ================================================================= *)
(** ** Timeline analytics *)

(** The sign that [Array.prototype.sort] reads off the comparator
    [(a, b) => a - b] on two numbers: NaN when one of them is NaN, which
    the sort takes for +0. (The difference of two infinities of the same
    sign is NaN as well, and is taken for +0 like the 0 written here.) *)
Definition compareNumbers (a b : float) : option Z :=
  if is_nan a || is_nan b then None
  else if (a <? b)%float then Some (-1)
  else if (b <? a)%float then Some 1
  else Some 0.

(** A count as a number. *)
Definition number_of_nat (n : nat) : float := number_of_Z (Z.of_nat n).

Record QualityMetrics := mkQualityMetrics {
  high_quality : nat;
  medium_quality : nat;
  low_quality : nat;
  invalid_timelines : nat;
  quality_avg_confidence_score : float;
  total_issues_detected : nat;
  review_cycles_total : nat
}.

Record TimelineSummary := mkTimelineSummary {
  summary_total_prs_analyzed : nat;
  completed_prs : nat;
  avg_total_time_days : float;
  avg_first_review_time_days : float;
  avg_approval_time_days : float;
  longest_pr : option PRTimeline;
  fastest_pr : option PRTimeline;
  summary_data_quality : QualityMetrics
}.

Record TimelineAnalytics := mkTimelineAnalytics {
  timeline_data : list PRTimeline;
  enhanced_timeline_data : list EnhancedPRTimeline;
  analytics_summary : TimelineSummary;
  analytics_generated_at : jsstring
}.

Definition level_eqb (a b : Level) : bool :=
  match a, b with
  | high, high | medium, medium | low, low => true
  | _, _ => false
  end.

(** [arr.reduce((sum, t, _, arr) => sum + f(t) / arr.length, 0)] *)
Definition average_by_parts {A} (f : A -> float) (arr : list A) : float :=
  fold_left (fun sum t => (sum + f t / number_of_nat (length arr))%float) arr 0%float.

(** The handler of [GET /api/analytics/timeline], without its [catch].
    [clock k] is what the two readings of the clock return in the [k]-th
    timeline calculation (counted from 0 through both passes over the pull
    requests), [now] what the final reading returns. The arrays that the
    calculations sort in place are the fresh results of [filter]. *)
Definition timelineAnalytics (clock : nat -> jsstring * jsstring)
    (now : jsstring) (st : Store) (reviews : list Review) : TimelineAnalytics :=
  let numbered := combine (seq 0 (length (pullRequests st))) (pullRequests st) in
  let timelineData :=
    map (fun entry =>
           let '(k, pr) := entry in
           let prReviews :=
             filter (fun r => Z.eqb (review_pr_id r) (github_pr_number pr))
                    reviews in
           let prComments :=
             filter (fun c => Z.eqb (comment_pr_id c) (github_pr_number pr))
                    (comments st) in
           fst (calculatePRTimeline (fst (clock k)) (snd (clock k)) pr
                  prReviews prComments))
        numbered in
  (* timelineData.sort(...) sorts timelineData itself *)
  let timelineData :=
    Array_sort (fun a b => compareNumbers (basic_total_duration b)
                             (basic_total_duration a)) timelineData in
  let sortedTimelineData := timelineData in
  let completedPRs := filter basic_is_completed timelineData in
  let avgTotalTime :=
    if Nat.ltb 0 (length completedPRs)
    then (fold_left (fun sum t => sum + basic_total_duration t) completedPRs 0
          / number_of_nat (length completedPRs))%float
    else 0%float in
  let avgFirstReviewTime :=
    average_by_parts
      (fun t => pr_raised_to_first_review (basic_stage_durations t))
      (filter (fun t => (0 <? pr_raised_to_first_review
                                (basic_stage_durations t))%float)
              timelineData) in
  let avgApprovalTime :=
    average_by_parts
      (fun t => comments_fixed_to_approved (basic_stage_durations t))
      (filter (fun t => (0 <? comments_fixed_to_approved
                                (basic_stage_durations t))%float)
              completedPRs) in
  let enhancedTimelineData :=
    map (fun entry =>
           let '(k, pr) := entry in
           let prReviews :=
             filter (fun r => Z.eqb (review_pr_id r) (github_pr_number pr))
                    reviews in
           let prComments :=
             filter (fun c => Z.eqb (comment_pr_id c) (github_pr_number pr))
                    (comments st) in
           fst (calculateEnhancedPRTimeline
                  (fst (clock (length (pullRequests st) + k)%nat))
                  (snd (clock (length (pullRequests st) + k)%nat)) pr
                  prReviews prComments))
        numbered in
  let qualityMetrics :=
    {| high_quality :=
         length (filter (fun t => level_eqb (data_quality (validation t)) high)
                        enhancedTimelineData);
       medium_quality :=
         length (filter (fun t => level_eqb (data_quality (validation t)) medium)
                        enhancedTimelineData);
       low_quality :=
         length (filter (fun t => level_eqb (data_quality (validation t)) low)
                        enhancedTimelineData);
       invalid_timelines :=
         length (filter (fun t => negb (is_valid (validation t)))
                        enhancedTimelineData);
       quality_avg_confidence_score :=
         (fold_left (fun sum t => sum + confidence_score (validation t))
                    enhancedTimelineData 0
          / number_of_nat (length enhancedTimelineData))%float;
       total_issues_detected :=
         fold_left (fun sum t => (sum + length (issues (validation t)))%nat)
                   enhancedTimelineData 0%nat;
       review_cycles_total :=
         fold_left (fun sum t => (sum + length (review_cycles t))%nat)
                   enhancedTimelineData 0%nat |} in
  let summary :=
    {| summary_total_prs_analyzed := length timelineData;
       completed_prs := length completedPRs;
       avg_total_time_days := (Math_round (avgTotalTime * 10) / 10)%float;
       avg_first_review_time_days :=
         (Math_round (avgFirstReviewTime * 10) / 10)%float;
       avg_approval_time_days := (Math_round (avgApprovalTime * 10) / 10)%float;
       longest_pr := nth_error sortedTimelineData 0;
       fastest_pr :=
         nth_error (Array_sort (fun a b => compareNumbers (basic_total_duration a)
                                             (basic_total_duration b))
                               completedPRs) 0;
       summary_data_quality := qualityMetrics |} in
  {| timeline_data := sortedTimelineData;
     enhanced_timeline_data := enhancedTimelineData;
     analytics_summary := summary;
     analytics_generated_at := now |}.

(* ================================================================= *)
(** ** Background summaries *)

(** A [Map] with numbers as keys, by the order of insertion. *)
Fixpoint NumberMap_set {V} (m : list (Z * V)) (k : Z) (v : V) : list (Z * V) :=
  match m with
  | [] => [(k, v)]
  | (k', v') :: rest =>
      if Z.eqb k' k then (k', v) :: rest
      else (k', v') :: NumberMap_set rest k v
  end.

Definition NumberMap_get {V} (m : list (Z * V)) (k : Z) : option V :=
  option_map snd (find (fun entry => Z.eqb (fst entry) k) m).

(** The body of a summary: the object literal that
    [generateBackgroundSummaries] writes for an analysis of the code only,
    or what the Gemini service made of the model's answer. *)
Inductive SummaryBody :=
| CodeOnlyAnalysis
| GeminiAnalysis (summaryData : jsstring).

(** [interface PRSummary], its body as above and its metadata without the
    token counts. *)
Record PRSummary := mkPRSummary {
  summary_body : SummaryBody;
  summary_generated_at : jsstring;
  model_used : jsstring;
  summary_confidence_score : float;
  analysis_strategy : option PRAnalysisStrategy;
  background_generated : option bool
}.

(** What one round of the loop of [generateBackgroundSummaries] ends in:
    the summary is stored and broadcast, or the pull request is skipped, or
    the call of the Gemini service failed and the [catch] block logged it. *)
Inductive SummaryOutcome :=
| Stored (prNumber : Z) (summary : PRSummary)
| Skipped (prNumber : Z)
| Failed (prNumber : Z).

(** The filter of [prsNeedingSummaries]. *)
Definition needs_summary (prSummaries : list (Z * PRSummary))
    (pr : PullRequest) : bool :=
  match NumberMap_get prSummaries (github_pr_number pr) with
  | None => true
  | Some summary =>
      let prUpdated := Date_getTime (updated_at pr) in
      let summaryGenerated :=
        if truthy (summary_generated_at summary)
        then Date_getTime (summary_generated_at summary)
        else Some 0 in
      time_ltb summaryGenerated prUpdated
  end.

(** One round of the loop for the pull request [pr], when the clock reads
    [now]. [generatePRSummary] is the Gemini service: what its promise
    resolves to, or [None] when it rejects. *)
Definition summarize
    (generatePRSummary
       : PullRequest -> list Comment -> list Review -> option PRSummary)
    (now : jsstring) (st : Store) (reviews : list Review) (pr : PullRequest)
  : SummaryOutcome :=
  let allComments :=
    filter (fun c => Z.eqb (comment_pr_id c) (github_pr_number pr))
           (comments st) in
  let allReviews :=
    filter (fun r => Z.eqb (review_pr_id r) (github_pr_number pr)) reviews in
  let humanComments := filter isHumanComment allComments in
  let humanReviews := filter isHumanReview allReviews in
  let strategy := determineAnalysisStrategy allComments allReviews in
  match strategy_type strategy with
  | code_only =>
      Stored (github_pr_number pr)
        {| summary_body := CodeOnlyAnalysis;
           summary_generated_at := now;
           model_used := str "code-analysis";
           summary_confidence_score := 0.3;
           analysis_strategy := Some strategy;
           background_generated := Some true |}
  | _ =>
      if Nat.ltb 0 (length humanComments) || Nat.ltb 0 (length humanReviews)
      then
        match generatePRSummary pr humanComments humanReviews with
        | Some summary =>
            Stored (github_pr_number pr)
              {| summary_body := summary_body summary;
                 summary_generated_at := summary_generated_at summary;
                 model_used := model_used summary;
                 summary_confidence_score := summary_confidence_score summary;
                 analysis_strategy := Some strategy;
                 background_generated := Some true |}
        | None => Failed (github_pr_number pr)
        end
      else Skipped (github_pr_number pr)
  end.

(** [generateBackgroundSummaries()] on the map [prSummaries], with no other
    handler running in between: the map afterwards and what the rounds of
    the loop ended in. [clock i] is the reading of the clock in round
    [i]. *)
Definition generateBackgroundSummaries
    (generatePRSummary
       : PullRequest -> list Comment -> list Review -> option PRSummary)
    (clock : nat -> jsstring) (st : Store) (reviews : list Review)
    (prSummaries : list (Z * PRSummary))
  : list (Z * PRSummary) * list SummaryOutcome :=
  let prsNeedingSummaries :=
    filter (needs_summary prSummaries) (pullRequests st) in
  let batchSize := 3%nat in
  let rounds := Nat.min (length prsNeedingSummaries) batchSize in
  fold_left (fun state round =>
               let '(prSummaries, outcomes) := state in
               let '(i, pr) := round in
               let outcome := summarize generatePRSummary (clock i) st reviews pr in
               match outcome with
               | Stored prNumber summary =>
                   (NumberMap_set prSummaries prNumber summary,
                    outcomes ++ [outcome])
               | _ => (prSummaries, outcomes ++ [outcome])
               end)
            (combine (seq 0 rounds) (firstn rounds prsNeedingSummaries))
            (prSummaries, []).

(* ================================================================= *)
(** ** Comment categorization with its cache *)

(** What [GET /api/analytics/comment-categorization] answers: the cached
    data with [X-Cache-Status: HIT] and the age of the entry, fresh data
    with [X-Cache-Status: MISS], one of the two answers with the status 400,
    or the answer with the status 500 of the [catch] block. *)
Inductive CategorizationAnswer (D : Type) :=
| CacheHit (categorization : D) (generated expires data_version : jsstring)
    (cache_age_minutes : float)
| CacheMiss (categorization : D) (generated expires data_version : jsstring)
| NoPullRequests
| NoHumanComments (total_comments human_comments bot_comments : nat)
| GenerationFailed.
Arguments CacheHit {D}.
Arguments CacheMiss {D}.
Arguments NoPullRequests {D}.
Arguments NoHumanComments {D}.
Arguments GenerationFailed {D}.

(** The handler, with no other handler running in between: its answer and
    the cache afterwards. [categorizeComments] is the Gemini service: what
    its promise resolves to, or [None] when it rejects. [now] is what the
    clock reads in [isCacheValid] and [now'] what it reads afterwards, for
    the age of a hit or in [createCacheEntry]. *)
Definition commentCategorization {D}
    (categorizeComments : list PullRequest -> list Comment -> option D)
    (now now' : Z) (st : Store)
    (commentCategorizationCache : option (CachedCommentCategorization D))
  : CategorizationAnswer D * option (CachedCommentCategorization D) :=
  if isCacheValid st now commentCategorizationCache then
    match commentCategorizationCache with
    | Some cache =>
        let cacheAge :=
          Math_round (time_difference (Some now')
                        (Date_getTime (generated_at cache)) / (1000 * 60))%float in
        (CacheHit (data cache) (generated_at cache) (expires_at cache)
           (version cache) cacheAge,
         commentCategorizationCache)
    | None => (GenerationFailed, commentCategorizationCache)
    end
  else if Nat.eqb (length (pullRequests st)) 0 then
    (NoPullRequests, commentCategorizationCache)
  else
    let humanComments := filter isHumanComment (comments st) in
    let botComments := filter (fun c => negb (isHumanComment c)) (comments st) in
    if Nat.eqb (length humanComments) 0 then
      (NoHumanComments (length (comments st)) (length humanComments)
         (length botComments),
       commentCategorizationCache)
    else
      match categorizeComments (pullRequests st) humanComments with
      | Some categorization =>
          match createCacheEntry st now' categorization with
          | Some entry =>
              (CacheMiss categorization (generated_at entry)
                 (expires_at entry) (version entry),
               Some entry)
          | None => (GenerationFailed, commentCategorizationCache)
          end
      | None => (GenerationFailed, commentCategorizationCache)
      end.

(* ================================================================= *)
(** ** Sample inputs *)

Definition sample_comment (who body : string) : Comment :=
  mkComment 1 42 1001 (str who) (str body) (str "2024-01-01T00:00:00Z")
    false ct_issue.

Definition sample_pr (created updated : string) (merged : option jsstring)
    (st : PRStatus) : PullRequest :=
  mkPullRequest 1 42 (str "Add connector") (str "dev") (str created)
    (str updated) merged st 0.

Definition sample_review (who : string) (st : ReviewState) (at_ : string) : Review :=
  mkReview 7 42 (str who) st (str at_) true None.

(* ================================================================= *)
(** ** Notions the properties are stated with *)

(** A comment whose body is long only because of the blanks around it. *)
Definition padded_comment : Comment := sample_comment "alice" "ok          ".

(** The validator as the specification words it: the list of penalties, one
    per finding, in the order the findings are made; the confidence they
    leave; the quality tier and the validity gate.

    0.3 for each pair of adjacent stages of which the later one carries a
    timestamp that precedes the timestamp of the earlier one. *)
Fixpoint order_penalties (stages : list PRTimelineStage) : list float :=
  match stages with
  | prev :: rest =>
      match rest with
      | curr :: _ =>
          (if Date_lt (timestamp curr) (timestamp prev) then [0.3%float] else [])
          ++ order_penalties rest
      | [] => []
      end
  | [] => []
  end.

(** A stage with a negative duration; a stage with a duration above 30
    days. A stage without [duration_from_previous] is neither. *)
Definition has_negative_duration (s : PRTimelineStage) : bool :=
  match duration_from_previous s with
  | Some d => (d <? 0)%float
  | None => false
  end.

Definition has_long_duration (s : PRTimelineStage) : bool :=
  match duration_from_previous s with
  | Some d => (30 <? d)%float
  | None => false
  end.

Definition duration_penalties (stages : list PRTimelineStage) : list float :=
  flat_map (fun s => (if has_negative_duration s then [0.2%float] else [])
                     ++ (if has_long_duration s then [0.1%float] else []))
           stages.

(** 0.05 for each review cycle whose duration exceeds 14 days. *)
Definition cycle_penalties (reviewCycles : list ReviewCycle) : list float :=
  flat_map (fun c => if (14 <? duration_days c)%float then [0.05%float] else [])
           reviewCycles.

Definition penalties (stages : list PRTimelineStage)
    (reviewCycles : list ReviewCycle) : list float :=
  order_penalties stages ++ duration_penalties stages
  ++ cycle_penalties reviewCycles.

Definition subtract_all (confidence : float) (ps : list float) : float :=
  fold_left (fun c p => (c - p)%float) ps confidence.

(** A float that is neither NaN, nor an infinity, nor a zero. *)
Definition finite_number (p : float) : Prop :=
  exists s m e, Prim2SF p = S754_finite s m e.

Definition quality_tier (confidence : float) (issue_count : nat) : Level :=
  if (0.8 <=? confidence)%float && Nat.eqb issue_count 0 then high
  else if (0.6 <=? confidence)%float && Nat.leb issue_count 2 then medium
  else low.

Definition validity_gate (confidence : float) (issue_count : nat) : bool :=
  (0.5 <=? confidence)%float && Nat.ltb issue_count 5.

(** [v'] is [v] after the findings that cost [ps]: one more issue per
    penalty, and the penalties subtracted in their order. *)
Definition charged (v v' : VState) (ps : list float) : Prop :=
  (exists new, additionalIssues v' = additionalIssues v ++ new
               /\ length new = length ps)
  /\ adjustedConfidence v' = subtract_all (adjustedConfidence v) ps.

(** [a] was submitted no later than [b]; both timestamps parse. *)
Definition submitted_le (a b : Review) : Prop :=
  match Date_getTime (submitted_at a), Date_getTime (submitted_at b) with
  | Some ta, Some tb => (ta <= tb)%Z
  | _, _ => False
  end.

Definition parseable (r : Review) : Prop :=
  Date_getTime (submitted_at r) <> None.

(** The timestamp of the last review in state [st] among [rs], or [before]
    when there is none. *)
Definition last_submitted (st : ReviewState) (rs : list Review)
    (before : option jsstring) : option jsstring :=
  fold_left (fun acc r => if state_eqb (review_state r) st
                          then Some (submitted_at r) else acc) rs before.

(** The cycle the loop pushes for a changes-requested review. *)
Definition cycle_of (pr : PullRequest) (sorted : list Review) (n : nat)
    (review : Review) : ReviewCycle :=
  {| cycle_number := n;
     changes_requested_at := submitted_at review;
     changes_addressed_at :=
       findChangesAddressedTime pr (submitted_at review) sorted;
     duration_days :=
       match findChangesAddressedTime pr (submitted_at review) sorted with
       | Some t => if truthy t
                   then calculateDaysDiff (submitted_at review) t
                   else 0%float
       | None => 0%float
       end;
     reviewer := reviewer_username review |}.

(** The cycles of the changes-requested reviews among [rs], numbered from
    [n + 1]. *)
Fixpoint cycles_from (pr : PullRequest) (sorted : list Review) (n : nat)
    (rs : list Review) : list ReviewCycle :=
  match rs with
  | [] => []
  | r :: rest =>
      if state_eqb (review_state r) changes_requested
      then cycle_of pr sorted (S n) r :: cycles_from pr sorted (S n) rest
      else cycles_from pr sorted n rest
  end.

Definition first_review_stage (pr : PullRequest) (r : Review) : PRTimelineStage :=
  mkStage s_first_review (submitted_at r)
    (Some (calculateDaysDiff (created_at pr) (submitted_at r))).

(** [L'] is [L], or [L] with one more stage named [name] whose duration is
    counted from [baseTime pr L name]. *)
Definition pushed (pr : PullRequest) (name : StageName)
    (L L' : list PRTimelineStage) : Prop :=
  L' = L
  \/ exists t, L' = L ++ [mkStage name t
                            (Some (calculateDaysDiff (baseTime pr L name) t))].

Definition anchored (pr : PullRequest) (L : list PRTimelineStage) : Prop :=
  forall pre s post,
    L = pre ++ s :: post ->
    duration_from_previous s
    = match stage s with
      | s_pr_raised => None
      | name => Some (calculateDaysDiff (baseTime pr pre name) (timestamp s))
      end.

(** No stage of [L] has its duration counted from its own timestamp. *)
Definition never_from_itself (pr : PullRequest) (L : list PRTimelineStage) : Prop :=
  forall pre s post d,
    L = pre ++ s :: post ->
    duration_from_previous s = Some d ->
    baseTime pr pre (stage s) <> timestamp s.

(** The [comments_fixed] stages of [L] are counted from an earlier time,
    the timestamp of a [first_review] stage that stands before them. *)
Definition fixed_after_base (pr : PullRequest) (L : list PRTimelineStage) : Prop :=
  forall pre s post,
    L = pre ++ s :: post ->
    stage s = s_comments_fixed ->
    Date_gt (timestamp s) (baseTime pr pre s_comments_fixed) = true
    /\ exists fr, In fr pre /\ stage fr = s_first_review
                  /\ baseTime pr pre s_comments_fixed = timestamp fr.

(** Time values of the years 0000 to 9999. *)
Definition four_digit_year (t : Z) : Prop :=
  -62167219200000 <= t <= 253402300799999.

(** A store with three pull requests and one human comment, and the same
    store after one more comment has arrived. *)
Definition sample_store : Store :=
  mkStore
    [ sample_pr "2024-01-01T00:00:00Z" "2024-01-03T10:00:00Z" None status_open;
      sample_pr "2024-01-01T00:00:00Z" "2024-01-05T10:00:00Z" None status_open;
      sample_pr "2024-01-01T00:00:00Z" "2024-01-04T10:00:00Z" None status_open ]
    [ sample_comment "alice" "please rename this variable" ].

Definition sample_store_later : Store :=
  mkStore (pullRequests sample_store)
    (sample_comment "bob" "this needs a regression test" :: comments sample_store).

(** The place of a stage in the life of a pull request. *)
Definition stage_rank (name : StageName) : nat :=
  match name with
  | s_pr_raised => 0%nat
  | s_first_review => 1%nat
  | s_comments_fixed => 2%nat
  | s_approved => 3%nat
  | s_merged => 4%nat
  end.

(** [a] stands before [b] in the life of a pull request. *)
Definition stage_before (a b : PRTimelineStage) : Prop :=
  (stage_rank (stage a) < stage_rank (stage b))%nat.

(** The stages of [L] follow one another in the order of their ranks, all of
    them of a rank below [k], and there are at most [k] of them. *)
Definition ranked (k : nat) (L : list PRTimelineStage) : Prop :=
  StronglySorted stage_before L
  /\ Forall (fun s => (stage_rank (stage s) < k)%nat) L
  /\ (length L <= k)%nat.

(** The time value a review is sorted by. *)
Definition submitted_time (r : Review) : option Z :=
  Date_getTime (submitted_at r).

(** [a] was submitted before [b]; both timestamps parse. *)
Definition submitted_lt (a b : Review) : Prop :=
  match submitted_time a, submitted_time b with
  | Some ta, Some tb => (ta < tb)%Z
  | _, _ => False
  end.

Definition is_changes_requested (r : Review) : bool :=
  state_eqb (review_state r) changes_requested.

(** Nothing for the validator to find: every stage is no earlier than the
    one before it, no duration is negative or above 30 days, and no review
    cycle took more than 14 days. *)
Definition no_findings (stages : list PRTimelineStage)
    (reviewCycles : list ReviewCycle) : Prop :=
  (forall pre prev curr post,
      stages = pre ++ prev :: curr :: post -> out_of_order prev curr = false)
  /\ (forall s, In s stages ->
        negative_duration s = false /\ long_duration s = false)
  /\ (forall c, In c reviewCycles -> long_cycle c = false).

(** The login a review of GitHub is kept under, if it is kept at all. *)
Definition kept_login (review : GitHubReview) : option jsstring :=
  match gh_review_login review with
  | Some login => if truthy login then Some login else None
  | None => None
  end.

(** The last review of [login] in the list that GitHub answers, looking on
    from [found]. *)
Definition last_review_from (login : jsstring) (found : option GitHubReview)
    (prReviews : list GitHubReview) : option GitHubReview :=
  fold_left (fun found review =>
               match kept_login review with
               | Some l => if jsstring_eqb l login then Some review else found
               | None => found
               end) prReviews found.

Definition last_review_of (login : jsstring) (prReviews : list GitHubReview)
  : option GitHubReview :=
  last_review_from login None prReviews.

(** The entry of [reviews] that [fetchPRReviews] makes of a review of
    GitHub. *)
Definition stored_review (prNumber : Z) (reviewer : jsstring)
    (review : GitHubReview) : Review :=
  {| review_id := gh_review_id review;
     review_pr_id := prNumber;
     reviewer_username := reviewer;
     review_state := normalizeReviewState (gh_review_state review);
     submitted_at := gh_review_submitted_at review;
     is_latest_review := true;
     review_content := Some (js_or (gh_review_body review) []) |}.

(** The latest review of the pull request [prNumber] by [reviewer] that
    [reviews] holds is in state [st]. *)
Definition latest_in_state (reviews : list Review) (prNumber : Z)
    (st : ReviewState) (reviewer : jsstring) : Prop :=
  exists r, In r reviews /\ review_pr_id r = prNumber
            /\ is_latest_review r = true /\ review_state r = st
            /\ reviewer_username r = reviewer.

(** One round of [prReviews.forEach(review => ...)] in [fetchPRReviews]. *)
Definition keep_latest (latest : list (jsstring * GitHubReview))
    (review : GitHubReview) : list (jsstring * GitHubReview) :=
  match gh_review_login review with
  | Some login => if truthy login then Map_set latest login review else latest
  | None => latest
  end.

(** GitHub's last review by [login] is in state [st] once normalized. *)
Definition last_review_in_state (prReviews : list GitHubReview)
    (st : ReviewState) (login : jsstring) : Prop :=
  exists review,
    last_review_of login prReviews = Some review
    /\ normalizeReviewState (gh_review_state review) = st.




(** The requests that reach the rate limiter, one after the other, each with
    the reading of the clock and the client it comes from: the verdicts they
    get, and the map they leave. *)
Fixpoint serve (requests : list (Z * jsstring))
    (requestCounts : list (jsstring * ClientData))
  : list Verdict * list (jsstring * ClientData) :=
  match requests with
  | [] => ([], requestCounts)
  | (now, clientIP) :: rest =>
      let '(requestCounts', verdict) := rateLimit now clientIP requestCounts in
      let '(verdicts, final) := serve rest requestCounts' in
      (verdict :: verdicts, final)
  end.

Definition is_next (v : Verdict) : bool :=
  match v with Next => true | RateLimitExceeded => false end.

(** The requests of [clientIP] among [requests], and those of them that
    were let through. *)
Definition requests_of (clientIP : jsstring) (requests : list (Z * jsstring))
  : list (Z * jsstring) :=
  filter (fun request => jsstring_eqb (snd request) clientIP) requests.

Definition passed_of (clientIP : jsstring) (requests : list (Z * jsstring))
    (verdicts : list Verdict) : list ((Z * jsstring) * Verdict) :=
  filter (fun answered => jsstring_eqb (snd (fst answered)) clientIP
                          && is_next (snd answered))
         (combine requests verdicts).

(** Every count of the map lies between 1 and the limit. *)
Definition within_limit (requestCounts : list (jsstring * ClientData)) : Prop :=
  forall clientIP clientData,
    Map_get requestCounts clientIP = Some clientData ->
    1 <= count clientData <= RATE_LIMIT.

(** A code unit of a capital ASCII letter. *)
Definition is_capital (c : N) : bool := N.leb 65 c && N.leb c 90.

(** The pull request or issue that a fetch is started for carries the
    connector label: the labels behind each fetch that the webhook may
    start. *)
Definition labelled_for (payload : WebhookPayload) (refresh : Refresh) : Prop :=
  match refresh with
  | FetchConnectorPRs =>
      exists pr labels,
        pull_request payload = Some pr /\ payload_labels pr = Some labels
        /\ In (str "A-connector-integration") labels
  | FetchPRReviews n | FetchPRReviewComments n =>
      exists pr labels,
        pull_request payload = Some pr /\ payload_labels pr = Some labels
        /\ In (str "A-connector-integration") labels
        /\ n = payload_number pr
  | FetchPRComments n =>
      exists commented labels,
        issue payload = Some commented /\ issue_labels commented = Some labels
        /\ issue_pull_request commented = true
        /\ In (str "A-connector-integration") labels
        /\ n = issue_number commented
  end.

(** The reviews of a pull request, as the handlers select them. *)
Definition reviews_of (reviews : list Review) (pr : PullRequest) : list Review :=
  filter (fun r => Z.eqb (review_pr_id r) (github_pr_number pr)) reviews.

Definition is_closed_or_merged (pr : PullRequest) : bool :=
  status_eqb (status pr) status_merged || status_eqb (status pr) status_closed.

(** The pull request that a round of the summary loop was about. *)
Definition outcome_pr (outcome : SummaryOutcome) : Z :=
  match outcome with
  | Stored prNumber _ | Skipped prNumber | Failed prNumber => prNumber
  end.

Definition is_skipped (outcome : SummaryOutcome) : bool :=
  match outcome with Skipped _ => true | _ => false end.

(** One round of the loop of [generateBackgroundSummaries] on the map and
    the outcomes so far. *)
Definition summary_round
    (generatePRSummary
       : PullRequest -> list Comment -> list Review -> option PRSummary)
    (clock : nat -> jsstring) (st : Store) (reviews : list Review)
    (state : list (Z * PRSummary) * list SummaryOutcome)
    (round : nat * PullRequest)
  : list (Z * PRSummary) * list SummaryOutcome :=
  let '(prSummaries, outcomes) := state in
  let '(i, pr) := round in
  let outcome := summarize generatePRSummary (clock i) st reviews pr in
  match outcome with
  | Stored prNumber summary =>
      (NumberMap_set prSummaries prNumber summary, outcomes ++ [outcome])
  | _ => (prSummaries, outcomes ++ [outcome])
  end.

(** The comments and reviews of a pull request that [isHumanComment] and
    [isHumanReview] let through. *)
Definition human_comments_of (st : Store) (pr : PullRequest) : list Comment :=
  filter isHumanComment
    (filter (fun c => Z.eqb (comment_pr_id c) (github_pr_number pr))
            (comments st)).

Definition human_reviews_of (reviews : list Review) (pr : PullRequest)
  : list Review :=
  filter isHumanReview (reviews_of reviews pr).

Definition is_hit {D} (answer : CategorizationAnswer D) : bool :=
  match answer with CacheHit _ _ _ _ _ => true | _ => false end.

(** A review that can address a request for changes made at [requested]:
    submitted later, and approving or commenting. *)
Definition addresses (requested : jsstring) (review : Review) : bool :=
  Date_gt (submitted_at review) requested
  && (state_eqb (review_state review) approved
      || state_eqb (review_state review) commented).

(** [a] does not come after [b] in the order of the code units. *)
Definition string_le (a b : jsstring) : Prop := jsstring_compare a b <> Gt.

(** The key of [codeContextCache] for a comment on [line] of the file
    [path] in the pull request [prNumber]. *)
Definition cacheKey (prNumber : Z) (path : jsstring) (line : Z) : jsstring :=
  Z_toString prNumber ++ str ":" ++ path ++ str ":" ++ Z_toString line.

(** The number that a string of decimal digits writes. *)
Definition decimal_value (s : jsstring) : Z :=
  fold_left (fun v c => 10 * v + (Z.of_N c - 48)) s 0.

Definition is_decimal_digit (c : N) : Prop := (48 <= c <= 57)%N.

(* ================================================================= *)
(** * Properties *)

(** ** Content classifier and strategy selector *)

Local Open Scope nat_scope.

Ltac strategy_case :=
  repeat match goal with
         | |- _ /\ _ => split
         | |- _ <-> _ => split
         end;
  intros;
  repeat match goal with H : _ /\ _ |- _ => destruct H end;
  try discriminate; try reflexivity; try lia; try (exfalso; lia);
  try (split; reflexivity).

(** C6. The strategy selector returns [code_only] exactly when the human
    comments and human reviews add up to 0, [human_discussion] exactly when
    they add up to at least 5 or there are at least 2 human reviews, and
    [hybrid] in every other case; the confidence is high for
    [human_discussion] and medium for the other two. *)
Theorem determineAnalysisStrategy_cases :
  forall (comments : list Comment) (reviews : list Review),
    let hc := length (filter isHumanComment comments) in
    let hr := length (filter isHumanReview reviews) in
    let s := determineAnalysisStrategy comments reviews in
    (strategy_type s = code_only /\ confidence_level s = medium
       <-> hc + hr = 0)
    /\ (strategy_type s = human_discussion /\ confidence_level s = high
          <-> 5 <= hc + hr \/ 2 <= hr)
    /\ (strategy_type s = hybrid /\ confidence_level s = medium
          <-> hc + hr <> 0 /\ ~ (5 <= hc + hr \/ 2 <= hr))
    /\ human_comments s = hc /\ human_reviews s = hr.
Proof.
  intros comments reviews hc hr s.
  subst s. unfold determineAnalysisStrategy. fold hc. fold hr.
  destruct (Nat.eqb (hc + hr) 0) eqn:E0.
  - apply Nat.eqb_eq in E0. cbn. strategy_case.
  - apply Nat.eqb_neq in E0.
    destruct (Nat.leb 5 (hc + hr) || Nat.leb 2 hr) eqn:E1; cbn.
    + apply orb_true_iff in E1. rewrite !Nat.leb_le in E1. strategy_case.
    + apply orb_false_iff in E1. destruct E1 as [E1 E2].
      apply Nat.leb_gt in E1. apply Nat.leb_gt in E2. strategy_case.
Qed.

(** C7, as stated, fails: the author of [padded_comment] matches no bot
    pattern, its body matches no automated-content pattern and is 2
    characters long once trimmed, and the classifier labels it human. *)
Lemma short_trimmed_body_classified_human :
  isBotUser (comment_author padded_comment) = false
  /\ isAutomatedContent (content padded_comment) = false
  /\ length (trim (content padded_comment)) = 2
  /\ isHumanComment padded_comment = true.
Proof. vm_compute. repeat split. Qed.

(** C7, amended. For every comment whose author matches no bot pattern and
    whose body matches no automated-content pattern, if the body as it was
    written (not trimmed) is shorter than 10 code units the classifier labels
    it bot. *)
Theorem short_body_classified_bot :
  forall comment : Comment,
    isBotUser (comment_author comment) = false ->
    isAutomatedContent (content comment) = false ->
    length (content comment) < 10 ->
    isHumanComment comment = false.
Proof.
  intros comment Hbot Hauto Hlen.
  unfold isHumanComment. rewrite Hbot, Hauto.
  apply Nat.ltb_lt in Hlen. now rewrite Hlen.
Qed.

Lemma short_body_classified_bot_witness :
  isHumanComment (sample_comment "alice" "ok") = false.
Proof.
  apply short_body_classified_bot.
  - vm_compute. reflexivity.
  - vm_compute. reflexivity.
  - vm_compute. lia.
Defined.

(* ================================================================= *)
(** ** Timeline reconstruction: shape of the result *)

Lemma fold_left_invariant {A B : Type} (P : A -> Prop) (f : A -> B -> A) (l : list B) :
  (forall a b, In b l -> P a -> P (f a b)) ->
  forall a, P a -> P (fold_left f l a).
Proof.
  induction l as [|b l IH]; intros Hstep a Ha; cbn; [exact Ha|].
  apply IH.
  - intros a' b' Hin. apply Hstep. now right.
  - apply Hstep; [now left | exact Ha].
Qed.

(** The three stage blocks leave the review cycles as the loop built them. *)
Lemma comments_fixed_block_cycles pr l :
  l_reviewCycles (comments_fixed_block pr l) = l_reviewCycles l.
Proof.
  unfold comments_fixed_block.
  destruct (truthy_opt _ && _); [|reflexivity].
  destruct (nth_error _ _) as [c|]; [|reflexivity].
  destruct (changes_addressed_at c) as [t|]; [|reflexivity].
  destruct (truthy t); reflexivity.
Qed.

Lemma approval_block_cycles pr l :
  l_reviewCycles (approval_block pr l) = l_reviewCycles l.
Proof.
  unfold approval_block.
  destruct (l_lastApprovalTime l) as [t|]; [|reflexivity].
  destruct (truthy t); [|reflexivity].
  destruct (negb _); reflexivity.
Qed.

Lemma merge_block_cycles pr l :
  l_reviewCycles (merge_block pr l) = l_reviewCycles l.
Proof.
  unfold merge_block.
  destruct (merged_at pr) as [t|]; [|reflexivity].
  destruct (truthy t); reflexivity.
Qed.

Lemma reconstruct_cycles pr sorted :
  l_reviewCycles (reconstruct pr sorted)
  = l_reviewCycles (fold_left (review_step pr sorted) sorted (initial_locals pr)).
Proof.
  unfold reconstruct.
  now rewrite merge_block_cycles, approval_block_cycles, comments_fixed_block_cycles.
Qed.

(** What one round of the loop does to the list of cycles. *)
Lemma review_step_cycles pr sorted l review :
  l_reviewCycles (review_step pr sorted l review)
  = l_reviewCycles l
    ++ (if state_eqb (review_state review) changes_requested
        then [ {| cycle_number := S (l_currentCycle l);
                  changes_requested_at := submitted_at review;
                  changes_addressed_at :=
                    findChangesAddressedTime pr (submitted_at review) sorted;
                  duration_days :=
                    match findChangesAddressedTime pr (submitted_at review) sorted with
                    | Some t => if truthy t
                                then calculateDaysDiff (submitted_at review) t
                                else 0%float
                    | None => 0%float
                    end;
                  reviewer := reviewer_username review |} ]
        else []).
Proof.
  unfold review_step.
  destruct (l_firstReviewFound l); cbn [negb];
    destruct (review_state review); cbn [state_eqb];
    try (cbn; now rewrite app_nil_r);
    destruct (findChangesAddressedTime pr (submitted_at review) sorted) as [t|];
    try destruct (truthy t); reflexivity.
Qed.

(** C1, as stated, fails: a merged pull request that nobody reviewed gets a
    second stage, [merged]. *)
Lemma unreviewed_merged_pr_has_two_stages :
  let pr := sample_pr "2024-01-01T00:00:00Z" "2024-01-02T00:00:00Z"
              (Some (str "2024-01-02T00:00:00Z")) status_merged in
  let r := fst (calculateEnhancedPRTimeline (str "2024-02-01T00:00:00.000Z")
                  (str "2024-02-01T00:00:00.000Z") pr [] []) in
  map stage (stages r) = [s_pr_raised; s_merged] /\ length (stages r) <> 1.
Proof. vm_compute. split; [reflexivity | discriminate]. Qed.

(** C1, amended. For every PR with zero reviews and zero comments,
    reconstruction yields the [pr_raised] stage at the PR's creation
    timestamp, followed by a [merged] stage exactly when the PR has a merge
    timestamp (so exactly one stage when it has none), and [is_completed]
    equals (status != open). *)
Theorem timeline_without_reviews :
  forall (now1 now2 : jsstring) (pr : PullRequest),
    let r := fst (calculateEnhancedPRTimeline now1 now2 pr [] []) in
    stages r
    = mkStage s_pr_raised (created_at pr) None
      :: match merged_at pr with
         | Some mergedAt =>
             if truthy mergedAt
             then [mkStage s_merged mergedAt
                     (Some (calculateDaysDiff (created_at pr) mergedAt))]
             else []
         | None => []
         end
    /\ (truthy_opt (merged_at pr) = false
        <-> stages r = [mkStage s_pr_raised (created_at pr) None])
    /\ is_completed r = negb (status_eqb (status pr) status_open).
Proof.
  intros now1 now2 pr r. subst r.
  unfold calculateEnhancedPRTimeline. cbn [fst stages is_completed Array_sort].
  unfold reconstruct. cbn [fold_left].
  assert (Hcf : comments_fixed_block pr (initial_locals pr) = initial_locals pr)
    by reflexivity.
  rewrite Hcf.
  assert (Hap : approval_block pr (initial_locals pr) = initial_locals pr)
    by reflexivity.
  rewrite Hap.
  unfold merge_block.
  split; [|split].
  - destruct (merged_at pr) as [t|]; [|reflexivity].
    destruct (truthy t); reflexivity.
  - destruct (merged_at pr) as [t|]; cbn; [|tauto].
    destruct (truthy t); cbn; [|tauto].
    split; intro H; discriminate.
  - destruct (status pr); reflexivity.
Qed.

(** C2. Scenario B: a PR created 2024-01-01, reviewed with changes requested
    on 2024-01-02, a comment on 2024-01-05 and an approval on 2024-01-06, and
    merged on 2024-01-07, has exactly one review cycle, of 3.0 days; its
    stages are [pr_raised], [first_review], [comments_fixed] at 2024-01-05,
    [approved] at 2024-01-06 and [merged] at 2024-01-07; and
    [approved_to_merged] is 1.0. *)
Theorem scenario_B :
  forall (now1 now2 title author updated : jsstring) (st : PRStatus)
         (who1 who2 who3 : jsstring),
    let pr := mkPullRequest 1 42 title author (str "2024-01-01") updated
                (Some (str "2024-01-07")) st 0 in
    let prReviews :=
      [ mkReview 1 42 who1 changes_requested (str "2024-01-02") false None;
        mkReview 2 42 who2 commented (str "2024-01-05") false None;
        mkReview 3 42 who3 approved (str "2024-01-06") true None ] in
    let r := fst (calculateEnhancedPRTimeline now1 now2 pr prReviews []) in
    map (fun c => (cycle_number c, changes_requested_at c,
                   changes_addressed_at c, duration_days c))
        (review_cycles r)
    = [(1, str "2024-01-02", Some (str "2024-01-05"), 3%float)]
    /\ map (fun s => (stage s, timestamp s)) (stages r)
       = [ (s_pr_raised, str "2024-01-01"); (s_first_review, str "2024-01-02");
           (s_comments_fixed, str "2024-01-05"); (s_approved, str "2024-01-06");
           (s_merged, str "2024-01-07") ]
    /\ approved_to_merged (stage_durations r) = 1%float.
Proof.
  intros. vm_compute. repeat split.
Qed.

(** C10. In every review cycle that reconstruction produces, a null
    [changes_addressed_at] goes with a [duration_days] of 0; the
    validator's long-cycle test (more than 14 days) is therefore false for
    an unresolved cycle, and its loop leaves issues and confidence as they
    were for it. *)
Theorem unresolved_cycle_has_zero_duration :
  forall (now1 now2 : jsstring) (pr : PullRequest) (prReviews : list Review)
         (prComments : list Comment) (c : ReviewCycle),
    In c (review_cycles (fst (calculateEnhancedPRTimeline now1 now2 pr
                                prReviews prComments))) ->
    changes_addressed_at c = None ->
    duration_days c = 0%float
    /\ long_cycle c = false
    /\ forall v, check_cycle v c = v.
Proof.
  intros now1 now2 pr prReviews prComments c Hin Hnull.
  unfold calculateEnhancedPRTimeline in Hin. cbn [fst review_cycles] in Hin.
  rewrite reconstruct_cycles in Hin.
  set (sorted := Array_sort compareBySubmittedAt prReviews) in *.
  assert (Hinv : Forall (fun c => changes_addressed_at c = None ->
                                  duration_days c = 0%float)
                   (l_reviewCycles (fold_left (review_step pr sorted) sorted
                                      (initial_locals pr)))).
  { apply fold_left_invariant.
    - intros l review _ Hl. rewrite review_step_cycles.
      apply Forall_app; split; [exact Hl|].
      destruct (state_eqb _ _); constructor; [|constructor].
      cbn. intros ->. reflexivity.
    - constructor. }
  rewrite Forall_forall in Hinv. specialize (Hinv c Hin Hnull).
  assert (Hlong : long_cycle c = false).
  { unfold long_cycle. rewrite Hinv. reflexivity. }
  repeat split; [exact Hinv | exact Hlong |].
  intro v. unfold check_cycle. now rewrite Hlong.
Qed.

Lemma unresolved_cycle_has_zero_duration_witness :
  let pr := sample_pr "2024-01-01T00:00:00Z" "2024-01-01T00:00:00Z" None status_open in
  let c := mkCycle 1 (str "2024-01-02T00:00:00Z") None 0 (str "rev") in
  duration_days c = 0%float /\ long_cycle c = false /\ forall v, check_cycle v c = v.
Proof.
  intros pr c.
  apply (unresolved_cycle_has_zero_duration
           (str "2024-02-01T00:00:00.000Z") (str "2024-02-01T00:00:00.000Z") pr
           [sample_review "rev" changes_requested "2024-01-02T00:00:00Z"] [] c).
  - vm_compute. left. reflexivity.
  - reflexivity.
Defined.

(* ================================================================= *)
(** ** Timeline validator *)

(** *** The clamp [Math.max(0, Math.min(1, x))] *)

Lemma clamp01_cases (x : float) :
  Math_max 0 (Math_min 1 x) =
  if is_nan x then nan
  else if (1 <? x)%float then 1%float
  else if (0 <? x)%float then x else 0%float.
Proof.
  unfold Math_min.
  change (is_nan 1) with false. change (get_sign 1) with false.
  cbn [orb].
  destruct (is_nan x) eqn:Hn; [reflexivity|].
  destruct (1 <? x)%float eqn:H1; [reflexivity|].
  assert (Hm : (if (x <? 1)%float then x else x) = x)
    by (destruct (x <? 1)%float; reflexivity).
  rewrite Hm. unfold Math_max.
  change (is_nan 0) with false. change (get_sign 0) with false. cbn [orb].
  rewrite Hn.
  destruct (0 <? x)%float; [reflexivity|].
  destruct (x <? 0)%float; reflexivity.
Qed.

Lemma SFcompare_refl (f : spec_float) :
  f <> S754_nan -> SFcompare f f = Some Eq.
Proof.
  destruct f as [s|s| |s m e]; intro H; unfold SFcompare;
    try reflexivity; try congruence.
  - destruct s; reflexivity.
  - rewrite Z.compare_refl.
    change (PosDef.Pos.compare_cont Eq m m) with (Pos.compare_cont Eq m m).
    rewrite Pos.compare_cont_refl. destruct s; reflexivity.
Qed.

Lemma is_nan_Prim2SF (x : float) :
  is_nan x = true <-> Prim2SF x = S754_nan.
Proof.
  unfold is_nan. rewrite FloatAxioms.eqb_spec. unfold SFeqb. split.
  - intro H. destruct (Prim2SF x) eqn:E; try reflexivity;
      rewrite SFcompare_refl in H by discriminate; discriminate.
  - intros ->. reflexivity.
Qed.

Lemma is_nan_false_Prim2SF (x : float) :
  is_nan x = false -> Prim2SF x <> S754_nan.
Proof.
  intros H E. apply is_nan_Prim2SF in E. congruence.
Qed.

(** Order facts on specification floats, for a positive finite bound. *)
Lemma SF_between (f : spec_float) (m1 : positive) (e1 : Z) :
  f <> S754_nan ->
  SFltb (S754_finite false m1 e1) f = false ->
  SFltb (S754_zero false) f = true ->
  SFleb (S754_zero false) f = true /\ SFleb f (S754_finite false m1 e1) = true.
Proof.
  intros Hn H1 H0. unfold SFltb, SFleb, SFcompare in *.
  destruct f as [s|s| |s m e]; [discriminate| | congruence |].
  - destruct s; discriminate.
  - destruct s; [discriminate|]. split; [reflexivity|].
    change (PosDef.Pos.compare_cont Eq m m1) with (Pos.compare m m1).
    change (PosDef.Pos.compare_cont Eq m1 m) with (Pos.compare m1 m) in H1.
    rewrite (Z.compare_antisym e e1) in H1.
    rewrite (Pos.compare_antisym m m1) in H1.
    destruct (e ?= e1)%Z; cbn [CompOpp] in H1; try reflexivity; try discriminate.
    destruct (Pos.compare m m1); cbn [CompOpp] in H1; try reflexivity; discriminate.
Qed.

Lemma SF_above_bound (f : spec_float) (mt m1 : positive) (et e1 : Z) :
  (et < e1)%Z ->
  SFltb (S754_finite false m1 e1) f = true ->
  SFleb (S754_finite false mt et) f = true.
Proof.
  intros Hlt H1. unfold SFltb, SFleb, SFcompare in *.
  destruct f as [s|s| |s m e]; [discriminate| | discriminate |].
  - destruct s; [discriminate | reflexivity].
  - destruct s; [discriminate|].
    assert (Hc : (et ?= e)%Z = Lt).
    { apply Z.compare_lt_iff.
      destruct (Z.compare_spec e1 e); try discriminate; lia. }
    rewrite Hc. reflexivity.
Qed.

Lemma SF_not_above_zero (f : spec_float) (mt : positive) (et : Z) :
  f <> S754_nan ->
  SFltb (S754_zero false) f = false ->
  SFleb (S754_finite false mt et) f = false.
Proof.
  intros Hn H0. unfold SFltb, SFleb, SFcompare in *.
  destruct f as [s|s| |s m e]; [reflexivity| | congruence |];
    destruct s; try discriminate; reflexivity.
Qed.

(** A number above 0 and not above 1 lies in [0, 1]. *)
Lemma between_0_and_1 (x : float) :
  is_nan x = false -> (1 <? x)%float = false -> (0 <? x)%float = true ->
  (0 <=? x)%float = true /\ (x <=? 1)%float = true.
Proof.
  intros Hn H1 H0. apply is_nan_false_Prim2SF in Hn.
  rewrite FloatAxioms.ltb_spec in H1, H0. rewrite !FloatAxioms.leb_spec.
  change (Prim2SF 0) with (S754_zero false) in *.
  change (Prim2SF 1) with (S754_finite false 4503599627370496 (-52)) in *.
  now apply SF_between.
Qed.

(** A threshold in (0, 1) sees no difference between a number and its
    clamp. *)
Lemma leb_clamp01 (t : float) (mt : positive) (x : float) :
  Prim2SF t = S754_finite false mt (-53) ->
  (t <=? Math_max 0 (Math_min 1 x))%float = (t <=? x)%float.
Proof.
  intros Ht. rewrite clamp01_cases.
  destruct (is_nan x) eqn:Hn.
  - apply is_nan_Prim2SF in Hn. rewrite !FloatAxioms.leb_spec, Hn, Ht. reflexivity.
  - apply is_nan_false_Prim2SF in Hn.
    destruct (1 <? x)%float eqn:H1.
    + rewrite FloatAxioms.ltb_spec in H1. rewrite !FloatAxioms.leb_spec, Ht.
      change (Prim2SF 1) with (S754_finite false 4503599627370496 (-52)) in *.
      rewrite (SF_above_bound (Prim2SF x) mt 4503599627370496 (-53) (-52) eq_refl H1).
      reflexivity.
    + destruct (0 <? x)%float eqn:H0; [reflexivity|].
      rewrite FloatAxioms.ltb_spec in H0. rewrite !FloatAxioms.leb_spec, Ht.
      change (Prim2SF 0) with (S754_zero false) in *.
      rewrite (SF_not_above_zero _ mt (-53) Hn H0).
      reflexivity.
Qed.

(** The clamp of a number is within [0, 1]; the clamp of NaN is NaN. *)
Lemma clamp01_range (x : float) :
  is_nan x = true
  \/ (0 <=? Math_max 0 (Math_min 1 x))%float = true
     /\ (Math_max 0 (Math_min 1 x) <=? 1)%float = true.
Proof.
  rewrite clamp01_cases.
  destruct (is_nan x) eqn:Hn; [now left | right].
  destruct (1 <? x)%float eqn:H1; [split; reflexivity|].
  destruct (0 <? x)%float eqn:H0; [|split; reflexivity].
  now apply between_0_and_1.
Qed.

Lemma charged_nil v : charged v v [].
Proof.
  split; [exists []; split; [now rewrite app_nil_r | reflexivity] | reflexivity].
Qed.

Lemma charged_flag v i p : charged v (flag i p v) [p].
Proof.
  split; [exists [i]; split; reflexivity | reflexivity].
Qed.

Lemma charged_trans v1 v2 v3 ps qs :
  charged v1 v2 ps -> charged v2 v3 qs -> charged v1 v3 (ps ++ qs).
Proof.
  intros [[n1 [E1 L1]] C1] [[n2 [E2 L2]] C2]. split.
  - exists (n1 ++ n2). rewrite E2, E1, <- app_assoc, !length_app. split; [reflexivity | lia].
  - unfold subtract_all in *. now rewrite fold_left_app, <- C1, <- C2.
Qed.

Lemma check_order_charged stages :
  forall v, charged v (check_order stages v) (order_penalties stages).
Proof.
  induction stages as [|prev rest IH]; intro v; [apply charged_nil|].
  destruct rest as [|curr rest']; [apply charged_nil|].
  change (check_order (prev :: curr :: rest') v)
    with (check_order (curr :: rest')
            (if out_of_order prev curr
             then flag (StageOccursBefore (stage curr) (stage prev)) 0.3 v
             else v)).
  change (order_penalties (prev :: curr :: rest'))
    with ((if Date_lt (timestamp curr) (timestamp prev) then [0.3%float] else [])
          ++ order_penalties (curr :: rest')).
  eapply charged_trans; [|apply IH].
  unfold out_of_order.
  destruct (Date_lt (timestamp curr) (timestamp prev));
    [apply charged_flag | apply charged_nil].
Qed.

(** A number below 0 or above 30 is truthy: the truthiness test in front of
    each duration comparison of [validateTimeline] changes nothing. *)
Lemma SF_compared_truthy (f g : spec_float) :
  SFltb f g = true ->
  SFeqb f f = true /\ SFeqb g g = true
  /\ SFeqb f g = false /\ SFeqb g f = false.
Proof.
  unfold SFltb, SFeqb. intro H.
  assert (Hf : f <> S754_nan) by (intros ->; discriminate).
  assert (Hg : g <> S754_nan) by (intros ->; destruct f; discriminate).
  rewrite !SFcompare_refl by assumption.
  repeat split.
  - destruct (SFcompare f g) as [[]|]; congruence.
  - destruct f as [s|s| |s m e], g as [s'|s'| |s' m' e']; try congruence;
      unfold SFcompare in *; try (destruct s; try destruct s'; congruence).
    change (PosDef.Pos.compare_cont Eq m' m) with (Pos.compare m' m).
    change (PosDef.Pos.compare_cont Eq m m') with (Pos.compare m m') in H.
    rewrite (Z.compare_antisym e e'), (Pos.compare_antisym m m').
    destruct s, s'; try congruence;
      destruct (e ?= e')%Z; cbn [CompOpp] in *; try congruence;
      destruct (Pos.compare m m'); cbn [CompOpp] in *; congruence.
Qed.

Lemma compared_truthy (a b : float) :
  (a <? b)%float = true ->
  truthy_num (Some a) = negb (PrimFloat.is_zero a)
  /\ truthy_num (Some b) = negb (PrimFloat.is_zero b)
  /\ (a =? b)%float = false /\ (b =? a)%float = false.
Proof.
  rewrite FloatAxioms.ltb_spec. intro H.
  destruct (SF_compared_truthy _ _ H) as (Ha & Hb & Hab & Hba).
  unfold truthy_num, is_nan. rewrite !FloatAxioms.eqb_spec, Ha, Hb.
  cbn [negb]. rewrite !orb_false_r. now repeat split.
Qed.

Lemma negative_duration_spec (s : PRTimelineStage) :
  negative_duration s = has_negative_duration s.
Proof.
  unfold negative_duration, has_negative_duration.
  destruct (duration_from_previous s) as [d|]; [|reflexivity].
  destruct (d <? 0)%float eqn:E; [|apply andb_false_r].
  destruct (compared_truthy d 0 E) as (-> & _ & Hne & _).
  unfold PrimFloat.is_zero. change zero with 0%float. now rewrite Hne.
Qed.

Lemma long_duration_spec (s : PRTimelineStage) :
  long_duration s = has_long_duration s.
Proof.
  unfold long_duration, has_long_duration.
  destruct (duration_from_previous s) as [d|]; [|reflexivity].
  destruct (30 <? d)%float eqn:E; [|apply andb_false_r].
  destruct (compared_truthy 30 d E) as (_ & -> & _ & Hne).
  unfold PrimFloat.is_zero. change zero with 0%float.
  assert (Hz : (d =? 0)%float = false).
  { rewrite FloatAxioms.ltb_spec in E. rewrite FloatAxioms.eqb_spec.
    change (Prim2SF 30) with (S754_finite false 8444249301319680 (-48)) in E.
    change (Prim2SF 0) with (S754_zero false).
    unfold SFltb, SFeqb, SFcompare in *.
    destruct (Prim2SF d) as [s'|s'| |s' m' e']; try discriminate;
      destruct s'; try discriminate; reflexivity. }
  now rewrite Hz.
Qed.

Lemma check_duration_charged v s :
  charged v (check_duration v s)
    ((if has_negative_duration s then [0.2%float] else [])
     ++ (if has_long_duration s then [0.1%float] else [])).
Proof.
  rewrite <- negative_duration_spec, <- long_duration_spec.
  unfold check_duration.
  eapply charged_trans with
    (v2 := if negative_duration s then flag (NegativeDuration (stage s)) 0.2 v else v).
  - destruct (negative_duration s); [apply charged_flag | apply charged_nil].
  - destruct (long_duration s); [apply charged_flag | apply charged_nil].
Qed.

Lemma check_durations_charged stages :
  forall v, charged v (fold_left check_duration stages v) (duration_penalties stages).
Proof.
  induction stages as [|s rest IH]; intro v; [apply charged_nil|].
  cbn [fold_left]. unfold duration_penalties. cbn [flat_map].
  eapply charged_trans; [apply check_duration_charged | apply IH].
Qed.

Lemma check_cycles_charged cycles :
  forall v, charged v (fold_left check_cycle cycles v) (cycle_penalties cycles).
Proof.
  induction cycles as [|c rest IH]; intro v; [apply charged_nil|].
  cbn [fold_left]. unfold cycle_penalties. cbn [flat_map].
  eapply charged_trans; [|apply IH].
  unfold check_cycle, long_cycle.
  destruct (14 <? duration_days c)%float; [apply charged_flag | apply charged_nil].
Qed.

(** *** Subtracting penalties never turns a number into NaN *)

Local Open Scope Z_scope.

Lemma shr_1_nonneg (mrs : shr_record) : 0 <= shr_m mrs -> 0 <= shr_m (shr_1 mrs).
Proof.
  destruct mrs as [m r s]. cbn [shr_m]. intro H. unfold shr_1.
  destruct m as [|p|p]; [cbn; lia | | lia].
  destruct p; cbn [shr_m]; lia.
Qed.

Lemma iter_shr_1_nonneg (p : positive) :
  forall mrs, 0 <= shr_m mrs -> 0 <= shr_m (iter_pos shr_1 p mrs).
Proof.
  induction p as [p IH|p IH|]; intros mrs H; cbn [iter_pos].
  - apply IH, IH, shr_1_nonneg, H.
  - apply IH, IH, H.
  - apply shr_1_nonneg, H.
Qed.

Lemma shr_fexp_nonneg (prec emax m e : Z) (l : location) :
  0 <= m -> 0 <= shr_m (fst (shr_fexp prec emax m e l)).
Proof.
  intro H. unfold shr_fexp, shr.
  assert (H0 : 0 <= shr_m (shr_record_of_loc m l)).
  { destruct l as [|[]]; exact H. }
  destruct (fexp prec emax (Zdigits2 m + e) - e); cbn [fst]; try exact H0.
  now apply iter_shr_1_nonneg.
Qed.

Lemma round_nearest_even_nonneg (m : Z) (l : location) :
  0 <= m -> 0 <= round_nearest_even m l.
Proof.
  intro H. unfold round_nearest_even.
  destruct l as [|[]]; try lia. destruct (Z.even m); lia.
Qed.

Lemma binary_round_aux_not_nan (prec emax : Z) (sx : bool) (mx ex : Z) (lx : location) :
  0 <= mx -> binary_round_aux prec emax sx mx ex lx <> S754_nan.
Proof.
  intro H. unfold binary_round_aux.
  pose proof (shr_fexp_nonneg prec emax mx ex lx H) as H1.
  destruct (shr_fexp prec emax mx ex lx) as [mrs' e']. cbn [fst] in H1.
  pose proof (shr_fexp_nonneg prec emax
                (round_nearest_even (shr_m mrs') (loc_of_shr_record mrs')) e'
                loc_Exact (round_nearest_even_nonneg _ _ H1)) as H2.
  destruct (shr_fexp prec emax _ e' loc_Exact) as [mrs'' e'']. cbn [fst] in H2.
  destruct (shr_m mrs'') as [|p|p]; [discriminate | | lia].
  destruct (e'' <=? emax - prec); discriminate.
Qed.

Lemma binary_normalize_not_nan (prec emax m e : Z) (szero : bool) :
  binary_normalize prec emax m e szero <> S754_nan.
Proof.
  unfold binary_normalize, binary_round.
  destruct m as [|p|p]; [discriminate | |];
    destruct (shl_align _ _ _) as [mz ez];
    apply binary_round_aux_not_nan; lia.
Qed.

(** Subtracting a finite number from a number gives a number. *)
Lemma SFsub_not_nan (prec emax : Z) (f : spec_float) (s : bool) (m : positive) (e : Z) :
  f <> S754_nan -> SFsub prec emax f (S754_finite s m e) <> S754_nan.
Proof.
  intro Hf. unfold SFsub.
  destruct f as [sf|sf| |sf mf ef]; try discriminate; try congruence.
  apply binary_normalize_not_nan.
Qed.

Lemma sub_finite_is_nan (x p : float) (s : bool) (m : positive) (e : Z) :
  Prim2SF p = S754_finite s m e ->
  is_nan (x - p)%float = is_nan x.
Proof.
  intro Hp. destruct (is_nan x) eqn:Hx.
  - apply is_nan_Prim2SF in Hx. apply is_nan_Prim2SF.
    rewrite FloatAxioms.sub_spec, Hx. reflexivity.
  - apply is_nan_false_Prim2SF in Hx.
    destruct (is_nan (x - p)%float) eqn:Hr; [|reflexivity].
    apply is_nan_Prim2SF in Hr. rewrite FloatAxioms.sub_spec, Hp in Hr.
    exfalso. revert Hr. now apply SFsub_not_nan.
Qed.

Lemma subtract_all_is_nan (ps : list float) :
  Forall finite_number ps ->
  forall c, is_nan (subtract_all c ps) = is_nan c.
Proof.
  induction 1 as [|p ps (s & m & e & Hp) _ IH]; intro c; [reflexivity|].
  cbn [subtract_all fold_left]. fold (subtract_all (c - p)%float ps).
  rewrite IH. now apply (sub_finite_is_nan c p s m e).
Qed.

Lemma penalties_finite (stages : list PRTimelineStage)
    (reviewCycles : list ReviewCycle) :
  Forall finite_number (penalties stages reviewCycles).
Proof.
  assert (H03 : finite_number 0.3) by (do 3 eexists; reflexivity).
  assert (H02 : finite_number 0.2) by (do 3 eexists; reflexivity).
  assert (H01 : finite_number 0.1) by (do 3 eexists; reflexivity).
  assert (H005 : finite_number 0.05) by (do 3 eexists; reflexivity).
  unfold penalties. rewrite !Forall_app. repeat split.
  - induction stages as [|prev rest IH]; [constructor|].
    destruct rest as [|curr rest']; [constructor|].
    change (order_penalties (prev :: curr :: rest'))
      with ((if Date_lt (timestamp curr) (timestamp prev) then [0.3%float] else [])
            ++ order_penalties (curr :: rest')).
    apply Forall_app. split; [|exact IH].
    destruct (Date_lt (timestamp curr) (timestamp prev));
      repeat constructor; assumption.
  - unfold duration_penalties. apply Forall_flat_map.
    apply Forall_forall. intros st _. apply Forall_app. split.
    + destruct (has_negative_duration st); repeat constructor; assumption.
    + destruct (has_long_duration st); repeat constructor; assumption.
  - unfold cycle_penalties. apply Forall_flat_map.
    apply Forall_forall. intros c _.
    destruct (14 <? duration_days c)%float; repeat constructor; assumption.
Qed.

Local Open Scope nat_scope.

(** The record [validateTimeline] returns, in terms of the penalties. *)
Lemma validateTimeline_summary (stages : list PRTimelineStage)
    (events : list TimelineEvent) (reviewCycles : list ReviewCycle)
    (priorIssues : list Issue) (prior : float) :
  exists new,
    length new = length (penalties stages reviewCycles)
    /\ validateTimeline stages events reviewCycles priorIssues prior
       = let confidence := subtract_all prior (penalties stages reviewCycles) in
         mkValidation
           (validity_gate confidence (length (priorIssues ++ new)))
           (Math_max 0 (Math_min 1 confidence))
           (priorIssues ++ new)
           (quality_tier confidence (length (priorIssues ++ new))).
Proof.
  set (v3 := fold_left check_cycle reviewCycles
               (fold_left check_duration stages
                  (check_order stages (mkVState priorIssues prior)))).
  assert (Hc : charged (mkVState priorIssues prior) v3
                 (penalties stages reviewCycles)).
  { unfold penalties.
    eapply charged_trans; [apply check_order_charged|].
    eapply charged_trans; [apply check_durations_charged|].
    apply check_cycles_charged. }
  destruct Hc as [[new [Hnew Hlen]] Hconf]. cbn in Hnew, Hconf.
  exists new. split; [exact Hlen|].
  cbn zeta. rewrite <- Hnew, <- Hconf. reflexivity.
Qed.

(** C3. [validateTimeline] adds one issue per finding to the prior issues
    and subtracts from the prior confidence 0.3 per adjacent stage pair whose
    later timestamp precedes the earlier, 0.2 per stage with a negative
    duration, 0.1 per stage with a duration above 30 days and 0.05 per review
    cycle above 14 days; the confidence it returns is that value clamped to
    [0, 1]; the quality tier is high when the confidence is at least 0.8 with
    no issue, else medium when it is at least 0.6 with at most 2 issues, else
    low; and the result is valid exactly when the confidence is at least 0.5
    with fewer than 5 issues. Tier and validity come out the same whether
    the confidence is read before or after the clamp. (A prior confidence
    that is NaN stays NaN; any other ends within [0, 1].) *)
Theorem validateTimeline_spec :
  forall (stages : list PRTimelineStage) (events : list TimelineEvent)
         (reviewCycles : list ReviewCycle) (priorIssues : list Issue)
         (priorConfidenceScore : float),
    let v := validateTimeline stages events reviewCycles priorIssues
               priorConfidenceScore in
    let ps := penalties stages reviewCycles in
    let confidence := subtract_all priorConfidenceScore ps in
    let issue_count := length priorIssues + length ps in
    (exists new, issues v = priorIssues ++ new /\ length new = length ps)
    /\ length (issues v) = issue_count
    /\ confidence_score v = Math_max 0 (Math_min 1 confidence)
    /\ (if is_nan priorConfidenceScore
        then is_nan (confidence_score v) = true
        else (0 <=? confidence_score v)%float = true
             /\ (confidence_score v <=? 1)%float = true)
    /\ data_quality v = quality_tier confidence issue_count
    /\ data_quality v = quality_tier (confidence_score v) issue_count
    /\ is_valid v = validity_gate confidence issue_count
    /\ is_valid v = validity_gate (confidence_score v) issue_count.
Proof.
  intros stages events reviewCycles priorIssues prior v ps confidence issue_count.
  destruct (validateTimeline_summary stages events reviewCycles priorIssues prior)
    as (new & Hlen & Hv).
  fold ps in Hlen, Hv. cbn zeta in Hv. fold confidence in Hv.
  assert (Hcount : length (priorIssues ++ new) = issue_count).
  { rewrite length_app, Hlen. reflexivity. }
  rewrite Hcount in Hv. subst v. rewrite Hv.
  cbn [issues confidence_score data_quality is_valid].
  split; [exists new; split; [reflexivity | exact Hlen]|].
  split; [exact Hcount|]. split; [reflexivity|].
  split.
  { pose proof (subtract_all_is_nan ps (penalties_finite stages reviewCycles)
                  prior) as Hnan.
    fold confidence in Hnan.
    destruct (is_nan prior).
    - rewrite clamp01_cases, Hnan. reflexivity.
    - destruct (clamp01_range confidence) as [H|H]; [congruence | exact H]. }
  split; [reflexivity|].
  split.
  - unfold quality_tier.
    rewrite (leb_clamp01 0.8 7205759403792794) by reflexivity.
    rewrite (leb_clamp01 0.6 5404319552844595) by reflexivity.
    reflexivity.
  - split; [reflexivity|].
    unfold validity_gate.
    rewrite (leb_clamp01 0.5 4503599627370496) by reflexivity.
    reflexivity.
Qed.

(* ================================================================= *)
(** ** The in-place sort of the reviews *)

Lemma sort_insert_perm {A} (cmp : A -> A -> option Z) (x : A) (l : list A) :
  Permutation (x :: l) (sort_insert cmp x l).
Proof.
  induction l as [|y l IH]; cbn; [reflexivity|].
  destruct (SortCompare cmp x y <=? 0)%Z; [reflexivity|].
  rewrite perm_swap. now constructor.
Qed.

Lemma Array_sort_perm {A} (cmp : A -> A -> option Z) (l : list A) :
  Permutation l (Array_sort cmp l).
Proof.
  induction l as [|x l IH]; cbn; [constructor|].
  rewrite <- sort_insert_perm. now constructor.
Qed.

Lemma submitted_le_trans (a b c : Review) :
  submitted_le a b -> submitted_le b c -> submitted_le a c.
Proof.
  unfold submitted_le.
  destruct (Date_getTime (submitted_at a)), (Date_getTime (submitted_at b)),
    (Date_getTime (submitted_at c)); try tauto. lia.
Qed.

Lemma sort_insert_sorted (x : Review) (l : list Review) :
  parseable x -> Forall parseable l ->
  StronglySorted submitted_le l ->
  StronglySorted submitted_le (sort_insert compareBySubmittedAt x l).
Proof.
  intros Hx Hl Hs. induction Hs as [|y l Hs IH Hy]; cbn.
  - repeat constructor.
  - inversion Hl as [|? ? Hpy Hl']; subst.
    unfold SortCompare, compareBySubmittedAt, parseable in *.
    destruct (Date_getTime (submitted_at x)) as [tx|] eqn:Ex; [|congruence].
    destruct (Date_getTime (submitted_at y)) as [ty|] eqn:Ey; [|congruence].
    destruct (tx - ty <=? 0)%Z eqn:Hc.
    + apply Z.leb_le in Hc.
      assert (Hxy : submitted_le x y).
      { unfold submitted_le. rewrite Ex, Ey. lia. }
      constructor; [now constructor|].
      constructor; [exact Hxy|].
      eapply Forall_impl; [|exact Hy].
      intros z Hz. eapply submitted_le_trans; eassumption.
    + apply Z.leb_gt in Hc.
      constructor; [now apply IH|].
      eapply Permutation_Forall; [apply sort_insert_perm|].
      constructor; [|exact Hy].
      unfold submitted_le. rewrite Ex, Ey. lia.
Qed.

Lemma Array_sort_sorted (l : list Review) :
  Forall parseable l ->
  StronglySorted submitted_le (Array_sort compareBySubmittedAt l).
Proof.
  induction 1 as [|x l Hx Hl IH]; cbn; [constructor|].
  apply sort_insert_sorted; [exact Hx | | exact IH].
  eapply Permutation_Forall; [apply Array_sort_perm | exact Hl].
Qed.

(** C9. Reconstruction leaves the caller's [prReviews] array reordered: it
    holds the same reviews, and with parseable timestamps they stand in
    ascending order of [submitted_at], so the array differs from what was
    passed in whenever that was not already in ascending order. *)
Theorem prReviews_sorted_in_place :
  forall (now1 now2 : jsstring) (pr : PullRequest) (prReviews : list Review)
         (prComments : list Comment),
    let after := snd (calculateEnhancedPRTimeline now1 now2 pr prReviews
                        prComments) in
    after = Array_sort compareBySubmittedAt prReviews
    /\ Permutation prReviews after
    /\ (Forall parseable prReviews ->
        StronglySorted submitted_le after
        /\ (~ StronglySorted submitted_le prReviews -> after <> prReviews)).
Proof.
  intros now1 now2 pr prReviews prComments after. subst after.
  cbn [snd calculateEnhancedPRTimeline].
  split; [reflexivity|]. split; [apply Array_sort_perm|].
  intro Hp. pose proof (Array_sort_sorted prReviews Hp) as Hs.
  split; [exact Hs|].
  intros Hns Heq. apply Hns. now rewrite <- Heq.
Qed.

(** Two reviews handed over latest first come back earliest first. *)
Lemma prReviews_sorted_in_place_witness :
  let r1 := sample_review "rev" approved "2024-01-06T00:00:00Z" in
  let r2 := sample_review "rev" changes_requested "2024-01-02T00:00:00Z" in
  let pr := sample_pr "2024-01-01T00:00:00Z" "2024-01-06T00:00:00Z" None status_open in
  let after := snd (calculateEnhancedPRTimeline (str "2024-02-01T00:00:00.000Z")
                      (str "2024-02-01T00:00:00.000Z") pr [r1; r2] []) in
  after = [r2; r1] /\ after <> [r1; r2] /\ StronglySorted submitted_le after.
Proof.
  intros r1 r2 pr after.
  destruct (prReviews_sorted_in_place (str "2024-02-01T00:00:00.000Z")
              (str "2024-02-01T00:00:00.000Z") pr [r1; r2] [])
    as [Heq [_ Hsorted]].
  fold after in Heq, Hsorted.
  assert (Hp : Forall parseable [r1; r2]).
  { repeat constructor; vm_compute; discriminate. }
  destruct (Hsorted Hp) as [Hs Hne].
  split; [rewrite Heq; vm_compute; reflexivity|].
  split; [|exact Hs].
  apply Hne. intro H.
  inversion H as [|? ? _ Hall]; subst.
  inversion Hall as [|? ? Hle _]; subst.
  vm_compute in Hle. apply Hle. reflexivity.
Defined.

(* ================================================================= *)
(** ** What the review loop computes *)

Ltac locals_simpl :=
  cbn beta iota zeta delta
    [push_stage push_event push_issue push_cycle set_durations
     set_firstReviewFound open_cycle set_lastApprovalTime
     l_stages l_stageDurations l_events l_issues l_confidenceScore
     l_reviewCycles l_firstReviewFound l_currentCycle
     l_lastChangesRequestedTime l_lastApprovalTime negb state_eqb].

Ltac review_step_cases pr sorted l review :=
  unfold review_step;
  let E := fresh "Efound" in
  destruct (l_firstReviewFound l) eqn:E;
  destruct (review_state review);
  let t := fresh "t" in
  try (destruct (findChangesAddressedTime pr (submitted_at review) sorted) as [t|];
       [destruct (truthy t)|]);
  locals_simpl; rewrite ?E, ?app_nil_r; reflexivity.

Lemma review_step_stages pr sorted l review :
  l_stages (review_step pr sorted l review)
  = l_stages l ++ (if l_firstReviewFound l then []
                   else [first_review_stage pr review]).
Proof. review_step_cases pr sorted l review. Qed.

Lemma review_step_found pr sorted l review :
  l_firstReviewFound (review_step pr sorted l review) = true.
Proof. review_step_cases pr sorted l review. Qed.

Lemma review_step_count pr sorted l review :
  l_currentCycle (review_step pr sorted l review)
  = if state_eqb (review_state review) changes_requested
    then S (l_currentCycle l) else l_currentCycle l.
Proof. review_step_cases pr sorted l review. Qed.

Lemma review_step_requested pr sorted l review :
  l_lastChangesRequestedTime (review_step pr sorted l review)
  = if state_eqb (review_state review) changes_requested
    then Some (submitted_at review) else l_lastChangesRequestedTime l.
Proof. review_step_cases pr sorted l review. Qed.

Lemma review_step_approval pr sorted l review :
  l_lastApprovalTime (review_step pr sorted l review)
  = if state_eqb (review_state review) approved
    then Some (submitted_at review) else l_lastApprovalTime l.
Proof. review_step_cases pr sorted l review. Qed.

Lemma review_step_issues pr sorted l review :
  l_issues (review_step pr sorted l review) = l_issues l
  /\ l_confidenceScore (review_step pr sorted l review) = l_confidenceScore l.
Proof. split; review_step_cases pr sorted l review. Qed.

(** The loop over [rs], from any state [l]. *)
Lemma review_loop_summary pr sorted rs :
  forall l,
    let l' := fold_left (review_step pr sorted) rs l in
    l_stages l'
    = l_stages l ++ (if l_firstReviewFound l then []
                     else match rs with
                          | r0 :: _ => [first_review_stage pr r0]
                          | [] => []
                          end)
    /\ l_reviewCycles l'
       = l_reviewCycles l ++ cycles_from pr sorted (l_currentCycle l) rs
    /\ l_lastChangesRequestedTime l'
       = last_submitted changes_requested rs (l_lastChangesRequestedTime l)
    /\ l_lastApprovalTime l'
       = last_submitted approved rs (l_lastApprovalTime l)
    /\ l_issues l' = l_issues l
    /\ l_confidenceScore l' = l_confidenceScore l.
Proof.
  induction rs as [|r rest IH]; intro l; cbn zeta.
  - cbn. rewrite !app_nil_r. destruct (l_firstReviewFound l); cbn;
      rewrite ?app_nil_r; repeat split; reflexivity.
  - cbn [fold_left].
    specialize (IH (review_step pr sorted l r)). cbn zeta in IH.
    destruct IH as (Hs & Hc & Hr & Ha & Hi & Hf).
    rewrite Hs, Hc, Hr, Ha, Hi, Hf.
    rewrite review_step_stages, review_step_found, review_step_cycles,
      review_step_count, review_step_requested, review_step_approval.
    destruct (review_step_issues pr sorted l r) as [-> ->].
    cbn [last_submitted fold_left cycles_from].
    rewrite app_nil_r.
    repeat split; try reflexivity.
    destruct (state_eqb (review_state r) changes_requested); cbn.
    + now rewrite <- app_assoc.
    + now rewrite app_nil_r.
Qed.

(** The state after the loop of a whole reconstruction. *)
Lemma review_loop_result pr sorted :
  let l' := fold_left (review_step pr sorted) sorted (initial_locals pr) in
  l_stages l'
  = mkStage s_pr_raised (created_at pr) None
    :: match sorted with
       | r0 :: _ => [first_review_stage pr r0]
       | [] => []
       end
  /\ l_reviewCycles l' = cycles_from pr sorted 0 sorted
  /\ l_lastChangesRequestedTime l' = last_submitted changes_requested sorted None
  /\ l_lastApprovalTime l' = last_submitted approved sorted None
  /\ l_issues l' = []
  /\ l_confidenceScore l' = 1%float.
Proof.
  exact (review_loop_summary pr sorted sorted (initial_locals pr)).
Qed.

(* ================================================================= *)
(** ** What the stage blocks push *)

Lemma comments_fixed_block_stages pr l :
  l_stages (comments_fixed_block pr l) = l_stages l
  \/ exists c t,
      In c (l_reviewCycles l)
      /\ changes_addressed_at c = Some t
      /\ l_stages (comments_fixed_block pr l)
         = l_stages l
           ++ [mkStage s_comments_fixed t
                 (Some (calculateDaysDiff
                          (baseTime pr (l_stages l) s_comments_fixed) t))].
Proof.
  unfold comments_fixed_block.
  destruct (truthy_opt _ && _); [|now left].
  destruct (nth_error _ _) as [c|] eqn:Hnth; [|now left].
  destruct (changes_addressed_at c) as [t|] eqn:Hc; [|now left].
  destruct (truthy t); [|now left].
  right. exists c, t. split; [eapply nth_error_In; eassumption|].
  split; [exact Hc | reflexivity].
Qed.

Lemma nth_error_last {A} (l : list A) (x : A) :
  nth_error (l ++ [x]) (length (l ++ [x]) - 1) = Some x.
Proof.
  rewrite length_app. cbn [length].
  replace (length l + 1 - 1) with (length l) by lia.
  rewrite nth_error_app2 by lia. now rewrite Nat.sub_diag.
Qed.

Lemma comments_fixed_block_unresolved pr l requested cs c :
  l_lastChangesRequestedTime l = Some requested ->
  requested <> [] ->
  l_reviewCycles l = cs ++ [c] ->
  changes_addressed_at c = None ->
  comments_fixed_block pr l = push_issue unresolved_message 0.2 l.
Proof.
  intros Hreq Hne Hcycles Hnull. unfold comments_fixed_block.
  rewrite Hreq, Hcycles, nth_error_last, Hnull.
  destruct requested as [|x requested']; [congruence|].
  rewrite length_app. cbn [truthy_opt truthy length].
  replace (Nat.ltb 0 (length cs + 1)) with true; [reflexivity|].
  symmetry. apply Nat.ltb_lt. lia.
Qed.

Lemma approval_block_stages pr l :
  pushed pr s_approved (l_stages l) (l_stages (approval_block pr l)).
Proof.
  unfold approval_block, pushed.
  destruct (l_lastApprovalTime l) as [t|]; [|now left].
  destruct (truthy t); [|now left].
  cbn [set_durations l_stages].
  destruct (negb _); [|now left].
  right. exists t. reflexivity.
Qed.

Lemma approval_block_issues pr l :
  l_issues (approval_block pr l) = l_issues l
  /\ l_confidenceScore (approval_block pr l) = l_confidenceScore l.
Proof.
  unfold approval_block.
  destruct (l_lastApprovalTime l) as [t|]; [|now split].
  destruct (truthy t); [|now split].
  destruct (negb _); now split.
Qed.

Lemma merge_block_stages pr l :
  pushed pr s_merged (l_stages l) (l_stages (merge_block pr l)).
Proof.
  unfold merge_block, pushed.
  destruct (merged_at pr) as [t|]; [|now left].
  destruct (truthy t); [|now left].
  right. exists t. reflexivity.
Qed.

Lemma merge_block_issues pr l :
  l_issues (merge_block pr l) = l_issues l
  /\ l_confidenceScore (merge_block pr l) = l_confidenceScore l.
Proof.
  unfold merge_block.
  destruct (merged_at pr) as [t|]; [|now split].
  destruct (truthy t); now split.
Qed.

(** A list that ends in [x], cut at one of its elements. *)
Lemma split_snoc {A} (L pre post : list A) (x s : A) :
  L ++ [x] = pre ++ s :: post ->
  (post = [] /\ pre = L /\ s = x)
  \/ exists post', post = post' ++ [x] /\ L = pre ++ s :: post'.
Proof.
  intro H. destruct (exists_last (l := s :: post)) as [front [z Hz]];
    [discriminate|].
  destruct post as [|p post'].
  - left. change (pre ++ [s]) with (pre ++ [s]) in H.
    apply app_inj_tail in H. destruct H as [-> ->]. now repeat split.
  - right.
    destruct (exists_last (l := p :: post')) as [post'' [y Hy]]; [discriminate|].
    rewrite Hy in H.
    change (pre ++ s :: post'' ++ [y]) with (pre ++ (s :: post'') ++ [y]) in H.
    rewrite app_assoc in H. apply app_inj_tail in H. destruct H as [-> ->].
    exists post''. split; [exact Hy | reflexivity].
Qed.

(** *** Every duration is counted from the base time of its stage *)

Lemma anchored_push pr name L t :
  name <> s_pr_raised ->
  anchored pr L ->
  anchored pr (L ++ [mkStage name t
                       (Some (calculateDaysDiff (baseTime pr L name) t))]).
Proof.
  intros Hname HL pre s post Hsplit.
  apply split_snoc in Hsplit.
  destruct Hsplit as [(-> & -> & ->) | (post' & -> & HLeq)].
  - cbn [duration_from_previous stage timestamp].
    destruct name; [congruence | reflexivity ..].
  - eapply HL. exact HLeq.
Qed.

Lemma anchored_pushed pr name L L' :
  name <> s_pr_raised -> pushed pr name L L' -> anchored pr L -> anchored pr L'.
Proof.
  intros Hname [-> | [t ->]] HL; [exact HL | now apply anchored_push].
Qed.

Lemma anchored_initial pr : anchored pr [mkStage s_pr_raised (created_at pr) None].
Proof.
  intros pre s post H.
  destruct pre as [|p pre'].
  - injection H as <- _. reflexivity.
  - destruct pre'; discriminate.
Qed.

Lemma anchored_after_loop pr sorted :
  anchored pr (l_stages (fold_left (review_step pr sorted) sorted
                           (initial_locals pr))).
Proof.
  destruct (review_loop_result pr sorted) as (-> & _).
  destruct sorted as [|r0 rest]; [apply anchored_initial|].
  apply (anchored_push pr s_first_review
           [mkStage s_pr_raised (created_at pr) None] (submitted_at r0));
    [discriminate | apply anchored_initial].
Qed.

(** In the stages of a reconstruction, [pr_raised] carries no duration and
    every other stage carries the days from the base time of its block, as
    the stages before it determine it, to its own timestamp. *)
Lemma reconstruct_anchored pr sorted :
  anchored pr (l_stages (reconstruct pr sorted)).
Proof.
  unfold reconstruct.
  eapply anchored_pushed; [|apply merge_block_stages|]; [discriminate|].
  eapply anchored_pushed; [|apply approval_block_stages|]; [discriminate|].
  destruct (comments_fixed_block_stages pr
              (fold_left (review_step pr sorted) sorted (initial_locals pr)))
    as [-> | (c & t & _ & _ & ->)].
  - apply anchored_after_loop.
  - apply anchored_push; [discriminate | apply anchored_after_loop].
Qed.

(* ================================================================= *)
(** ** Durations and the timestamps they are counted from *)

(** C5, as stated, fails: in scenario A (one review, an approval) the
    [approved] stage is counted from the [first_review] stage, whose
    timestamp is that of the same review; its duration is 0 days from a
    timestamp to itself. *)
Lemma approval_counted_from_its_own_timestamp :
  let pr := sample_pr "2024-01-01T00:00:00Z" "2024-01-03T00:00:00Z" None
              status_open in
  let r := fst (calculateEnhancedPRTimeline (str "2024-02-01T00:00:00.000Z")
                  (str "2024-02-01T00:00:00.000Z") pr
                  [sample_review "rev" approved "2024-01-03T00:00:00Z"] []) in
  (exists pre s,
      stages r = pre ++ [s]
      /\ stage s = s_approved
      /\ duration_from_previous s = Some 0%float
      /\ baseTime pr pre (stage s) = timestamp s)
  /\ ~ never_from_itself pr (stages r).
Proof.
  intros pr r.
  set (fr := mkStage s_first_review (str "2024-01-03T00:00:00Z") (Some 2%float)).
  set (ap := mkStage s_approved (str "2024-01-03T00:00:00Z") (Some 0%float)).
  assert (Hst : stages r = [mkStage s_pr_raised (created_at pr) None; fr] ++ [ap])
    by (vm_compute; reflexivity).
  split.
  - exists [mkStage s_pr_raised (created_at pr) None; fr], ap.
    split; [exact Hst|]. repeat split.
  - intro H.
    apply (H [mkStage s_pr_raised (created_at pr) None; fr] ap [] 0%float Hst);
      reflexivity.
Qed.

(** The same happens to [merged] when the merge carries the timestamp of the
    approval, and to [first_review] when the first review carries the
    timestamp of the PR's creation. *)
Lemma merge_counted_from_its_own_timestamp :
  let pr := sample_pr "2024-01-01T00:00:00Z" "2024-01-03T00:00:00Z"
              (Some (str "2024-01-03T00:00:00Z")) status_merged in
  let r := fst (calculateEnhancedPRTimeline (str "2024-02-01T00:00:00.000Z")
                  (str "2024-02-01T00:00:00.000Z") pr
                  [sample_review "rev" approved "2024-01-03T00:00:00Z"] []) in
  exists pre s,
    stages r = pre ++ [s]
    /\ stage s = s_merged
    /\ duration_from_previous s = Some 0%float
    /\ baseTime pr pre (stage s) = timestamp s.
Proof.
  intros pr r.
  exists [ mkStage s_pr_raised (created_at pr) None;
           mkStage s_first_review (str "2024-01-03T00:00:00Z") (Some 2%float);
           mkStage s_approved (str "2024-01-03T00:00:00Z") (Some 0%float) ],
         (mkStage s_merged (str "2024-01-03T00:00:00Z") (Some 0%float)).
  vm_compute. repeat split.
Qed.

Lemma first_review_counted_from_its_own_timestamp :
  let pr := sample_pr "2024-01-01T00:00:00Z" "2024-01-01T00:00:00Z" None
              status_open in
  let r := fst (calculateEnhancedPRTimeline (str "2024-02-01T00:00:00.000Z")
                  (str "2024-02-01T00:00:00.000Z") pr
                  [sample_review "rev" commented "2024-01-01T00:00:00Z"] []) in
  exists pre s,
    stages r = pre ++ [s]
    /\ stage s = s_first_review
    /\ duration_from_previous s = Some 0%float
    /\ baseTime pr pre (stage s) = timestamp s.
Proof.
  intros pr r.
  exists [ mkStage s_pr_raised (created_at pr) None ],
         (mkStage s_first_review (str "2024-01-01T00:00:00Z") (Some 0%float)).
  vm_compute. repeat split.
Qed.

Lemma Date_getTime_empty : Date_getTime [] = None.
Proof. reflexivity. Qed.

Lemma parseable_truthy (r : Review) : parseable r -> truthy (submitted_at r) = true.
Proof.
  unfold parseable. destruct (submitted_at r); [|reflexivity].
  rewrite Date_getTime_empty. congruence.
Qed.

Lemma Date_gt_irrefl (a : jsstring) : Date_gt a a = false.
Proof.
  unfold Date_gt, time_ltb. destruct (Date_getTime a); [|reflexivity].
  apply Z.ltb_irrefl.
Qed.

(** A resolution time, when one is found, is later than the request. *)
Lemma findChangesAddressedTime_later pr requested all t :
  findChangesAddressedTime pr requested all = Some t ->
  Date_gt t requested = true.
Proof.
  unfold findChangesAddressedTime.
  destruct (filter _ all) as [|first rest] eqn:Hf.
  - destruct (Date_gt (updated_at pr) requested) eqn:Hu; [|discriminate].
    intro H. injection H as <-. exact Hu.
  - intro H. injection H as <-.
    assert (Hin : In first (filter
                    (fun review =>
                       Date_gt (submitted_at review) requested
                       && (state_eqb (review_state review) approved
                           || state_eqb (review_state review) commented)) all))
      by (rewrite Hf; now left).
    apply filter_In in Hin. destruct Hin as [_ Hc].
    apply andb_true_iff in Hc. tauto.
Qed.

Lemma cycles_from_In pr sorted rs :
  forall n c,
    In c (cycles_from pr sorted n rs) ->
    exists k r, In r rs /\ review_state r = changes_requested
                /\ c = cycle_of pr sorted k r.
Proof.
  induction rs as [|r rest IH]; intros n c Hin; [destruct Hin|].
  cbn [cycles_from] in Hin.
  destruct (review_state r) eqn:Hst; cbn [state_eqb] in Hin;
    try (destruct (IH _ _ Hin) as (k & r' & Hr' & Hs' & Hc);
         exists k, r'; split; [now right | now split]).
  destruct Hin as [<- | Hin].
  - exists (S n), r. split; [now left | now split].
  - destruct (IH _ _ Hin) as (k & r' & Hr' & Hs' & Hc).
    exists k, r'. split; [now right | now split].
Qed.

Lemma sorted_head_earliest (r0 : Review) (rest : list Review) (r : Review) :
  parseable r0 ->
  StronglySorted submitted_le (r0 :: rest) ->
  In r (r0 :: rest) ->
  submitted_le r0 r.
Proof.
  intros Hp Hs [<- | Hin].
  - unfold submitted_le, parseable in *.
    destruct (Date_getTime (submitted_at r0)); [lia | congruence].
  - apply StronglySorted_inv in Hs. destruct Hs as [_ Hall].
    rewrite Forall_forall in Hall. now apply Hall.
Qed.

Lemma fixed_after_base_push pr L s' :
  fixed_after_base pr L ->
  (stage s' = s_comments_fixed ->
   Date_gt (timestamp s') (baseTime pr L s_comments_fixed) = true
   /\ exists fr, In fr L /\ stage fr = s_first_review
                 /\ baseTime pr L s_comments_fixed = timestamp fr) ->
  fixed_after_base pr (L ++ [s']).
Proof.
  intros HL Hs' pre s post Hsplit Hname.
  apply split_snoc in Hsplit.
  destruct Hsplit as [(-> & -> & ->) | (post' & -> & HLeq)].
  - now apply Hs'.
  - eapply HL; eassumption.
Qed.

Lemma fixed_after_base_pushed pr name L L' :
  name <> s_comments_fixed ->
  pushed pr name L L' -> fixed_after_base pr L -> fixed_after_base pr L'.
Proof.
  intros Hname [-> | [t ->]] HL; [exact HL|].
  apply fixed_after_base_push; [exact HL|].
  cbn [stage]. congruence.
Qed.

Lemma fixed_after_base_loop pr sorted :
  fixed_after_base pr (l_stages (fold_left (review_step pr sorted) sorted
                                   (initial_locals pr))).
Proof.
  destruct (review_loop_result pr sorted) as (-> & _).
  intros pre s post Hsplit Hname. exfalso.
  assert (Hin : In s (mkStage s_pr_raised (created_at pr) None
                      :: match sorted with
                         | r0 :: _ => [first_review_stage pr r0]
                         | [] => []
                         end)).
  { rewrite Hsplit. apply in_elt. }
  destruct sorted as [|r0 rest]; cbn in Hin;
    intuition (subst; discriminate).
Qed.

Lemma reconstruct_fixed_after_base pr sorted :
  Forall parseable sorted ->
  StronglySorted submitted_le sorted ->
  fixed_after_base pr (l_stages (reconstruct pr sorted)).
Proof.
  intros Hp Hs. unfold reconstruct.
  eapply fixed_after_base_pushed; [|apply merge_block_stages|]; [discriminate|].
  eapply fixed_after_base_pushed; [|apply approval_block_stages|]; [discriminate|].
  set (w := fold_left (review_step pr sorted) sorted (initial_locals pr)).
  destruct (comments_fixed_block_stages pr w) as [-> | (c & t & Hc & Ht & ->)];
    [apply fixed_after_base_loop|].
  apply fixed_after_base_push; [apply fixed_after_base_loop|].
  intros _. cbn [timestamp].
  destruct (review_loop_result pr sorted) as (Hstages & Hcycles & _).
  fold w in Hstages, Hcycles. rewrite Hstages. rewrite Hcycles in Hc.
  destruct (cycles_from_In _ _ _ _ _ Hc) as (k & rk & Hrk & _ & ->).
  cbn [cycle_of changes_addressed_at] in Ht.
  apply findChangesAddressedTime_later in Ht.
  destruct sorted as [|r0 rest]; [destruct Hrk|].
  inversion Hp as [|? ? Hp0 _]; subst.
  pose proof (sorted_head_earliest r0 rest rk Hp0 Hs Hrk) as Hle.
  assert (Hbase : baseTime pr [mkStage s_pr_raised (created_at pr) None;
                               first_review_stage pr r0] s_comments_fixed
                  = submitted_at r0).
  { unfold baseTime, stage_timestamp, find_stage, first_review_stage.
    cbn [find stage stage_eqb option_map timestamp js_or].
    now rewrite (parseable_truthy r0 Hp0). }
  rewrite Hbase. split.
  - unfold Date_gt, time_ltb, submitted_le in *.
    destruct (Date_getTime (submitted_at r0)) as [t0|]; [|destruct Hle].
    destruct (Date_getTime (submitted_at rk)) as [tk|]; [|destruct Hle].
    destruct (Date_getTime t) as [tt|]; [|discriminate].
    apply Z.ltb_lt in Ht. apply Z.ltb_lt. lia.
  - exists (first_review_stage pr r0).
    split; [right; now left | split; reflexivity].
Qed.

(** C5, amended. With parseable review timestamps, [pr_raised] carries no
    duration and every other stage carries the days from the base time of
    its block, as the stages before it determine it, to its own timestamp.
    The duration of the [comments_fixed] stage is never counted from a
    timestamp to itself: its base time is the timestamp of the
    [first_review] stage, which is strictly earlier than the stage's own
    timestamp. (The base time of the [approved] stage can be its own
    timestamp, as the lemma above shows.) *)
Theorem comments_fixed_counted_from_earlier_time :
  forall (now1 now2 : jsstring) (pr : PullRequest) (prReviews : list Review)
         (prComments : list Comment),
    Forall parseable prReviews ->
    let r := fst (calculateEnhancedPRTimeline now1 now2 pr prReviews
                    prComments) in
    forall pre s post,
      stages r = pre ++ s :: post ->
      duration_from_previous s
      = match stage s with
        | s_pr_raised => None
        | name => Some (calculateDaysDiff (baseTime pr pre name) (timestamp s))
        end
      /\ (stage s = s_comments_fixed ->
          duration_from_previous s
          = Some (calculateDaysDiff (baseTime pr pre s_comments_fixed)
                    (timestamp s))
          /\ (exists fr, In fr pre /\ stage fr = s_first_review
                         /\ baseTime pr pre s_comments_fixed = timestamp fr)
          /\ Date_gt (timestamp s) (baseTime pr pre s_comments_fixed) = true
          /\ baseTime pr pre s_comments_fixed <> timestamp s).
Proof.
  intros now1 now2 pr prReviews prComments Hp r pre s post Hsplit.
  subst r. cbn [fst calculateEnhancedPRTimeline stages] in Hsplit.
  set (sorted := Array_sort compareBySubmittedAt prReviews) in *.
  assert (Hps : Forall parseable sorted).
  { eapply Permutation_Forall; [apply Array_sort_perm | exact Hp]. }
  pose proof (Array_sort_sorted prReviews Hp) as Hs. fold sorted in Hs.
  pose proof (reconstruct_anchored pr sorted _ _ _ Hsplit) as Hd.
  split; [exact Hd|]. intros Hname.
  rewrite Hname in Hd.
  destruct (reconstruct_fixed_after_base pr sorted Hps Hs _ _ _ Hsplit Hname)
    as (Hgt & Hfr).
  split; [exact Hd|]. split; [exact Hfr|]. split; [exact Hgt|].
  intro Heq. rewrite Heq, Date_gt_irrefl in Hgt. discriminate.
Qed.

Lemma comments_fixed_counted_from_earlier_time_witness :
  let pr := sample_pr "2024-01-01" "2024-01-07" (Some (str "2024-01-07"))
              status_merged in
  let fixed := mkStage s_comments_fixed (str "2024-01-05") (Some 3%float) in
  let pre := [ mkStage s_pr_raised (str "2024-01-01") None;
               mkStage s_first_review (str "2024-01-02") (Some 1%float) ] in
  duration_from_previous fixed
  = Some (calculateDaysDiff (baseTime pr pre s_comments_fixed) (timestamp fixed))
  /\ (exists fr, In fr pre /\ stage fr = s_first_review
                 /\ baseTime pr pre s_comments_fixed = timestamp fr)
  /\ Date_gt (timestamp fixed) (baseTime pr pre s_comments_fixed) = true
  /\ baseTime pr pre s_comments_fixed <> timestamp fixed.
Proof.
  intros pr fixed pre.
  apply (comments_fixed_counted_from_earlier_time
           (str "2024-02-01T00:00:00.000Z") (str "2024-02-01T00:00:00.000Z") pr
           [ sample_review "rev" changes_requested "2024-01-02";
             sample_review "rev" commented "2024-01-05";
             sample_review "rev" approved "2024-01-06" ] []
           ltac:(repeat constructor; vm_compute; discriminate)
           pre fixed
           [ mkStage s_approved (str "2024-01-06") (Some 1%float);
             mkStage s_merged (str "2024-01-07") (Some 1%float) ]).
  - vm_compute. reflexivity.
  - reflexivity.
Defined.

(* ================================================================= *)
(** ** Unresolved review cycles *)

Lemma cycles_from_empty pr sorted rs :
  forall n before,
    cycles_from pr sorted n rs = [] ->
    last_submitted changes_requested rs before = before.
Proof.
  induction rs as [|r rest IH]; intros n before H; [reflexivity|].
  cbn [cycles_from] in H. cbn [last_submitted fold_left].
  destruct (state_eqb (review_state r) changes_requested); [discriminate|].
  now apply (IH n).
Qed.

(** The last request the loop remembers is the one of the last cycle. *)
Lemma last_cycle_request pr sorted rs :
  forall n before cs c,
    cycles_from pr sorted n rs = cs ++ [c] ->
    last_submitted changes_requested rs before = Some (changes_requested_at c).
Proof.
  induction rs as [|r rest IH]; intros n before cs c H.
  - destruct cs; discriminate.
  - cbn [cycles_from] in H. cbn [last_submitted fold_left].
    destruct (state_eqb (review_state r) changes_requested).
    + destruct cs as [|c0 cs'].
      * cbn in H. injection H as Hc Hrest.
        fold (last_submitted changes_requested rest (Some (submitted_at r))).
        rewrite (cycles_from_empty pr sorted rest (S n)) by exact Hrest.
        now rewrite <- Hc.
      * cbn in H. injection H as _ Hrest.
        now apply (IH (S n) _ cs').
    + now apply (IH n _ cs).
Qed.

Lemma cycles_from_complete pr sorted rs :
  forall n r,
    In r rs -> review_state r = changes_requested ->
    exists k, In (cycle_of pr sorted k r) (cycles_from pr sorted n rs).
Proof.
  induction rs as [|r0 rest IH]; intros n r Hin Hst; [destruct Hin|].
  cbn [cycles_from].
  destruct Hin as [-> | Hin].
  - rewrite Hst. cbn [state_eqb]. exists (S n). now left.
  - destruct (state_eqb (review_state r0) changes_requested).
    + destruct (IH (S n) r Hin Hst) as [k Hk]. exists k. now right.
    + exact (IH n r Hin Hst).
Qed.

Lemma quality_tier_with_issues (confidence : float) (n : nat) :
  quality_tier confidence (S n) <> high.
Proof.
  unfold quality_tier. cbn [Nat.eqb]. rewrite andb_false_r.
  destruct (_ && _); discriminate.
Qed.

(** C4. A changes-requested review that no approving or commenting review
    follows is resolved at the PR's last-updated timestamp if and only if that
    timestamp is strictly after the request, and has a null
    [changes_addressed_at] otherwise. When the last cycle is unresolved, no
    [comments_fixed] stage is emitted and the validator starts from the issue
    'Changes were requested but no clear resolution detected' and from the
    confidence 0.8 (1.0 less the penalty of 0.2); the issue is in the result
    and the quality tier is not high. *)
Theorem unresolved_changes_request :
  forall (now1 now2 : jsstring) (pr : PullRequest) (prReviews : list Review)
         (prComments : list Comment),
    let result := calculateEnhancedPRTimeline now1 now2 pr prReviews prComments in
    let r := fst result in
    let sortedReviews := snd result in
    (forall review,
        In review prReviews ->
        review_state review = changes_requested ->
        (forall later,
            In later sortedReviews ->
            Date_gt (submitted_at later) (submitted_at review) = true ->
            review_state later = changes_requested) ->
        let resolution :=
          if Date_gt (updated_at pr) (submitted_at review)
          then Some (updated_at pr) else None in
        findChangesAddressedTime pr (submitted_at review) sortedReviews
        = resolution
        /\ exists c, In c (review_cycles r)
                     /\ changes_requested_at c = submitted_at review
                     /\ reviewer c = reviewer_username review
                     /\ changes_addressed_at c = resolution)
    /\ (forall cycles lastCycle,
           review_cycles r = cycles ++ [lastCycle] ->
           changes_addressed_at lastCycle = None ->
           changes_requested_at lastCycle <> [] ->
           find_stage s_comments_fixed (stages r) = None
           /\ validation r
              = validateTimeline (stages r) (actual_events r) (review_cycles r)
                  [unresolved_message] 0.8
           /\ In unresolved_message (issues (validation r))
           /\ data_quality (validation r) <> high).
Proof.
  intros now1 now2 pr prReviews prComments result r sortedReviews.
  subst r sortedReviews result.
  cbn [fst snd calculateEnhancedPRTimeline review_cycles stages validation
         actual_events].
  set (sorted := Array_sort compareBySubmittedAt prReviews).
  set (w := fold_left (review_step pr sorted) sorted (initial_locals pr)).
  destruct (review_loop_result pr sorted)
    as (Hstages & Hcycles & Hreq & _ & Hissues & Hconf).
  fold w in Hstages, Hcycles, Hreq, Hissues, Hconf.
  rewrite reconstruct_cycles. fold w. rewrite Hcycles.
  split.
  - intros review Hin Hst Hnone.
    set (resolution := if Date_gt (updated_at pr) (submitted_at review)
                       then Some (updated_at pr) else None).
    assert (Hfind : findChangesAddressedTime pr (submitted_at review) sorted
                    = resolution).
    { unfold findChangesAddressedTime.
      destruct (filter _ sorted) as [|first rest] eqn:Hf; [reflexivity|].
      exfalso.
      assert (Hfirst : In first (first :: rest)) by now left.
      rewrite <- Hf in Hfirst. apply filter_In in Hfirst.
      destruct Hfirst as [Hfin Hc]. apply andb_true_iff in Hc.
      destruct Hc as [Hgt Hstate].
      rewrite (Hnone first Hfin Hgt) in Hstate. discriminate. }
    split; [exact Hfind|].
    assert (Hin' : In review sorted).
    { eapply Permutation_in; [apply Array_sort_perm | exact Hin]. }
    destruct (cycles_from_complete pr sorted sorted 0 review Hin' Hst) as [k Hk].
    exists (cycle_of pr sorted k review).
    split; [exact Hk|]. repeat split. exact Hfind.
  - intros cycles lastCycle Hlast Hnull Hne.
    assert (Hcf : comments_fixed_block pr w = push_issue unresolved_message 0.2 w).
    { apply (comments_fixed_block_unresolved pr w (changes_requested_at lastCycle)
               cycles lastCycle); try assumption.
      - rewrite Hreq. now apply (last_cycle_request pr sorted sorted 0 None cycles).
      - now rewrite Hcycles. }
    unfold reconstruct. fold w. rewrite Hcf.
    set (l1 := push_issue unresolved_message 0.2 w).
    assert (Hl1 : l_stages l1 = l_stages w) by reflexivity.
    destruct (approval_block_issues pr l1) as [Hi2 Hc2].
    destruct (merge_block_issues pr (approval_block pr l1)) as [Hi3 Hc3].
    rewrite Hi3, Hi2, Hc3, Hc2.
    assert (Hi1 : l_issues l1 = [unresolved_message])
      by (unfold l1; cbn [push_issue l_issues]; now rewrite Hissues).
    assert (Hc1 : l_confidenceScore l1 = 0.8%float)
      by (unfold l1; cbn [push_issue l_confidenceScore]; now rewrite Hconf).
    rewrite Hi1, Hc1.
    assert (Hnofixed : forall s,
               In s (l_stages (merge_block pr (approval_block pr l1))) ->
               stage s <> s_comments_fixed).
    { intros s Hs.
      destruct (merge_block_stages pr (approval_block pr l1)) as [Hm | [t Hm]];
        rewrite Hm in Hs;
        [|apply in_app_or in Hs; destruct Hs as [Hs | [<- | []]];
          [|discriminate]];
        (destruct (approval_block_stages pr l1) as [Ha | [t' Ha]];
         rewrite Ha, Hl1, Hstages in Hs;
         [|apply in_app_or in Hs; destruct Hs as [Hs | [<- | []]];
           [|discriminate]];
         destruct sorted as [|r0 rest]; cbn in Hs;
         intuition (subst; discriminate)). }
    split.
    { unfold find_stage.
      destruct (find _ _) as [s|] eqn:Hfound; [|reflexivity].
      apply find_some in Hfound. destruct Hfound as [Hs Hname].
      exfalso. apply (Hnofixed s Hs).
      destruct (stage s); try discriminate. reflexivity. }
    split; [reflexivity|].
    destruct (validateTimeline_summary
                (l_stages (merge_block pr (approval_block pr l1)))
                (l_events (merge_block pr (approval_block pr l1)))
                (cycles_from pr sorted 0 sorted) [unresolved_message] 0.8)
      as (new & _ & ->).
    cbn [issues data_quality app length].
    split; [now left | apply quality_tier_with_issues].
Qed.

Lemma unresolved_changes_request_witness :
  let pr := sample_pr "2024-01-01T00:00:00Z" "2024-01-02T00:00:00Z" None
              status_open in
  let review := sample_review "rev" changes_requested "2024-01-02T00:00:00Z" in
  let r := fst (calculateEnhancedPRTimeline (str "2024-02-01T00:00:00.000Z")
                  (str "2024-02-01T00:00:00.000Z") pr [review] []) in
  find_stage s_comments_fixed (stages r) = None
  /\ validation r
     = validateTimeline (stages r) (actual_events r) (review_cycles r)
         [unresolved_message] 0.8
  /\ In unresolved_message (issues (validation r))
  /\ data_quality (validation r) <> high.
Proof.
  intros pr review r.
  destruct (unresolved_changes_request (str "2024-02-01T00:00:00.000Z")
              (str "2024-02-01T00:00:00.000Z") pr [review] []) as [_ H].
  apply (H [] (mkCycle 1 (str "2024-01-02T00:00:00Z") None 0 (str "rev"))).
  - vm_compute. reflexivity.
  - reflexivity.
  - discriminate.
Defined.

(* ================================================================= *)
(** ** Dates: a time value survives [toISOString] and parsing *)

Local Open Scope Z_scope.

Lemma DayFromYear_next (y : Z) :
  DayFromYear (y + 1) = DayFromYear y + (if InLeapYear y then 366 else 365).
Proof.
  unfold DayFromYear, InLeapYear.
  destruct (y mod 4 =? 0) eqn:E4; destruct (y mod 100 =? 0) eqn:E100;
    destruct (y mod 400 =? 0) eqn:E400; cbn [andb orb negb];
    rewrite ?Z.eqb_eq, ?Z.eqb_neq in *;
    Z.div_mod_to_equations; lia.
Qed.

Lemma YearFromDay_spec (day : Z) :
  DayFromYear (YearFromDay day) <= day < DayFromYear (YearFromDay day + 1).
Proof.
  unfold YearFromDay.
  set (y0 := 1970 + day * 400 / 146097).
  assert (Hlo : DayFromYear (y0 - 1) <= day).
  { unfold DayFromYear, y0. Z.div_mod_to_equations. lia. }
  assert (Hhi : day < DayFromYear (y0 + 1 + 1)).
  { unfold DayFromYear, y0. Z.div_mod_to_equations. lia. }
  destruct (DayFromYear (y0 + 1) <=? day) eqn:E1.
  - apply Z.leb_le in E1. lia.
  - apply Z.leb_gt in E1.
    destruct (DayFromYear y0 <=? day) eqn:E0.
    + apply Z.leb_le in E0. lia.
    + apply Z.leb_gt in E0. replace (y0 - 1 + 1) with y0 by lia. lia.
Qed.

Lemma month_and_day_in_range (leap : bool) (doy : Z) :
  0 <= doy < (if leap then 366 else 365) ->
  let m := MonthFromDayInYear leap doy in
  1 <= m <= 12 /\ 1 <= doy - DaysBeforeMonth leap m + 1 <= 31.
Proof.
  intros Hdoy. unfold MonthFromDayInYear.
  destruct leap;
    repeat match goal with
           | |- context [if ?a <? ?b then _ else _] =>
               let E := fresh "E" in
               destruct (a <? b) eqn:E;
               [apply Z.ltb_lt in E | apply Z.ltb_ge in E]
           end;
    cbn; lia.
Qed.

(** The civil date of a day number is a date the parser accepts, and MakeDay
    takes it back to the day number. *)
Lemma civil_from_days_spec (day : Z) :
  let '(y, m, d) := civil_from_days day in
  MakeDay y m d = day /\ 1 <= m <= 12 /\ 1 <= d <= 31
  /\ DayFromYear y <= day < DayFromYear (y + 1).
Proof.
  unfold civil_from_days, MakeDay.
  pose proof (YearFromDay_spec day) as Hy.
  set (y := YearFromDay day) in *.
  assert (Hdoy : 0 <= day - DayFromYear y
                 < (if InLeapYear y then 366 else 365)).
  { rewrite DayFromYear_next in Hy. lia. }
  pose proof (month_and_day_in_range (InLeapYear y) _ Hdoy) as Hm.
  cbn zeta in Hm.
  split; [lia|]. split; [tauto|]. split; [tauto | exact Hy].
Qed.

Lemma DayFromYear_mono (y y' : Z) : y <= y' -> DayFromYear y <= DayFromYear y'.
Proof.
  intro H. unfold DayFromYear. Z.div_mod_to_equations. lia.
Qed.

Lemma four_digit_year_spec (t : Z) :
  four_digit_year t -> 0 <= YearFromDay (t / msPerDay) <= 9999.
Proof.
  unfold four_digit_year, msPerDay. intro Ht.
  pose proof (YearFromDay_spec (t / 86400000)) as Hy.
  set (y := YearFromDay (t / 86400000)) in *.
  assert (Hday : -719528 <= t / 86400000 <= 2932896)
    by (Z.div_mod_to_equations; lia).
  split.
  - destruct (Z_lt_le_dec y 0) as [Hneg|]; [|assumption].
    pose proof (DayFromYear_mono (y + 1) 0 ltac:(lia)) as Hm.
    change (DayFromYear 0) with (-719528) in Hm. lia.
  - destruct (Z_lt_le_dec 9999 y) as [Hbig|]; [|assumption].
    pose proof (DayFromYear_mono 10000 y ltac:(lia)) as Hm.
    change (DayFromYear 10000) with 2932897 in Hm. lia.
Qed.

(** *** Printing and reading decimal fields *)

Lemma digit_of_decimal (d : Z) :
  0 <= d <= 9 -> digit (Z.to_N (48 + d)) = Some d.
Proof.
  intro H. unfold digit.
  assert (Hlo : N.leb 48 (Z.to_N (48 + d)) = true) by (apply N.leb_le; lia).
  assert (Hhi : N.leb (Z.to_N (48 + d)) 57 = true) by (apply N.leb_le; lia).
  rewrite Hlo, Hhi. cbn [andb]. f_equal. lia.
Qed.

(** Reading [w + 1] digits is reading [w] digits and one more. *)
Lemma digits_succ (w : nat) :
  forall acc s,
    digits (S w) acc s
    = match digits w acc s with
      | Some (v, c :: s') => d <- digit c;; Some (10 * v + d, s')
      | _ => None
      end.
Proof.
  induction w as [|w IH]; intros acc s.
  - cbn. destruct s as [|c s']; [reflexivity|].
    destruct (digit c); reflexivity.
  - change (digits (S (S w)) acc s)
      with (match s with
            | c :: s' => d <- digit c;; digits (S w) (10 * acc + d) s'
            | [] => None
            end).
    destruct s as [|c s']; [reflexivity|].
    cbn [digits]. destruct (digit c) as [d|]; cbn [obind]; [|reflexivity].
    apply IH.
Qed.

Lemma digits_pad_digits (w : nat) :
  forall n rest,
    0 <= n < 10 ^ Z.of_nat w ->
    digits w 0 (pad_digits w n ++ rest) = Some (n, rest).
Proof.
  induction w as [|w IH]; intros n rest Hn.
  - cbn in *. f_equal. f_equal. lia.
  - rewrite digits_succ. cbn [pad_digits]. rewrite <- app_assoc.
    rewrite Nat2Z.inj_succ, Z.pow_succ_r in Hn by lia.
    rewrite IH by (Z.div_mod_to_equations; lia).
    cbn [app]. rewrite digit_of_decimal by (Z.div_mod_to_equations; lia).
    cbn [obind]. f_equal. f_equal. Z.div_mod_to_equations. lia.
Qed.

Lemma pad_digits_head (w : nat) (n : Z) (rest : jsstring) :
  exists c tail,
    pad_digits (S w) n ++ rest = c :: tail /\ (48 <= c <= 57)%N.
Proof.
  revert n rest. induction w as [|w IH]; intros n rest.
  - cbn [pad_digits app]. eexists _, _. split; [reflexivity|].
    assert (0 <= n mod 10 < 10) by (apply Z.mod_pos_bound; lia). lia.
  - change (pad_digits (S (S w)) n)
      with (pad_digits (S w) (n / 10) ++ [Z.to_N (48 + n mod 10)]).
    rewrite <- app_assoc. apply IH.
Qed.

Lemma parse_year_pad_digits (y : Z) (rest : jsstring) :
  0 <= y <= 9999 -> parse_year (pad_digits 4 y ++ rest) = Some (y, rest).
Proof.
  intro Hy. unfold parse_year.
  destruct (pad_digits_head 3 y rest) as (c & tail & Heq & Hc).
  transitivity (digits 4 0 (pad_digits 4 y ++ rest));
    [|apply digits_pad_digits; cbn; lia].
  rewrite Heq.
  assert (H43 : N.eqb c 43 = false) by (apply N.eqb_neq; lia).
  assert (H45 : N.eqb c 45 = false) by (apply N.eqb_neq; lia).
  now rewrite H43, H45.
Qed.

Lemma expect_here (c : N) (s : jsstring) : expect c ([c] ++ s) = Some s.
Proof. cbn [app expect]. now rewrite N.eqb_refl. Qed.

(** The time of day [toISOString] prints is read back to the same number of
    milliseconds. *)
Lemma parse_time_printed (tod : Z) :
  0 <= tod < msPerDay ->
  parse_time (pad_digits 2 (tod / 3600000)
              ++ [58%N] ++ pad_digits 2 (tod / 60000 mod 60)
              ++ [58%N] ++ pad_digits 2 (tod / 1000 mod 60)
              ++ [46%N] ++ pad_digits 3 (tod mod 1000) ++ [90%N])
  = Some tod.
Proof.
  unfold msPerDay. intro Htod. unfold parse_time.
  rewrite digits_pad_digits by (cbn; Z.div_mod_to_equations; lia).
  cbn [obind]. rewrite expect_here. cbn [obind].
  rewrite digits_pad_digits by (cbn; Z.div_mod_to_equations; lia).
  cbn [obind]. rewrite expect_here. cbn [obind].
  rewrite digits_pad_digits by (cbn; Z.div_mod_to_equations; lia).
  cbn [obind].
  change ([46%N] ++ pad_digits 3 (tod mod 1000) ++ [90%N])
    with (46%N :: pad_digits 3 (tod mod 1000) ++ [90%N]).
  cbv iota beta.
  rewrite digits_pad_digits by (cbn; Z.div_mod_to_equations; lia).
  cbn [obind].
  assert (Hh : (tod / 3600000 <=? 23) = true)
    by (apply Z.leb_le; Z.div_mod_to_equations; lia).
  assert (Hm : (tod / 60000 mod 60 <=? 59) = true)
    by (apply Z.leb_le; Z.div_mod_to_equations; lia).
  assert (Hs : (tod / 1000 mod 60 <=? 59) = true)
    by (apply Z.leb_le; Z.div_mod_to_equations; lia).
  rewrite Hh, Hm, Hs. cbn [andb orb].
  f_equal. Z.div_mod_to_equations. lia.
Qed.

(** A time value of a four-digit year, printed by [toISOString] and parsed
    again, is the same time value. *)
Lemma Date_roundtrip (t : Z) :
  four_digit_year t ->
  exists s, Date_toISOString t = Some s /\ Date_getTime s = Some t.
Proof.
  intro Ht.
  pose proof (four_digit_year_spec t Ht) as Hyear.
  pose proof (civil_from_days_spec (t / msPerDay)) as Hcivil.
  unfold Date_toISOString.
  assert (Habs : (Z.abs t <=? maxTime) = true).
  { apply Z.leb_le. unfold four_digit_year, maxTime in *. lia. }
  rewrite Habs.
  assert (Hy : fst (fst (civil_from_days (t / msPerDay)))
               = YearFromDay (t / msPerDay)) by reflexivity.
  destruct (civil_from_days (t / msPerDay)) as [[y m] d].
  cbn [fst] in Hy. subst y.
  set (y := YearFromDay (t / msPerDay)) in *.
  destruct Hcivil as (Hday & Hm & Hd & _).
  assert (Hy4 : ((0 <=? y) && (y <=? 9999)) = true).
  { apply andb_true_iff. split; apply Z.leb_le; lia. }
  rewrite Hy4. cbv iota beta zeta.
  eexists. split; [reflexivity|].
  unfold Date_getTime.
  rewrite parse_year_pad_digits by lia.
  cbn [obind]. rewrite expect_here. cbn [obind].
  rewrite digits_pad_digits by (cbn; lia).
  cbn [obind]. rewrite expect_here. cbn [obind].
  rewrite digits_pad_digits by (cbn; lia).
  cbn [obind].
  assert (Hrange : ((1 <=? m) && (m <=? 12) && (1 <=? d) && (d <=? 31)) = true).
  { rewrite !andb_true_iff. repeat split; apply Z.leb_le; lia. }
  rewrite Hrange.
  change ([84%N] ++ ?x) with (84%N :: x).
  cbv iota beta.
  assert (Htod : 0 <= t mod msPerDay < msPerDay)
    by (apply Z.mod_pos_bound; reflexivity).
  rewrite (parse_time_printed (t mod msPerDay) Htod).
  cbn [obind]. rewrite Hday.
  assert (Hback : t / msPerDay * msPerDay + t mod msPerDay = t).
  { unfold msPerDay. Z.div_mod_to_equations. lia. }
  rewrite Hback, Habs. reflexivity.
Qed.

(* ================================================================= *)
(** ** Cache round trip *)

Lemma jsstring_eqb_eq (a b : jsstring) : jsstring_eqb a b = true <-> a = b.
Proof.
  revert b. induction a as [|x a IH]; intros [|y b]; cbn;
    try (split; [discriminate | congruence]); [tauto|].
  rewrite andb_true_iff, N.eqb_eq, IH. split.
  - intros [-> ->]. reflexivity.
  - intro H. injection H as -> ->. now split.
Qed.

(** C8. An entry made by [createCacheEntry] is valid when checked at the
    instant of its creation against the unchanged dataset; it is invalid at
    every instant from its expiry (two hours after creation) on, and invalid
    against every dataset whose version hash differs from the one stored in
    the entry. Altogether it is valid exactly before its expiry and against
    a dataset with its version. *)
Theorem cache_round_trip :
  forall (D : Type) (st : Store) (now : Z) (data : D),
    four_digit_year now ->
    four_digit_year (now + 7200000) ->
    exists entry,
      createCacheEntry st now data = Some entry
      /\ Date_getTime (generated_at entry) = Some now
      /\ Date_getTime (expires_at entry) = Some (now + 7200000)
      /\ version entry = generateDataVersionHash st
      /\ isCacheValid st now (Some entry) = true
      /\ (forall st' later,
             now + 7200000 <= later ->
             isCacheValid st' later (Some entry) = false)
      /\ (forall st' later,
             generateDataVersionHash st' <> version entry ->
             isCacheValid st' later (Some entry) = false)
      /\ (forall st' later,
             isCacheValid st' later (Some entry) = true
             <-> later < now + 7200000
                 /\ generateDataVersionHash st' = version entry).
Proof.
  intros D st now data Hnow Hexp.
  destruct (Date_roundtrip now Hnow) as (g & Hg & Hgt).
  destruct (Date_roundtrip (now + 7200000) Hexp) as (e & He & Het).
  exists (mkCached data g e (generateDataVersionHash st)).
  assert (Hvalid : forall st' later,
             isCacheValid st' later
               (Some (mkCached data g e (generateDataVersionHash st))) = true
             <-> later < now + 7200000
                 /\ generateDataVersionHash st' = generateDataVersionHash st).
  { intros st' later. unfold isCacheValid.
    cbn [expires_at version]. rewrite Het. cbn [time_ltb].
    rewrite andb_true_iff, Z.ltb_lt, jsstring_eqb_eq.
    split; intros [H1 H2]; split; congruence || assumption. }
  split.
  { unfold createCacheEntry.
    change (now + CACHE_EXPIRY_HOURS * 60 * 60 * 1000) with (now + 2 * 60 * 60 * 1000).
    replace (now + 2 * 60 * 60 * 1000) with (now + 7200000) by lia.
    rewrite Hg, He. reflexivity. }
  split; [exact Hgt|]. split; [exact Het|]. split; [reflexivity|].
  split; [apply Hvalid; split; [lia | reflexivity]|].
  split; [|split].
  - intros st' later Hlate.
    destruct (isCacheValid st' later _) eqn:E; [|reflexivity].
    apply Hvalid in E. lia.
  - intros st' later Hdiff. cbn [version] in Hdiff.
    destruct (isCacheValid st' later _) eqn:E; [|reflexivity].
    apply Hvalid in E. tauto.
  - exact Hvalid.
Qed.

(** An entry made at 2024-01-01T00:00:00.123Z for [sample_store]: valid at
    once, invalid two hours later, invalid once a comment has been added. *)
Lemma cache_round_trip_witness :
  exists entry,
    createCacheEntry sample_store 1704067200123 tt = Some entry
    /\ isCacheValid sample_store 1704067200123 (Some entry) = true
    /\ isCacheValid sample_store (1704067200123 + 7200000) (Some entry) = false
    /\ isCacheValid sample_store_later 1704067200123 (Some entry) = false.
Proof.
  destruct (cache_round_trip unit sample_store 1704067200123 tt)
    as (entry & Hc & _ & _ & Hv & Hnow & Hlate & Hdiff & _).
  - unfold four_digit_year. lia.
  - unfold four_digit_year. lia.
  - exists entry. split; [exact Hc|]. split; [exact Hnow|].
    split; [apply Hlate; lia|].
    apply Hdiff. rewrite Hv. vm_compute. discriminate.
Defined.

(* ================================================================= *)
(** ** The classifier: authors and bodies that are never human *)

Local Open Scope nat_scope.

Lemma strip_prefix_canonical (lit s rest : jsstring) :
  map Canonicalize lit = map Canonicalize s ->
  strip_prefix unit_eq_i lit (s ++ rest) = Some rest.
Proof.
  revert s. induction lit as [|p lit IH]; intros [|c s] H; try discriminate.
  - reflexivity.
  - cbn [map] in H. injection H as Hc Hs.
    cbn [strip_prefix app]. unfold unit_eq_i. rewrite Hc, N.eqb_refl.
    apply IH, Hs.
Qed.

Lemma RegExp_suffix_i (lit prefix suffix : jsstring) :
  map Canonicalize suffix = map Canonicalize lit ->
  RegExp_test (ReSuffixI lit) (prefix ++ suffix) = true.
Proof.
  intros H. unfold RegExp_test. rewrite rev_app_distr.
  rewrite strip_prefix_canonical; [reflexivity|].
  rewrite !map_rev. now rewrite H.
Qed.

(** X1. A comment is classified as a bot's whatever it says when its author
    is one of the names listed in [BOT_PATTERNS], in any letter case, or when
    the author's name ends in "bot", in any letter case. *)
Theorem bot_author_never_human :
  forall comment : Comment,
    (exists name, In (BotName name) BOT_PATTERNS
                  /\ toLowerCase (comment_author comment) = toLowerCase name)
    \/ (exists prefix suffix,
           comment_author comment = prefix ++ suffix
           /\ map Canonicalize suffix = map Canonicalize (str "bot")) ->
    isBotUser (comment_author comment) = true
    /\ isHumanComment comment = false.
Proof.
  intros comment H.
  assert (Hbot : isBotUser (comment_author comment) = true).
  { unfold isBotUser. apply existsb_exists.
    destruct H as [(name & Hin & Hlow) | (prefix & suffix & Hw & Hs)].
    - exists (BotName name). split; [exact Hin|].
      rewrite Hlow. now apply jsstring_eqb_eq.
    - exists (BotRegExp (ReSuffixI (str "bot"))).
      split; [right; left; reflexivity|].
      rewrite Hw. now apply RegExp_suffix_i. }
  split; [exact Hbot|].
  unfold isHumanComment. now rewrite Hbot.
Qed.

Lemma bot_author_never_human_witness :
  let c := sample_comment "Travis-CI" "I think the retry logic is wrong here." in
  isBotUser (comment_author c) = true /\ isHumanComment c = false.
Proof.
  apply bot_author_never_human. left.
  exists (str "travis-ci"). split; [|reflexivity].
  unfold BOT_PATTERNS. do 15 right. left. reflexivity.
Defined.

Lemma filter_none {A} (f : A -> bool) (l : list A) :
  (forall x, In x l -> f x = false) -> filter f l = [].
Proof.
  induction l as [|x l IH]; intros H; [reflexivity|].
  cbn [filter]. rewrite (H x (or_introl eq_refl)).
  apply IH. intros y Hy. apply H. now right.
Qed.

Lemma filter_all {A} (f : A -> bool) (l : list A) :
  (forall x, In x l -> f x = true) -> filter f l = l.
Proof.
  induction l as [|x l IH]; intros H; [reflexivity|].
  cbn [filter]. rewrite (H x (or_introl eq_refl)).
  f_equal. apply IH. intros y Hy. apply H. now right.
Qed.

Lemma isHumanReview_short_body (review : Review) :
  length (match review_content review with Some s => s | None => [] end) < 10 ->
  isHumanReview review = false.
Proof.
  intros H. unfold isHumanReview, isHumanComment. cbn [comment_author content].
  destruct (isBotUser _); [reflexivity|].
  destruct (isAutomatedContent _); [reflexivity|].
  destruct (review_content review) as [[|c s]|]; cbn [truthy length] in *.
  - reflexivity.
  - apply Nat.ltb_lt in H. cbn [length] in H. now rewrite H.
  - reflexivity.
Qed.

(** X2. A review whose body is missing or shorter than ten code units, as
    that of an approval given without a remark, is never a human review: when
    all reviews are such, all of them are counted as bot reviews and the
    strategy is decided by the comments alone. *)
Theorem reviews_without_body_count_as_bot :
  forall (comments : list Comment) (reviews : list Review),
    (forall r, In r reviews ->
       length (match review_content r with Some s => s | None => [] end) < 10) ->
    let s := determineAnalysisStrategy comments reviews in
    (forall r, In r reviews -> isHumanReview r = false)
    /\ human_reviews s = 0
    /\ bot_reviews s = length reviews
    /\ (strategy_type s = code_only <-> human_comments s = 0)
    /\ (strategy_type s = human_discussion <-> 5 <= human_comments s).
Proof.
  intros comments reviews H s.
  assert (Hr : forall r, In r reviews -> isHumanReview r = false).
  { intros r Hin. apply isHumanReview_short_body, H, Hin. }
  split; [exact Hr|].
  subst s. unfold determineAnalysisStrategy.
  rewrite (filter_none isHumanReview reviews Hr).
  rewrite (filter_all (fun r => negb (isHumanReview r)) reviews)
    by (intros r Hin; now rewrite (Hr r Hin)).
  cbn [length]. rewrite Nat.add_0_r.
  set (hc := length (filter isHumanComment comments)). clearbody hc.
  destruct (Nat.eqb hc 0) eqn:E0.
  - apply Nat.eqb_eq in E0. cbn. repeat split; intros; try reflexivity; try discriminate; lia.
  - apply Nat.eqb_neq in E0. change (Nat.leb 2 0) with false.
    rewrite Bool.orb_false_r.
    destruct (Nat.leb 5 hc) eqn:E5.
    + apply Nat.leb_le in E5. cbn. repeat split; intros; try reflexivity; try discriminate; lia.
    + apply Nat.leb_gt in E5. cbn. repeat split; intros; try reflexivity; try discriminate; lia.
Qed.

Lemma reviews_without_body_count_as_bot_witness :
  let reviews := [ sample_review "rev1" approved "2024-01-02T00:00:00Z";
                   sample_review "rev2" approved "2024-01-03T00:00:00Z" ] in
  let s := determineAnalysisStrategy [] reviews in
  (forall r, In r reviews -> isHumanReview r = false)
  /\ human_reviews s = 0
  /\ bot_reviews s = length reviews
  /\ (strategy_type s = code_only <-> human_comments s = 0)
  /\ (strategy_type s = human_discussion <-> 5 <= human_comments s).
Proof.
  apply reviews_without_body_count_as_bot.
  intros r [Hr | [Hr | []]]; subst r; cbn; lia.
Defined.

(** X3. Every comment is counted once, as human or as bot, and so is every
    review: the four counts of the strategy add up to the two inputs. *)
Theorem strategy_counts_add_up :
  forall (comments : list Comment) (reviews : list Review),
    let s := determineAnalysisStrategy comments reviews in
    human_comments s + bot_comments s = length comments
    /\ human_reviews s + bot_reviews s = length reviews.
Proof.
  intros comments reviews s. subst s. unfold determineAnalysisStrategy.
  pose proof (filter_length isHumanComment comments) as Hc.
  pose proof (filter_length isHumanReview reviews) as Hr.
  destruct (Nat.eqb _ 0); [|destruct (_ || _)];
    cbn [human_comments bot_comments human_reviews bot_reviews];
    split; assumption.
Qed.

(* ================================================================= *)
(** ** The stages of a reconstructed timeline *)

Lemma StronglySorted_snoc {A} (R : A -> A -> Prop) (l : list A) (x : A) :
  StronglySorted R l -> Forall (fun a => R a x) l ->
  StronglySorted R (l ++ [x]).
Proof.
  induction 1 as [|a l Hs IH Ha]; intros HF; cbn [app].
  - constructor; constructor.
  - inversion HF; subst. constructor; [now apply IH|].
    apply Forall_app. split; [exact Ha|]. now constructor.
Qed.

Lemma ranked_push (k : nat) (s : PRTimelineStage) (L : list PRTimelineStage) :
  ranked k L -> k <= stage_rank (stage s) ->
  ranked (S (stage_rank (stage s))) (L ++ [s]).
Proof.
  intros (Hs & Hf & Hl) Hk. repeat split.
  - apply StronglySorted_snoc; [exact Hs|].
    eapply Forall_impl; [|exact Hf]. intros a Ha. unfold stage_before. cbv beta in Ha. lia.
  - apply Forall_app. split.
    + eapply Forall_impl; [|exact Hf]. intros a Ha. cbv beta in *. lia.
    + constructor; [lia|constructor].
  - rewrite length_app. cbn [length]. lia.
Qed.

Lemma ranked_weaken (k k' : nat) (L : list PRTimelineStage) :
  ranked k L -> k <= k' -> ranked k' L.
Proof.
  intros (Hs & Hf & Hl) Hk. repeat split; [exact Hs| |lia].
  eapply Forall_impl; [|exact Hf]. intros a Ha. cbv beta in *. lia.
Qed.

Lemma ranked_pushed pr name (k : nat) (L L' : list PRTimelineStage) :
  pushed pr name L L' -> ranked k L -> k <= stage_rank name ->
  ranked (S (stage_rank name)) L'.
Proof.
  intros [-> | (t & ->)] Hr Hk.
  - apply (ranked_weaken k); [exact Hr|lia].
  - apply (ranked_push k (mkStage name t _)); assumption.
Qed.

Lemma pushed_extends pr name (L L' : list PRTimelineStage) :
  pushed pr name L L' -> exists ext, L' = L ++ ext.
Proof.
  intros [-> | (t & ->)]; [exists []; now rewrite app_nil_r|eauto].
Qed.

Lemma ranked_after_loop pr sorted :
  ranked 2 (l_stages (fold_left (review_step pr sorted) sorted
                        (initial_locals pr))).
Proof.
  destruct (review_loop_result pr sorted) as (-> & _).
  destruct sorted as [|r0 rest]; repeat split.
  - repeat constructor.
  - repeat constructor.
  - cbn. lia.
  - repeat constructor.
  - constructor; [cbn; lia|]. constructor; [cbn; lia|constructor].
  - cbn. lia.
Qed.

Lemma reconstruct_stages_shape pr sorted :
  (exists rest,
      l_stages (reconstruct pr sorted)
      = mkStage s_pr_raised (created_at pr) None :: rest)
  /\ ranked 5 (l_stages (reconstruct pr sorted)).
Proof.
  unfold reconstruct.
  set (l0 := fold_left (review_step pr sorted) sorted (initial_locals pr)).
  assert (H0 : (exists rest, l_stages l0
                  = mkStage s_pr_raised (created_at pr) None :: rest)
               /\ ranked 2 (l_stages l0)).
  { split; [|apply ranked_after_loop].
    destruct (review_loop_result pr sorted) as (H & _). fold l0 in H.
    rewrite H. eauto. }
  clearbody l0.
  assert (H1 : (exists rest, l_stages (comments_fixed_block pr l0)
                  = mkStage s_pr_raised (created_at pr) None :: rest)
               /\ ranked 3 (l_stages (comments_fixed_block pr l0))).
  { destruct H0 as ((rest & Hrest) & Hr).
    destruct (comments_fixed_block_stages pr l0) as [-> | (c & t & _ & _ & ->)].
    - split; [eauto|]. apply (ranked_weaken 2); [exact Hr|lia].
    - split; [rewrite Hrest; cbn [app]; eauto|].
      apply (ranked_push 2 (mkStage s_comments_fixed t _)); [exact Hr|cbn; lia]. }
  set (l1 := comments_fixed_block pr l0) in *. clearbody l1.
  assert (H2 : (exists rest, l_stages (approval_block pr l1)
                  = mkStage s_pr_raised (created_at pr) None :: rest)
               /\ ranked 4 (l_stages (approval_block pr l1))).
  { destruct H1 as ((rest & Hrest) & Hr).
    pose proof (approval_block_stages pr l1) as Hp.
    split.
    - destruct (pushed_extends _ _ _ _ Hp) as (ext & ->).
      rewrite Hrest. cbn [app]. eauto.
    - apply (ranked_pushed pr s_approved 3 _ _ Hp Hr). cbn. lia. }
  set (l2 := approval_block pr l1) in *. clearbody l2.
  destruct H2 as ((rest & Hrest) & Hr).
  pose proof (merge_block_stages pr l2) as Hp.
  split.
  - destruct (pushed_extends _ _ _ _ Hp) as (ext & ->).
    rewrite Hrest. cbn [app]. eauto.
  - apply (ranked_pushed pr s_merged 4 _ _ Hp Hr). cbn. lia.
Qed.

(** X4. The stages of every reconstructed timeline begin with [pr_raised] at
    the creation time of the pull request and follow one another in the
    order pr_raised, first_review, comments_fixed, approved, merged: no stage
    name occurs twice, and there are at most five stages. *)
Theorem stages_in_canonical_order :
  forall (now1 now2 : jsstring) (pr : PullRequest) (prReviews : list Review)
         (prComments : list Comment),
    let r := fst (calculateEnhancedPRTimeline now1 now2 pr prReviews
                    prComments) in
    (exists rest,
        stages r = mkStage s_pr_raised (created_at pr) None :: rest)
    /\ StronglySorted stage_before (stages r)
    /\ NoDup (map stage (stages r))
    /\ 1 <= length (stages r) <= 5.
Proof.
  intros now1 now2 pr prReviews prComments r. subst r.
  unfold calculateEnhancedPRTimeline. cbn [fst stages].
  destruct (reconstruct_stages_shape pr
              (Array_sort compareBySubmittedAt prReviews))
    as ((rest & Hrest) & Hs & Hf & Hl).
  split; [eauto|]. split; [exact Hs|]. split.
  - clear Hrest Hf Hl. induction Hs as [|a l Hs IH Ha]; cbn [map].
    + constructor.
    + constructor; [|exact IH].
      intros Hin. apply in_map_iff in Hin. destruct Hin as (b & Hb & Hin).
      rewrite Forall_forall in Ha. specialize (Ha b Hin).
      unfold stage_before in Ha. rewrite Hb in Ha. lia.
  - split; [|exact Hl]. rewrite Hrest. cbn [length]. lia.
Qed.

(** X5. Once a pull request is merged its timeline no longer depends on the
    clock: whatever the two readings of the clock are, the result is the
    same, with the total duration counted up to the merge. *)
Theorem merged_timeline_ignores_clock :
  forall (now1 now2 now1' now2' : jsstring) (pr : PullRequest)
         (prReviews : list Review) (prComments : list Comment)
         (mergedAt : jsstring),
    merged_at pr = Some mergedAt ->
    mergedAt <> [] ->
    calculateEnhancedPRTimeline now1 now2 pr prReviews prComments
    = calculateEnhancedPRTimeline now1' now2' pr prReviews prComments
    /\ total_duration (fst (calculateEnhancedPRTimeline now1 now2 pr prReviews
                              prComments))
       = calculateDaysDiff (created_at pr) mergedAt.
Proof.
  intros now1 now2 now1' now2' pr prReviews prComments mergedAt Hm Hne.
  unfold calculateEnhancedPRTimeline. rewrite Hm.
  destruct mergedAt as [|c m]; [contradiction|].
  cbn [js_or truthy_opt truthy negb fst total_duration]. split; reflexivity.
Qed.

Lemma merged_timeline_ignores_clock_witness :
  let pr := sample_pr "2024-01-01T00:00:00Z" "2024-01-04T00:00:00Z"
              (Some (str "2024-01-04T00:00:00Z")) status_merged in
  let rs := [sample_review "rev" approved "2024-01-03T00:00:00Z"] in
  calculateEnhancedPRTimeline (str "2024-02-01T00:00:00.000Z")
    (str "2024-02-01T00:00:00.001Z") pr rs []
  = calculateEnhancedPRTimeline (str "2025-06-01T00:00:00.000Z")
      (str "2025-06-01T00:00:00.001Z") pr rs []
  /\ total_duration (fst (calculateEnhancedPRTimeline
                            (str "2024-02-01T00:00:00.000Z")
                            (str "2024-02-01T00:00:00.001Z") pr rs []))
     = calculateDaysDiff (created_at pr) (str "2024-01-04T00:00:00Z").
Proof.
  apply merged_timeline_ignores_clock; [reflexivity|discriminate].
Defined.

(* ================================================================= *)
(** ** Calling the reconstruction again, and on reordered reviews *)

Lemma Array_sort_sorted_id (l : list Review) :
  StronglySorted submitted_le l -> Array_sort compareBySubmittedAt l = l.
Proof.
  induction 1 as [|x l Hs IH Hx]; [reflexivity|].
  cbn [Array_sort]. rewrite IH. destruct l as [|y l']; [reflexivity|].
  cbn [sort_insert]. inversion Hx as [|? ? Hxy _]; subst.
  unfold SortCompare, compareBySubmittedAt. unfold submitted_le in Hxy.
  destruct (Date_getTime (submitted_at x)) as [tx|]; [|contradiction].
  destruct (Date_getTime (submitted_at y)) as [ty|]; [|contradiction].
  replace (tx - ty <=? 0)%Z with true; [reflexivity|].
  symmetry. apply Z.leb_le. lia.
Qed.

(** X6. The timeline debug endpoint calls [calculatePRTimeline] and then
    [calculateEnhancedPRTimeline] on the same array of reviews. When every
    review timestamp parses, the second call finds the array sorted by the
    first and leaves it as it is, it returns what it would have returned on
    the array in its original order, and the basic timeline agrees with the
    enhanced one on the stages, the milestones and the completion flag (and
    on the durations too when the clock reads the same). *)
Theorem basic_then_enhanced_timeline :
  forall (now1 now2 now3 now4 : jsstring) (pr : PullRequest)
         (prReviews : list Review) (prComments : list Comment),
    Forall parseable prReviews ->
    let first := calculatePRTimeline now1 now2 pr prReviews prComments in
    let second :=
      calculateEnhancedPRTimeline now3 now4 pr (snd first) prComments in
    snd second = snd first
    /\ second = calculateEnhancedPRTimeline now3 now4 pr prReviews prComments
    /\ basic_stages (fst first) = stages (fst second)
    /\ basic_milestones (fst first) = milestones (fst second)
    /\ basic_is_completed (fst first) = is_completed (fst second)
    /\ (now1 = now3 -> now2 = now4 ->
        basic_total_duration (fst first) = total_duration (fst second)
        /\ basic_stage_durations (fst first) = stage_durations (fst second)).
Proof.
  intros now1 now2 now3 now4 pr prReviews prComments Hp first second.
  subst first second.
  unfold calculatePRTimeline, calculateEnhancedPRTimeline. cbn [fst snd].
  rewrite (Array_sort_sorted_id _ (Array_sort_sorted prReviews Hp)).
  cbn [stages milestones is_completed total_duration stage_durations
       basic_stages basic_milestones basic_is_completed basic_total_duration
       basic_stage_durations].
  repeat split; intros; subst; reflexivity.
Qed.

Lemma basic_then_enhanced_timeline_witness :
  let pr := sample_pr "2024-01-01T00:00:00Z" "2024-01-06T00:00:00Z" None
              status_open in
  let prReviews := [ sample_review "rev" approved "2024-01-06T00:00:00Z";
                     sample_review "rev" changes_requested "2024-01-02T00:00:00Z" ] in
  let first := calculatePRTimeline (str "2024-02-01T00:00:00.000Z")
                 (str "2024-02-01T00:00:00.000Z") pr prReviews [] in
  let second := calculateEnhancedPRTimeline (str "2024-02-01T00:00:00.002Z")
                  (str "2024-02-01T00:00:00.002Z") pr (snd first) [] in
  snd second = snd first
  /\ basic_stages (fst first) = stages (fst second).
Proof.
  intros pr prReviews.
  assert (Hp : Forall parseable prReviews).
  { repeat constructor; unfold parseable; vm_compute; discriminate. }
  pose proof (basic_then_enhanced_timeline (str "2024-02-01T00:00:00.000Z")
                (str "2024-02-01T00:00:00.000Z") (str "2024-02-01T00:00:00.002Z")
                (str "2024-02-01T00:00:00.002Z") pr prReviews [] Hp) as H.
  cbv zeta in H. destruct H as (H1 & _ & H3 & _).
  split; [exact H1|exact H3].
Defined.

Lemma sorted_permutation_unique (a : list Review) :
  forall b,
    StronglySorted submitted_le a -> StronglySorted submitted_le b ->
    Permutation a b -> NoDup (map submitted_time a) -> a = b.
Proof.
  induction a as [|x a IH]; intros b Ha Hb Hperm Hnd.
  - now apply Permutation_nil in Hperm.
  - destruct b as [|y b].
    { apply Permutation_sym, Permutation_nil in Hperm. discriminate. }
    inversion Ha as [|? ? Ha' Hxa]; subst.
    inversion Hb as [|? ? Hb' Hyb]; subst.
    cbn [map] in Hnd. inversion Hnd as [|? ? Hnotin Hnd']; subst.
    assert (Hxy : x = y).
    { pose proof (Permutation_in x Hperm (or_introl eq_refl)) as Hx.
      pose proof (Permutation_in y (Permutation_sym Hperm) (or_introl eq_refl))
        as Hy.
      destruct Hx as [Hx | Hx]; [now symmetry|].
      destruct Hy as [Hy | Hy]; [exact Hy|].
      exfalso. apply Hnotin.
      rewrite Forall_forall in Hxa, Hyb.
      specialize (Hxa y Hy). specialize (Hyb x Hx).
      unfold submitted_le in Hxa, Hyb.
      replace (submitted_time x) with (submitted_time y).
      - now apply in_map.
      - unfold submitted_time.
        destruct (Date_getTime (submitted_at x)); [|contradiction].
        destruct (Date_getTime (submitted_at y)); [|contradiction].
        f_equal. lia. }
    subst y. f_equal.
    apply IH; try assumption. now apply Permutation_cons_inv in Hperm.
Qed.

(** X7. The order in which the reviews are handed over does not matter when
    their timestamps parse and are pairwise distinct: the reconstruction of
    a reordered array gives the same timeline and leaves the array in the
    same order. *)
Theorem review_order_does_not_matter :
  forall (now1 now2 : jsstring) (pr : PullRequest)
         (prReviews prReviews' : list Review) (prComments : list Comment),
    Forall parseable prReviews ->
    NoDup (map submitted_time prReviews) ->
    Permutation prReviews prReviews' ->
    calculateEnhancedPRTimeline now1 now2 pr prReviews prComments
    = calculateEnhancedPRTimeline now1 now2 pr prReviews' prComments.
Proof.
  intros now1 now2 pr prReviews prReviews' prComments Hp Hnd Hperm.
  unfold calculateEnhancedPRTimeline.
  assert (Hs : Array_sort compareBySubmittedAt prReviews
               = Array_sort compareBySubmittedAt prReviews').
  { apply sorted_permutation_unique.
    - now apply Array_sort_sorted.
    - apply Array_sort_sorted. rewrite Forall_forall in *.
      intros r Hr. apply Hp. eapply Permutation_in; [|exact Hr].
      now apply Permutation_sym.
    - eapply Permutation_trans; [apply Permutation_sym, Array_sort_perm|].
      eapply Permutation_trans; [exact Hperm|apply Array_sort_perm].
    - eapply Permutation_NoDup; [|exact Hnd].
      apply Permutation_map, Array_sort_perm. }
  now rewrite Hs.
Qed.

Lemma review_order_does_not_matter_witness :
  let pr := sample_pr "2024-01-01T00:00:00Z" "2024-01-06T00:00:00Z" None
              status_open in
  let r1 := sample_review "rev" approved "2024-01-06T00:00:00Z" in
  let r2 := sample_review "rev" changes_requested "2024-01-02T00:00:00Z" in
  calculateEnhancedPRTimeline (str "2024-02-01T00:00:00.000Z")
    (str "2024-02-01T00:00:00.000Z") pr [r1; r2] []
  = calculateEnhancedPRTimeline (str "2024-02-01T00:00:00.000Z")
      (str "2024-02-01T00:00:00.000Z") pr [r2; r1] [].
Proof.
  intros pr r1 r2. apply review_order_does_not_matter.
  - repeat constructor; unfold parseable; vm_compute; discriminate.
  - vm_compute. repeat constructor; cbn; intuition discriminate.
  - apply perm_swap.
Defined.

(* ================================================================= *)
(** ** The review cycles of a reconstructed timeline *)

Lemma cycles_from_numbers pr sorted rs :
  forall n,
    map cycle_number (cycles_from pr sorted n rs)
    = seq (S n) (length (filter is_changes_requested rs)).
Proof.
  induction rs as [|r rs IH]; intros n; [reflexivity|].
  cbn [cycles_from filter]. unfold is_changes_requested at 1.
  destruct (state_eqb (review_state r) changes_requested).
  - cbn [map length seq cycle_of cycle_number]. now rewrite IH.
  - apply IH.
Qed.

Lemma cycles_from_requests pr sorted rs :
  forall n,
    map changes_requested_at (cycles_from pr sorted n rs)
    = map submitted_at (filter is_changes_requested rs).
Proof.
  induction rs as [|r rs IH]; intros n; [reflexivity|].
  cbn [cycles_from filter]. unfold is_changes_requested at 1.
  destruct (state_eqb (review_state r) changes_requested).
  - cbn [map cycle_of changes_requested_at]. now rewrite IH.
  - apply IH.
Qed.

Lemma Permutation_filter_same {A} (f : A -> bool) (l l' : list A) :
  Permutation l l' -> Permutation (filter f l) (filter f l').
Proof.
  induction 1 as [|x l l' _ IH|x y l|l l' l'' _ IH1 _ IH2]; cbn [filter].
  - constructor.
  - destruct (f x); [now constructor|exact IH].
  - destruct (f x), (f y); try apply Permutation_refl. apply perm_swap.
  - eapply Permutation_trans; eassumption.
Qed.

(** X8. There is one review cycle for each review that requests changes:
    the cycles are numbered 1, 2, 3, ... in the order of the sorted reviews,
    each opens at the timestamp of its review, and a cycle that has a
    resolution has one strictly later than the request, with its duration
    the days between the two. *)
Theorem review_cycles_numbered :
  forall (now1 now2 : jsstring) (pr : PullRequest) (prReviews : list Review)
         (prComments : list Comment),
    let r := fst (calculateEnhancedPRTimeline now1 now2 pr prReviews
                    prComments) in
    let sorted := snd (calculateEnhancedPRTimeline now1 now2 pr prReviews
                         prComments) in
    length (review_cycles r) = length (filter is_changes_requested prReviews)
    /\ map cycle_number (review_cycles r)
       = seq 1 (length (filter is_changes_requested prReviews))
    /\ map changes_requested_at (review_cycles r)
       = map submitted_at (filter is_changes_requested sorted)
    /\ forall c t,
         In c (review_cycles r) ->
         changes_addressed_at c = Some t ->
         Date_gt t (changes_requested_at c) = true
         /\ duration_days c = calculateDaysDiff (changes_requested_at c) t.
Proof.
  intros now1 now2 pr prReviews prComments r sorted. subst r sorted.
  unfold calculateEnhancedPRTimeline. cbn [fst snd review_cycles].
  set (sorted := Array_sort compareBySubmittedAt prReviews).
  rewrite reconstruct_cycles.
  destruct (review_loop_result pr sorted) as (_ & -> & _).
  assert (Hlen : length (filter is_changes_requested sorted)
                 = length (filter is_changes_requested prReviews)).
  { apply Permutation_length, Permutation_filter_same, Permutation_sym,
      Array_sort_perm. }
  split; [|split; [|split]].
  - rewrite <- Hlen, <- (length_map cycle_number), cycles_from_numbers.
    apply length_seq.
  - rewrite <- Hlen. apply cycles_from_numbers.
  - apply cycles_from_requests.
  - intros c t Hin Ht.
    destruct (cycles_from_In pr sorted sorted 0 c Hin) as (k & rv & _ & _ & ->).
    cbn [cycle_of changes_addressed_at changes_requested_at duration_days] in *.
    pose proof (findChangesAddressedTime_later _ _ _ _ Ht) as Hlater.
    split; [exact Hlater|].
    rewrite Ht. destruct t as [|c0 t']; [|reflexivity].
    unfold Date_gt in Hlater. rewrite Date_getTime_empty in Hlater.
    unfold time_ltb in Hlater.
    destruct (Date_getTime (submitted_at rv)); discriminate.
Qed.

(* ================================================================= *)
(** ** A timeline the validator finds nothing in *)

Lemma app_eq_nil_iff {A} (l l' : list A) :
  l ++ l' = [] <-> l = [] /\ l' = [].
Proof.
  split; [apply app_eq_nil|]. now intros (-> & ->).
Qed.

Lemma order_penalties_nil (stages : list PRTimelineStage) :
  order_penalties stages = []
  <-> (forall pre prev curr post,
          stages = pre ++ prev :: curr :: post ->
          out_of_order prev curr = false).
Proof.
  induction stages as [|p0 rest IH].
  - split; [|reflexivity]. intros _ [|? ?] ? ? ? H; discriminate.
  - destruct rest as [|c0 rest'].
    + split; [|reflexivity]. intros _ pre prev curr post H.
      destruct pre as [|? [|? ?]]; discriminate.
    + cbn [order_penalties]. fold (order_penalties (c0 :: rest')). split.
      * intros H. apply app_eq_nil in H. destruct H as (H0 & Hrest).
        intros pre prev curr post Heq. destruct pre as [|q pre'].
        -- cbn [app] in Heq. injection Heq as <- <- _.
           unfold out_of_order.
           destruct (Date_lt (timestamp c0) (timestamp p0));
             [discriminate|reflexivity].
        -- cbn [app] in Heq. injection Heq as _ Heq.
           apply (proj1 IH Hrest pre' prev curr post Heq).
      * intros H. apply app_eq_nil_iff. split.
        -- pose proof (H [] p0 c0 rest' eq_refl) as H0.
           unfold out_of_order in H0. now rewrite H0.
        -- apply IH. intros pre prev curr post Heq.
           apply (H (p0 :: pre) prev curr post). cbn [app]. now rewrite Heq.
Qed.

Lemma flat_map_nil {A B} (f : A -> list B) (l : list A) :
  flat_map f l = [] <-> forall x, In x l -> f x = [].
Proof.
  induction l as [|a l IH]; cbn [flat_map].
  - split; [intros _ x []|reflexivity].
  - split.
    + intros H. apply app_eq_nil in H. destruct H as (Ha & Hl).
      intros x [<- | Hx]; [exact Ha|]. now apply IH.
    + intros H. apply app_eq_nil_iff. split; [apply H; now left|].
      apply IH. intros x Hx. apply H. now right.
Qed.

Lemma penalties_nil (stages : list PRTimelineStage)
    (reviewCycles : list ReviewCycle) :
  penalties stages reviewCycles = [] <-> no_findings stages reviewCycles.
Proof.
  unfold penalties, no_findings, duration_penalties, cycle_penalties.
  rewrite !app_eq_nil_iff, order_penalties_nil, !flat_map_nil.
  split; intros (Ho & Hd & Hc); (split; [exact Ho|split]).
  - intros s Hs. specialize (Hd s Hs).
    rewrite negative_duration_spec, long_duration_spec.
    apply app_eq_nil in Hd. destruct Hd as (Hn & Hl).
    destruct (has_negative_duration s); [discriminate|].
    destruct (has_long_duration s); [discriminate|]. now split.
  - intros c Hin. specialize (Hc c Hin). unfold long_cycle.
    destruct (14 <? duration_days c)%float; [discriminate|reflexivity].
  - intros s Hs. destruct (Hd s Hs) as (Hn & Hl).
    rewrite negative_duration_spec in Hn. rewrite long_duration_spec in Hl.
    now rewrite Hn, Hl.
  - intros c Hin. pose proof (Hc c Hin) as H0.
    unfold long_cycle in H0. now rewrite H0.
Qed.

(** X9. The validator reports high data quality exactly when it was handed
    no issue, it finds nothing itself (the stages are in chronological
    order, no duration is negative or above 30 days, no review cycle took
    more than 14 days) and the confidence handed over is at least 0.8. The
    list of issues it returns is empty exactly when the first two hold, and
    then the confidence handed over is returned clamped to [0, 1] and decides
    the validity alone. *)
Theorem high_quality_iff_no_findings :
  forall (stages : list PRTimelineStage) (events : list TimelineEvent)
         (reviewCycles : list ReviewCycle) (priorIssues : list Issue)
         (prior : float),
    let v := validateTimeline stages events reviewCycles priorIssues prior in
    (data_quality v = high
     <-> priorIssues = [] /\ no_findings stages reviewCycles
         /\ (0.8 <=? prior)%float = true)
    /\ (issues v = []
        <-> priorIssues = [] /\ no_findings stages reviewCycles)
    /\ (issues v = [] ->
        confidence_score v = Math_max 0 (Math_min 1 prior)
        /\ is_valid v = (0.5 <=? prior)%float).
Proof.
  intros stages events reviewCycles priorIssues prior v. subst v.
  destruct (validateTimeline_summary stages events reviewCycles priorIssues
              prior) as (new & Hlen & ->).
  cbv zeta. cbn [data_quality issues confidence_score is_valid].
  assert (Hnil : priorIssues ++ new = []
                 <-> priorIssues = [] /\ no_findings stages reviewCycles).
  { rewrite app_eq_nil_iff, <- penalties_nil. split; intros (H1 & H2).
    - split; [exact H1|]. subst new. cbn [length] in Hlen.
      destruct (penalties stages reviewCycles); [reflexivity|discriminate].
    - split; [exact H1|]. rewrite H2 in Hlen.
      destruct new; [reflexivity|discriminate]. }
  split; [|split].
  - split.
    + intros Hq. unfold quality_tier in Hq.
      destruct ((0.8 <=? _)%float && Nat.eqb _ 0) eqn:E.
      * apply andb_prop in E. destruct E as (Ec & En).
        apply Nat.eqb_eq, length_zero_iff_nil in En.
        destruct (proj1 Hnil En) as (Hp & Hf).
        split; [exact Hp|]. split; [exact Hf|].
        apply penalties_nil in Hf. now rewrite Hf in Ec.
      * match type of Hq with
        | context [if ?b then medium else low] => destruct b
        end; discriminate.
    + intros (Hp & Hf & Hc).
      pose proof (proj2 Hnil (conj Hp Hf)) as En.
      apply penalties_nil in Hf. unfold quality_tier.
      rewrite Hf, En. cbn [subtract_all fold_left length Nat.eqb].
      now rewrite Hc.
  - exact Hnil.
  - intros En. destruct (proj1 Hnil En) as (_ & Hf).
    apply penalties_nil in Hf. rewrite Hf, En.
    cbn [subtract_all fold_left]. split; [reflexivity|].
    unfold validity_gate. cbn [length Nat.ltb Nat.leb].
    apply Bool.andb_true_r.
Qed.

(* ================================================================= *)
(** ** Milestones and the stages they stand for *)

Lemma comments_fixed_block_approval pr l :
  l_lastApprovalTime (comments_fixed_block pr l) = l_lastApprovalTime l.
Proof.
  unfold comments_fixed_block.
  destruct (truthy_opt _ && _); [|reflexivity].
  destruct (nth_error _ _) as [c|]; [|reflexivity].
  destruct (changes_addressed_at c) as [t|]; [|reflexivity].
  destruct (truthy t); reflexivity.
Qed.

Lemma approval_block_approval pr l :
  l_lastApprovalTime (approval_block pr l) = l_lastApprovalTime l.
Proof.
  unfold approval_block.
  destruct (l_lastApprovalTime l) as [t|] eqn:E; [|now rewrite E].
  destruct (truthy t); [|now rewrite E].
  destruct (negb _); exact E.
Qed.

Lemma merge_block_approval pr l :
  l_lastApprovalTime (merge_block pr l) = l_lastApprovalTime l.
Proof.
  unfold merge_block.
  destruct (merged_at pr) as [t|]; [|reflexivity].
  destruct (truthy t); reflexivity.
Qed.

Lemma approval_block_shape pr l :
  l_stages (approval_block pr l)
  = l_stages l
    ++ match l_lastApprovalTime l with
       | Some t =>
           if truthy t && negb (isSome (find_stage s_approved (l_stages l)))
           then [mkStage s_approved t
                   (Some (calculateDaysDiff
                            (baseTime pr (l_stages l) s_approved) t))]
           else []
       | None => []
       end.
Proof.
  unfold approval_block.
  destruct (l_lastApprovalTime l) as [t|]; [|now rewrite app_nil_r].
  destruct (truthy t); [|now rewrite app_nil_r].
  cbn [set_durations l_stages andb].
  destruct (negb _); [reflexivity|now rewrite app_nil_r].
Qed.

Lemma merge_block_shape pr l :
  l_stages (merge_block pr l)
  = l_stages l
    ++ match merged_at pr with
       | Some t =>
           if truthy t
           then [mkStage s_merged t
                   (Some (calculateDaysDiff
                            (baseTime pr (l_stages l) s_merged) t))]
           else []
       | None => []
       end.
Proof.
  unfold merge_block.
  destruct (merged_at pr) as [t|]; [|now rewrite app_nil_r].
  destruct (truthy t); [reflexivity|now rewrite app_nil_r].
Qed.

Lemma find_stage_app name (L ext : list PRTimelineStage) :
  find_stage name (L ++ ext)
  = match find_stage name L with
    | Some s => Some s
    | None => find_stage name ext
    end.
Proof.
  unfold find_stage. induction L as [|a L IH]; [reflexivity|].
  cbn [app find]. destruct (stage_eqb (stage a) name); [reflexivity|exact IH].
Qed.

Lemma find_stage_other name (L ext : list PRTimelineStage) :
  (forall s, In s ext -> stage s <> name) ->
  find_stage name (L ++ ext) = find_stage name L.
Proof.
  intros H. rewrite find_stage_app.
  destruct (find_stage name L); [reflexivity|].
  unfold find_stage. induction ext as [|a ext IH]; [reflexivity|].
  cbn [find]. destruct (stage_eqb (stage a) name) eqn:E.
  - exfalso. apply (H a (or_introl eq_refl)).
    destruct (stage a), name; try discriminate; reflexivity.
  - apply IH. intros s Hs. apply H. now right.
Qed.

Lemma ranked_find_none (k : nat) (L : list PRTimelineStage) name :
  ranked k L -> k <= stage_rank name -> find_stage name L = None.
Proof.
  intros (_ & Hf & _) Hk. unfold find_stage.
  induction Hf as [|a L Ha _ IH]; [reflexivity|].
  cbn [find]. destruct (stage_eqb (stage a) name) eqn:E; [|exact IH].
  exfalso. destruct (stage a), name; try discriminate; cbn in *; lia.
Qed.

Lemma ranked_after_comments_fixed pr sorted :
  ranked 3 (l_stages (comments_fixed_block pr
                        (fold_left (review_step pr sorted) sorted
                           (initial_locals pr)))).
Proof.
  pose proof (ranked_after_loop pr sorted) as Hr.
  set (l0 := fold_left _ _ _) in *. clearbody l0.
  destruct (comments_fixed_block_stages pr l0) as [-> | (c & t & _ & _ & ->)].
  - apply (ranked_weaken 2); [exact Hr|lia].
  - apply (ranked_push 2 (mkStage s_comments_fixed t _)); [exact Hr|cbn; lia].
Qed.

Lemma last_submitted_truthy (st : ReviewState) (rs : list Review) :
  Forall parseable rs ->
  forall before,
    truthy_opt (last_submitted st rs before) = true
    <-> (exists r, In r rs /\ review_state r = st)
        \/ truthy_opt before = true.
Proof.
  unfold last_submitted.
  induction 1 as [|r rs Hr _ IH]; intros before; cbn [fold_left].
  - split; [now right|]. intros [(r & [] & _) | H]; exact H.
  - rewrite IH. destruct (state_eqb (review_state r) st) eqn:E.
    + assert (Hst : review_state r = st).
      { destruct (review_state r), st; try discriminate; reflexivity. }
      cbn [truthy_opt]. rewrite (parseable_truthy r Hr).
      split; intros _; [left; exists r; split; [now left|exact Hst]|now right].
    + assert (Hst : review_state r <> st).
      { intros <-. destruct (review_state r); discriminate. }
      split.
      * intros [(r' & Hin & Hr') | H]; [|now right].
        left. exists r'. split; [now right|exact Hr'].
      * intros [(r' & [<- | Hin] & Hr') | H]; [contradiction| |now right].
        left. eauto.
Qed.

(** X10. What the milestones of a reconstructed timeline stand for, when the
    review timestamps parse: [first_review] is achieved exactly when there is
    a review; [approved] exactly when some review approves, and exactly then
    there is an [approved] stage; [merged] is achieved exactly when the status
    of the pull request is merged, whereas the [merged] stage is there exactly
    when [merged_at] is a non-empty string, whatever the status. *)
Theorem milestones_and_stages :
  forall (now1 now2 : jsstring) (pr : PullRequest) (prReviews : list Review)
         (prComments : list Comment),
    Forall parseable prReviews ->
    let r := fst (calculateEnhancedPRTimeline now1 now2 pr prReviews
                    prComments) in
    let has name := isSome (find_stage name (stages r)) in
    achieved (m_pr_created (milestones r)) = true
    /\ (achieved (m_first_review (milestones r)) = true <-> prReviews <> [])
    /\ (achieved (m_approved (milestones r)) = true
        <-> exists rv, In rv prReviews /\ review_state rv = approved)
    /\ has s_approved = achieved (m_approved (milestones r))
    /\ (achieved (m_merged (milestones r)) = true <-> status pr = status_merged)
    /\ has s_merged = truthy_opt (merged_at pr).
Proof.
  intros now1 now2 pr prReviews prComments Hp r has. subst r has.
  unfold calculateEnhancedPRTimeline.
  cbn [fst stages milestones m_pr_created m_first_review m_approved m_merged
       achieved].
  set (sorted := Array_sort compareBySubmittedAt prReviews).
  assert (Hperm : Permutation prReviews sorted) by apply Array_sort_perm.
  assert (Hps : Forall parseable sorted).
  { rewrite Forall_forall in *. intros x Hx. apply Hp.
    eapply Permutation_in; [apply Permutation_sym, Hperm|exact Hx]. }
  unfold reconstruct.
  pose proof (ranked_after_comments_fixed pr sorted) as Hr3.
  destruct (review_loop_result pr sorted) as (Hst & _ & _ & Happ & _).
  set (l0 := fold_left (review_step pr sorted) sorted (initial_locals pr)) in *.
  assert (Hl1 : l_lastApprovalTime (comments_fixed_block pr l0)
                = last_submitted approved sorted None).
  { now rewrite comments_fixed_block_approval. }
  assert (Hfirst : isSome (find_stage s_first_review
                             (l_stages (comments_fixed_block pr l0)))
                   = match sorted with [] => false | _ :: _ => true end).
  { destruct (comments_fixed_block_stages pr l0) as [-> | (c & t & _ & _ & ->)].
    - rewrite Hst. destruct sorted; reflexivity.
    - rewrite find_stage_app, Hst. destruct sorted; reflexivity. }
  clearbody l0.
  set (l1 := comments_fixed_block pr l0) in *. clearbody l1.
  assert (Hr4 : ranked 4 (l_stages (approval_block pr l1))).
  { apply (ranked_pushed pr s_approved 3 (l_stages l1));
      [apply approval_block_stages|exact Hr3|cbn; lia]. }
  rewrite merge_block_approval, approval_block_approval, Hl1.
  assert (HA : forall name, name <> s_approved ->
                 find_stage name (l_stages (approval_block pr l1))
                 = find_stage name (l_stages l1)).
  { intros name Hname. rewrite approval_block_shape. apply find_stage_other.
    intros s Hs. destruct (l_lastApprovalTime l1) as [t|]; [|destruct Hs].
    destruct (truthy t && _); [|destruct Hs].
    destruct Hs as [<- | []]. cbn [stage]. congruence. }
  assert (HM : forall name, name <> s_merged ->
                 find_stage name (l_stages (merge_block pr
                                              (approval_block pr l1)))
                 = find_stage name (l_stages (approval_block pr l1))).
  { intros name Hname. rewrite merge_block_shape. apply find_stage_other.
    intros s Hs. destruct (merged_at pr) as [t|]; [|destruct Hs].
    destruct (truthy t); [|destruct Hs].
    destruct Hs as [<- | []]. cbn [stage]. congruence. }
  split; [reflexivity|]. split; [|split; [|split; [|split]]].
  - rewrite HM, HA, Hfirst by discriminate. split.
    + intros H Hnil. subst prReviews.
      apply Permutation_nil in Hperm. rewrite Hperm in H. discriminate.
    + intros Hne. destruct sorted as [|r0 rest]; [|reflexivity].
      apply Permutation_sym, Permutation_nil in Hperm. contradiction.
  - rewrite (last_submitted_truthy approved sorted Hps None). split.
    + intros [(rv & Hin & Hrv) | H]; [|discriminate].
      exists rv. split; [|exact Hrv].
      eapply Permutation_in; [apply Permutation_sym, Hperm|exact Hin].
    + intros (rv & Hin & Hrv). left. exists rv. split; [|exact Hrv].
      eapply Permutation_in; [exact Hperm|exact Hin].
  - rewrite HM by discriminate.
    rewrite approval_block_shape, find_stage_app.
    rewrite (ranked_find_none 3 _ s_approved Hr3) by (cbn; lia).
    rewrite Hl1.
    destruct (last_submitted approved sorted None) as [t|]; [|reflexivity].
    cbn [truthy_opt isSome negb]. rewrite Bool.andb_true_r.
    destruct (truthy t); reflexivity.
  - destruct (status pr); cbn; split; intros; try reflexivity; discriminate.
  - rewrite merge_block_shape, find_stage_app.
    rewrite (ranked_find_none 4 _ s_merged Hr4) by (cbn; lia).
    destruct (merged_at pr) as [m|]; [|reflexivity].
    cbn [truthy_opt]. destruct (truthy m); reflexivity.
Qed.

Lemma milestones_and_stages_witness :
  let pr := sample_pr "2024-01-01T00:00:00Z" "2024-01-04T00:00:00Z"
              (Some (str "2024-01-04T00:00:00Z")) status_closed in
  let rs := [sample_review "rev" approved "2024-01-03T00:00:00Z"] in
  let r := fst (calculateEnhancedPRTimeline (str "2024-02-01T00:00:00.000Z")
                  (str "2024-02-01T00:00:00.000Z") pr rs []) in
  achieved (m_merged (milestones r)) <> true
  /\ isSome (find_stage s_merged (stages r)) = true
  /\ isSome (find_stage s_approved (stages r)) = true.
Proof.
  intros pr rs r.
  assert (Hp : Forall parseable rs).
  { repeat constructor; unfold parseable; vm_compute; discriminate. }
  pose proof (milestones_and_stages (str "2024-02-01T00:00:00.000Z")
                (str "2024-02-01T00:00:00.000Z") pr rs [] Hp) as H.
  cbv zeta in H. fold r in H. destruct H as (_ & _ & Ha & Hsa & Hm & Hsm).
  split; [|split].
  - intros E. apply Hm in E. discriminate.
  - rewrite Hsm. reflexivity.
  - rewrite Hsa. apply Ha.
    exists (sample_review "rev" approved "2024-01-03T00:00:00Z").
    split; [now left|reflexivity].
Defined.

(* ================================================================= *)
(** ** Pending reviewers *)

Lemma includes_In (l : list jsstring) (x : jsstring) :
  includes l x = true <-> In x l.
Proof.
  unfold includes. rewrite existsb_exists. split.
  - intros (y & Hy & E). apply jsstring_eqb_eq in E. now subst.
  - intros H. exists x. split; [exact H|]. now apply jsstring_eqb_eq.
Qed.

Lemma includes_not_In (l : list jsstring) (x : jsstring) :
  includes l x = false <-> ~ In x l.
Proof.
  rewrite <- includes_In. destruct (includes l x); split; intros H.
  - discriminate.
  - now elim H.
  - discriminate.
  - reflexivity.
Qed.

Lemma Set_add_In (set : list jsstring) (x y : jsstring) :
  In y (Set_add set x) <-> In y set \/ y = x.
Proof.
  unfold Set_add. destruct (includes set x) eqn:E.
  - apply includes_In in E. split; [now left|]. now intros [H | ->].
  - rewrite in_app_iff. cbn [In]. split.
    + intros [H | [H | []]]; [now left|now right].
    + intros [H | H]; [now left|right; now left].
Qed.

Lemma Set_add_NoDup (set : list jsstring) (x : jsstring) :
  NoDup set -> NoDup (Set_add set x).
Proof.
  unfold Set_add. destruct (includes set x) eqn:E; [auto|]. intros H.
  apply includes_not_In in E.
  apply NoDup_app; [exact H|repeat constructor; intros []|].
  intros a Ha [<- | []]. contradiction.
Qed.

Lemma add_if_In (p : jsstring -> bool) (l : list jsstring) :
  forall set y,
    In y (fold_left (fun set r => if p r then Set_add set r else set) l set)
    <-> In y set \/ (In y l /\ p y = true).
Proof.
  induction l as [|r l IH]; intros set y; cbn [fold_left].
  - split; [now left|]. now intros [H | ([] & _)].
  - rewrite IH. cbn [In]. destruct (p r) eqn:E.
    + rewrite Set_add_In. split.
      * intros [[H | ->] | (H & Hp)]; [now left|right; split; [now left|exact E]|].
        right. split; [now right|exact Hp].
      * intros [H | ([<- | H] & Hp)]; [left; now left|left; now right|].
        right. now split.
    + split.
      * intros [H | (H & Hp)]; [now left|right; split; [now right|exact Hp]].
      * intros [H | ([<- | H] & Hp)]; [now left|congruence|right; now split].
Qed.

Lemma add_if_NoDup (p : jsstring -> bool) (l : list jsstring) :
  forall set,
    NoDup set ->
    NoDup (fold_left (fun set r => if p r then Set_add set r else set) l set).
Proof.
  induction l as [|r l IH]; intros set H; cbn [fold_left]; [exact H|].
  apply IH. destruct (p r); [now apply Set_add_NoDup|exact H].
Qed.

Lemma add_all_as_add_if (l : list jsstring) :
  forall set,
    fold_left Set_add l set
    = fold_left (fun set r => if true then Set_add set r else set) l set.
Proof.
  induction l as [|r l IH]; intros set; [reflexivity|apply IH].
Qed.

Lemma add_all_In (l : list jsstring) (set : list jsstring) (y : jsstring) :
  In y (fold_left Set_add l set) <-> In y set \/ In y l.
Proof.
  rewrite add_all_as_add_if, (add_if_In (fun _ => true)). tauto.
Qed.

Lemma add_all_NoDup (l : list jsstring) (set : list jsstring) :
  NoDup set -> NoDup (fold_left Set_add l set).
Proof.
  rewrite add_all_as_add_if. apply (add_if_NoDup (fun _ => true)).
Qed.

Lemma state_eqb_eq (a b : ReviewState) : state_eqb a b = true <-> a = b.
Proof.
  destruct a, b; cbn; split; intros H; try reflexivity; discriminate.
Qed.

Lemma reviewers_in_state (reviews : list Review) (prNumber : Z)
    (st : ReviewState) (reviewer : jsstring) :
  In reviewer
     (map reviewer_username
        (filter (fun r => state_eqb (review_state r) st)
           (filter (fun r => Z.eqb (review_pr_id r) prNumber
                             && is_latest_review r) reviews)))
  <-> latest_in_state reviews prNumber st reviewer.
Proof.
  unfold latest_in_state. rewrite in_map_iff. split.
  - intros (r & Hname & Hin). apply filter_In in Hin. destruct Hin as (Hin & Hst).
    apply filter_In in Hin. destruct Hin as (Hin & Hpr).
    apply andb_prop in Hpr. destruct Hpr as (Hpr & Hl).
    apply Z.eqb_eq in Hpr. apply state_eqb_eq in Hst.
    exists r. repeat split; assumption.
  - intros (r & Hin & Hpr & Hl & Hst & Hname).
    exists r. split; [exact Hname|].
    apply filter_In. split; [|now apply state_eqb_eq].
    apply filter_In. split; [exact Hin|].
    rewrite Hl, Bool.andb_true_r. now apply Z.eqb_eq.
Qed.

Lemma not_author_In (prAuthor : jsstring) (l : list jsstring) (x : jsstring) :
  In x (filter (fun reviewer => negb (jsstring_eqb reviewer prAuthor)) l)
  <-> In x l /\ x <> prAuthor.
Proof.
  rewrite filter_In. split; intros (H & Hx); (split; [exact H|]).
  - intros ->. rewrite (proj2 (jsstring_eqb_eq prAuthor prAuthor) eq_refl) in Hx.
    discriminate.
  - destruct (jsstring_eqb x prAuthor) eqn:E; [|reflexivity].
    apply jsstring_eqb_eq in E. contradiction.
Qed.

Lemma pending_reviewers_NoDup reviews prNumber requestedReviewers prAuthor :
  NoDup (getPendingReviewers reviews prNumber requestedReviewers prAuthor).
Proof.
  unfold getPendingReviewers. cbv zeta.
  apply add_if_NoDup, add_all_NoDup, add_if_NoDup. constructor.
Qed.

Lemma pending_reviewers_In reviews prNumber requestedReviewers prAuthor
    (reviewer : jsstring) :
  In reviewer (getPendingReviewers reviews prNumber requestedReviewers prAuthor)
  <-> reviewer <> prAuthor
      /\ (latest_in_state reviews prNumber changes_requested reviewer
          \/ (In reviewer requestedReviewers
              \/ latest_in_state reviews prNumber commented reviewer)
             /\ ~ latest_in_state reviews prNumber approved reviewer).
Proof.
  unfold getPendingReviewers. cbv zeta.
  rewrite add_if_In, add_all_In, add_if_In.
  rewrite !not_author_In, !reviewers_in_state.
  rewrite !Bool.negb_true_iff, includes_not_In, reviewers_in_state.
  cbn [In]. tauto.
Qed.

(** X11. The pending reviewers of a pull request are listed without
    repetition and never include its author. A reviewer other than the
    author is pending exactly when their latest review requests changes, or
    when they were asked for a review or have commented and hold no latest
    review that approves. *)
Theorem pending_reviewers_spec :
  forall (reviews : list Review) (prNumber : Z)
         (requestedReviewers : list jsstring) (prAuthor : jsstring),
    let pending :=
      getPendingReviewers reviews prNumber requestedReviewers prAuthor in
    NoDup pending
    /\ ~ In prAuthor pending
    /\ forall reviewer,
         In reviewer pending
         <-> reviewer <> prAuthor
             /\ (latest_in_state reviews prNumber changes_requested reviewer
                 \/ (In reviewer requestedReviewers
                     \/ latest_in_state reviews prNumber commented reviewer)
                    /\ ~ latest_in_state reviews prNumber approved reviewer).
Proof.
  intros reviews prNumber requestedReviewers prAuthor pending. subst pending.
  split; [apply pending_reviewers_NoDup|]. split.
  - intros H. apply pending_reviewers_In in H. now destruct H as (H & _).
  - intros reviewer. apply pending_reviewers_In.
Qed.

(* ================================================================= *)
(** ** The reviews that a fetch stores *)

Lemma Map_get_set {V} (m : list (jsstring * V)) (k : jsstring) (v : V)
    (k' : jsstring) :
  Map_get (Map_set m k v) k'
  = if jsstring_eqb k k' then Some v else Map_get m k'.
Proof.
  unfold Map_get. induction m as [|[k0 v0] rest IH]; cbn [Map_set find fst].
  - destruct (jsstring_eqb k k'); reflexivity.
  - destruct (jsstring_eqb k0 k) eqn:E.
    + apply jsstring_eqb_eq in E. subst k0. cbn [find fst].
      destruct (jsstring_eqb k k'); reflexivity.
    + cbn [find fst]. destruct (jsstring_eqb k0 k') eqn:E'.
      * apply jsstring_eqb_eq in E'. subst k'.
        destruct (jsstring_eqb k k0) eqn:E2; [|reflexivity].
        apply jsstring_eqb_eq in E2. subst k0.
        rewrite (proj2 (jsstring_eqb_eq k k) eq_refl) in E. discriminate.
      * exact IH.
Qed.

Lemma Map_set_keys {V} (m : list (jsstring * V)) (k : jsstring) (v : V) :
  map fst (Map_set m k v) = Set_add (map fst m) k.
Proof.
  unfold Set_add, includes.
  induction m as [|[k0 v0] rest IH]; cbn [Map_set map fst existsb]; [reflexivity|].
  destruct (jsstring_eqb k0 k); cbn [orb map fst]; [reflexivity|].
  rewrite IH. destruct (existsb _ _); reflexivity.
Qed.

Lemma Map_get_In {V} (m : list (jsstring * V)) (k : jsstring) (v : V) :
  NoDup (map fst m) -> (In (k, v) m <-> Map_get m k = Some v).
Proof.
  unfold Map_get. induction m as [|[k0 v0] rest IH]; intros Hnd.
  - cbn. split; [intros []|discriminate].
  - cbn [map fst] in Hnd. inversion Hnd as [|? ? Hnotin Hnd']; subst.
    cbn [In find fst]. destruct (jsstring_eqb k0 k) eqn:E.
    + apply jsstring_eqb_eq in E. subst k0. cbn [option_map snd]. split.
      * intros [H | H]; [now injection H as ->|].
        exfalso. apply Hnotin. apply in_map_iff. now exists (k, v).
      * intros H. injection H as ->. now left.
    + rewrite <- (IH Hnd'). split.
      * intros [H | H]; [|exact H]. injection H as -> ->.
        rewrite (proj2 (jsstring_eqb_eq k k) eq_refl) in E. discriminate.
      * intros H. now right.
Qed.

Lemma keep_latest_keys (prReviews : list GitHubReview) :
  forall latest,
    NoDup (map fst latest) ->
    NoDup (map fst (fold_left keep_latest prReviews latest)).
Proof.
  induction prReviews as [|a rs IH]; intros latest H; [exact H|].
  cbn [fold_left]. apply IH. unfold keep_latest.
  destruct (gh_review_login a) as [login|]; [|exact H].
  destruct (truthy login); [|exact H].
  rewrite Map_set_keys. now apply Set_add_NoDup.
Qed.

Lemma keep_latest_lookup (login : jsstring) (prReviews : list GitHubReview) :
  forall latest,
    Map_get (fold_left keep_latest prReviews latest) login
    = last_review_from login (Map_get latest login) prReviews.
Proof.
  unfold last_review_from.
  induction prReviews as [|a rs IH]; intros latest; [reflexivity|].
  cbn [fold_left]. rewrite IH. f_equal.
  unfold keep_latest, kept_login.
  destruct (gh_review_login a) as [l|]; [|reflexivity].
  destruct (truthy l); [|reflexivity].
  apply Map_get_set.
Qed.

Lemma fetchPRReviews_stored (prReviews : list GitHubReview)
    (reviews : list Review) (prNumber : Z) :
  fetchPRReviews (Some prReviews) reviews prNumber
  = filter (fun r => negb (Z.eqb (review_pr_id r) prNumber)) reviews
    ++ map (fun entry => stored_review prNumber (fst entry) (snd entry))
           (fold_left keep_latest prReviews []).
Proof.
  unfold fetchPRReviews. cbv zeta.
  change (fold_left _ prReviews []) with (fold_left keep_latest prReviews []).
  generalize (fold_left keep_latest prReviews []).
  generalize (filter (fun r => negb (Z.eqb (review_pr_id r) prNumber)) reviews).
  intros kept latest. revert kept.
  induction latest as [|[reviewer review] latest IH]; intros kept.
  - cbn. now rewrite app_nil_r.
  - cbn [fold_left map fst snd]. rewrite IH, <- app_assoc. reflexivity.
Qed.

Lemma stored_reviews_of_pr (prReviews : list GitHubReview)
    (reviews : list Review) (prNumber : Z) (p : Review -> bool) :
  (forall r, review_pr_id r = prNumber -> is_latest_review r = true ->
             p r = true) ->
  (forall r, review_pr_id r <> prNumber -> p r = false) ->
  filter p (fetchPRReviews (Some prReviews) reviews prNumber)
  = map (fun entry => stored_review prNumber (fst entry) (snd entry))
        (fold_left keep_latest prReviews []).
Proof.
  intros Hyes Hno. rewrite fetchPRReviews_stored, filter_app.
  rewrite filter_none, filter_all; [reflexivity| |].
  - intros r Hr. apply in_map_iff in Hr. destruct Hr as (e & <- & _).
    now apply Hyes.
  - intros r Hr. apply filter_In in Hr. destruct Hr as (_ & Hr).
    apply Hno. intros E. apply Z.eqb_eq in E. now rewrite E in Hr.
Qed.

Lemma stored_latest_in_state (prReviews : list GitHubReview)
    (reviews : list Review) (prNumber : Z) (st : ReviewState)
    (login : jsstring) :
  latest_in_state (fetchPRReviews (Some prReviews) reviews prNumber)
    prNumber st login
  <-> last_review_in_state prReviews st login.
Proof.
  unfold latest_in_state, last_review_in_state, last_review_of.
  rewrite fetchPRReviews_stored.
  pose proof (keep_latest_keys prReviews [] (NoDup_nil _)) as Hnd.
  pose proof (keep_latest_lookup login prReviews []) as Hget.
  change (Map_get [] login) with (@None GitHubReview) in Hget.
  set (latest := fold_left keep_latest prReviews []) in *.
  split.
  - intros (r & Hin & Hpr & _ & Hst & Hname).
    apply in_app_iff in Hin. destruct Hin as [Hin | Hin].
    + apply filter_In in Hin. destruct Hin as (_ & Hin).
      apply Z.eqb_eq in Hpr. now rewrite Hpr in Hin.
    + apply in_map_iff in Hin. destruct Hin as ([k a] & <- & Hin).
      cbn [fst snd stored_review reviewer_username review_state] in *.
      subst k. exists a. split; [|exact Hst].
      rewrite <- Hget. now apply Map_get_In.
  - intros (a & Hlast & Hst). rewrite <- Hget in Hlast.
    apply Map_get_In in Hlast; [|exact Hnd].
    exists (stored_review prNumber login a). split.
    + apply in_app_iff. right. apply in_map_iff. now exists (login, a).
    + repeat split. exact Hst.
Qed.

Lemma distinct_keys_filter {K V} (key : V -> K) (keep : V -> bool) :
  forall entries : list V,
    NoDup (map key entries) -> NoDup (map key (filter keep entries)).
Proof.
  intros entries. induction entries as [|e entries IH]; intros H; [constructor|].
  cbn [map] in H. inversion H as [|? ? Hnotin Hnd]; subst.
  cbn [filter]. destruct (keep e); [|now apply IH].
  cbn [map]. constructor; [|now apply IH].
  intros Hin. apply Hnotin. apply in_map_iff in Hin.
  destruct Hin as (x & Hx & Hin). apply filter_In in Hin.
  apply in_map_iff. exists x. now split.
Qed.

(** X12. After a fetch that GitHub answered, the store holds for the pull
    request one review for each reviewer that GitHub's list names, made of
    the last review of that reviewer in the list and marked as the latest;
    a review without a login is dropped. The reviews of the other pull
    requests stay as they were, in their order. A fetch that fails leaves
    the whole store as it was. *)
Theorem fetched_reviews_latest_per_reviewer :
  forall (prReviews : list GitHubReview) (reviews : list Review)
         (prNumber : Z),
    let after := fetchPRReviews (Some prReviews) reviews prNumber in
    let other := fun r => negb (Z.eqb (review_pr_id r) prNumber) in
    filter other after = filter other reviews
    /\ NoDup (map reviewer_username
                (filter (fun r => Z.eqb (review_pr_id r) prNumber) after))
    /\ (forall r,
          In r after -> review_pr_id r = prNumber ->
          exists review,
            last_review_of (reviewer_username r) prReviews = Some review
            /\ r = stored_review prNumber (reviewer_username r) review)
    /\ (forall login review,
          last_review_of login prReviews = Some review ->
          In (stored_review prNumber login review) after)
    /\ fetchPRReviews None reviews prNumber = reviews.
Proof.
  intros prReviews reviews prNumber after other. subst after other.
  pose proof (keep_latest_keys prReviews [] (NoDup_nil _)) as Hnd.
  split; [|split; [|split; [|split]]].
  - rewrite fetchPRReviews_stored, filter_app.
    rewrite (filter_none _ (map _ _)).
    + rewrite app_nil_r. apply filter_all.
      intros r Hr. apply filter_In in Hr. now destruct Hr.
    + intros r Hr. apply in_map_iff in Hr. destruct Hr as (e & <- & _).
      cbn [stored_review review_pr_id]. now rewrite Z.eqb_refl.
  - rewrite stored_reviews_of_pr.
    + rewrite map_map. cbn [stored_review reviewer_username]. exact Hnd.
    + intros r Hr _. now apply Z.eqb_eq.
    + intros r Hr. now apply Z.eqb_neq.
  - intros r Hin Hpr.
    destruct (proj1 (stored_latest_in_state prReviews reviews prNumber
                       (review_state r) (reviewer_username r)))
      as (a & Hlast & Hst).
    { exists r. repeat split; try assumption.
      rewrite fetchPRReviews_stored in Hin. apply in_app_iff in Hin.
      destruct Hin as [Hin | Hin].
      - apply filter_In in Hin. destruct Hin as (_ & Hin).
        apply Z.eqb_eq in Hpr. now rewrite Hpr in Hin.
      - apply in_map_iff in Hin. now destruct Hin as (e & <- & _). }
    exists a. split; [exact Hlast|].
    rewrite fetchPRReviews_stored in Hin. apply in_app_iff in Hin.
    destruct Hin as [Hin | Hin].
    + apply filter_In in Hin. destruct Hin as (_ & Hin).
      apply Z.eqb_eq in Hpr. now rewrite Hpr in Hin.
    + apply in_map_iff in Hin. destruct Hin as ([k b] & <- & Hin).
      cbn [fst snd stored_review reviewer_username] in *.
      apply (Map_get_In _ _ _ Hnd) in Hin.
      rewrite keep_latest_lookup in Hin. unfold last_review_of in Hlast.
      change (Map_get [] k) with (@None GitHubReview) in Hin.
      rewrite Hlast in Hin. now injection Hin as ->.
  - intros login a Hlast. unfold last_review_of in Hlast.
    rewrite fetchPRReviews_stored. apply in_app_iff. right.
    apply in_map_iff. exists (login, a). split; [reflexivity|].
    apply (Map_get_In _ _ _ Hnd). now rewrite keep_latest_lookup.
  - reflexivity.
Qed.

(** X13. After a fetch that GitHub answered, the approvals counted for the
    pull request are the reviewers whose last review in GitHub's list
    approves, each counted once however many reviews they gave. None of them
    is pending, whoever was asked for a review; and every reviewer other
    than the author whose last review requests changes is pending. *)
Theorem approvals_after_fetch :
  forall (prReviews : list GitHubReview) (reviews : list Review)
         (prNumber : Z),
    let after := fetchPRReviews (Some prReviews) reviews prNumber in
    (exists approvers,
        NoDup approvers
        /\ (forall login,
              In login approvers
              <-> last_review_in_state prReviews approved login)
        /\ countApprovals after prNumber = length approvers)
    /\ (forall login requestedReviewers prAuthor,
          last_review_in_state prReviews approved login ->
          ~ In login (getPendingReviewers after prNumber requestedReviewers
                        prAuthor))
    /\ (forall login requestedReviewers prAuthor,
          last_review_in_state prReviews changes_requested login ->
          login <> prAuthor ->
          In login (getPendingReviewers after prNumber requestedReviewers
                      prAuthor)).
Proof.
  intros prReviews reviews prNumber after. subst after.
  split; [|split].
  - exists (map reviewer_username
              (filter (fun r => state_eqb (review_state r) approved)
                 (filter (fun r => Z.eqb (review_pr_id r) prNumber
                                   && is_latest_review r)
                    (fetchPRReviews (Some prReviews) reviews prNumber)))).
    split; [|split].
    + rewrite stored_reviews_of_pr.
      * apply distinct_keys_filter. rewrite map_map.
        cbn [stored_review reviewer_username].
        apply keep_latest_keys. constructor.
      * intros r Hr Hl. rewrite Hl, Bool.andb_true_r. now apply Z.eqb_eq.
      * intros r Hr. apply Z.eqb_neq in Hr. now rewrite Hr.
    + intros login. rewrite reviewers_in_state. apply stored_latest_in_state.
    + unfold countApprovals. cbv zeta. now rewrite length_map.
  - intros login requestedReviewers prAuthor Happ Hin.
    apply pending_reviewers_In in Hin.
    rewrite !stored_latest_in_state in Hin.
    destruct Hin as (_ & [(a & Ha & Hst) | (_ & Hnot)]); [|contradiction].
    destruct Happ as (b & Hb & Hst'). rewrite Ha in Hb. injection Hb as <-.
    congruence.
  - intros login requestedReviewers prAuthor Hcr Hneq.
    apply pending_reviewers_In. rewrite !stored_latest_in_state.
    split; [exact Hneq|now left].
Qed.

(* ================================================================= *)
(** ** The comments that a fetch stores *)






(* ================================================================= *)
(** ** Rate limiter *)

Local Open Scope Z_scope.

Lemma jsstring_eqb_refl (a : jsstring) : jsstring_eqb a a = true.
Proof. now apply jsstring_eqb_eq. Qed.

Lemma jsstring_eqb_neq (a b : jsstring) : jsstring_eqb a b = false <-> a <> b.
Proof.
  rewrite <- jsstring_eqb_eq. destruct (jsstring_eqb a b); split; intros H.
  - discriminate.
  - now elim H.
  - discriminate.
  - reflexivity.
Qed.

Lemma rateLimit_cases (now : Z) (clientIP : jsstring)
    (requestCounts : list (jsstring * ClientData)) :
  (exists fresh,
      (Map_get requestCounts clientIP = None
       \/ exists old, Map_get requestCounts clientIP = Some old
                      /\ resetTime old < now)
      /\ fresh = {| count := 1; resetTime := now + RATE_WINDOW |}
      /\ rateLimit now clientIP requestCounts
         = (Map_set requestCounts clientIP fresh, Next))
  \/ (exists old,
         Map_get requestCounts clientIP = Some old
         /\ now <= resetTime old /\ count old < RATE_LIMIT
         /\ rateLimit now clientIP requestCounts
            = (Map_set requestCounts clientIP
                 {| count := count old + 1; resetTime := resetTime old |},
               Next))
  \/ (exists old,
         Map_get requestCounts clientIP = Some old
         /\ now <= resetTime old /\ RATE_LIMIT <= count old
         /\ rateLimit now clientIP requestCounts
            = (requestCounts, RateLimitExceeded)).
Proof.
  unfold rateLimit. cbv zeta.
  destruct (Map_get requestCounts clientIP) as [old|].
  - destruct (now >? resetTime old) eqn:E.
    + left. eexists. split; [right; exists old; split; [reflexivity|lia]|].
      split; reflexivity.
    + right. destruct (count old <? RATE_LIMIT) eqn:E'.
      * left. exists old. repeat split; try reflexivity; lia.
      * right. exists old. repeat split; try reflexivity; lia.
  - left. eexists. split; [now left|]. split; reflexivity.
Qed.

Lemma rateLimit_other (now : Z) (clientIP other : jsstring)
    (requestCounts : list (jsstring * ClientData)) :
  clientIP <> other ->
  Map_get (fst (rateLimit now clientIP requestCounts)) other
  = Map_get requestCounts other.
Proof.
  intros Hneq. apply jsstring_eqb_neq in Hneq.
  destruct (rateLimit_cases now clientIP requestCounts)
    as [(fresh & _ & _ & ->) | [(old & _ & _ & _ & ->) | (old & _ & _ & _ & ->)]];
    cbn [fst]; rewrite ?Map_get_set, ?Hneq; reflexivity.
Qed.

(** X15. The rate limiter lets a request through and opens a window of one
    hour with the count 1 when the client is unknown or its window has run
    out, strictly after the reset time; within the window it lets the
    request through and counts it while the count is below the limit;
    otherwise it answers 429 and leaves the map as it is. In every case the
    entries of the other clients are untouched, and counts that lie between 1
    and the limit keep doing so. *)
Theorem rate_limiter_step :
  forall (now : Z) (clientIP : jsstring)
         (requestCounts : list (jsstring * ClientData)),
    let requestCounts' := fst (rateLimit now clientIP requestCounts) in
    let verdict := snd (rateLimit now clientIP requestCounts) in
    let expired :=
      match Map_get requestCounts clientIP with
      | None => True
      | Some old => resetTime old < now
      end in
    (expired ->
     verdict = Next
     /\ Map_get requestCounts' clientIP
        = Some {| count := 1; resetTime := now + 3600000 |})
    /\ (forall old,
          Map_get requestCounts clientIP = Some old ->
          now <= resetTime old ->
          (count old < RATE_LIMIT ->
           verdict = Next
           /\ Map_get requestCounts' clientIP
              = Some {| count := count old + 1; resetTime := resetTime old |})
          /\ (RATE_LIMIT <= count old ->
              verdict = RateLimitExceeded /\ requestCounts' = requestCounts))
    /\ (forall other,
          other <> clientIP ->
          Map_get requestCounts' other = Map_get requestCounts other)
    /\ (within_limit requestCounts -> within_limit requestCounts').
Proof.
  intros now clientIP requestCounts requestCounts' verdict expired.
  subst requestCounts' verdict expired.
  pose proof (rateLimit_cases now clientIP requestCounts) as Hcases.
  split; [|split; [|split]].
  - intros Hexp.
    destruct Hcases as [(fresh & _ & -> & ->)
                       | [(old & Hold & Hle & _) | (old & Hold & Hle & _)]].
    + cbn [fst snd]. split; [reflexivity|].
      now rewrite Map_get_set, jsstring_eqb_refl.
    + rewrite Hold in Hexp. lia.
    + rewrite Hold in Hexp. lia.
  - intros old Hold Hle.
    destruct Hcases as [(fresh & Hfresh & _) | [(old' & Hold' & _ & Hlt & ->)
                                               | (old' & Hold' & _ & Hge & ->)]].
    + destruct Hfresh as [Hnone | (old' & Hold' & Hlt)].
      * rewrite Hold in Hnone. discriminate.
      * rewrite Hold in Hold'. injection Hold' as <-. lia.
    + rewrite Hold in Hold'. injection Hold' as <-. cbn [fst snd]. split.
      * intros _. split; [reflexivity|].
        now rewrite Map_get_set, jsstring_eqb_refl.
      * intros Hge. lia.
    + rewrite Hold in Hold'. injection Hold' as <-. cbn [fst snd]. split.
      * intros Hlt. lia.
      * intros _. split; reflexivity.
  - intros other Hneq. apply rateLimit_other. congruence.
  - intros Hlim other d Hget.
    destruct (jsstring_eqb clientIP other) eqn:E.
    + apply jsstring_eqb_eq in E. subst other.
      destruct Hcases as [(fresh & _ & -> & Heq)
                         | [(old & Hold & _ & Hlt & Heq) | (old & _ & _ & _ & Heq)]];
        rewrite Heq in Hget; cbn [fst] in Hget.
      * rewrite Map_get_set, jsstring_eqb_refl in Hget. injection Hget as <-.
        cbn [count]. unfold RATE_LIMIT. lia.
      * rewrite Map_get_set, jsstring_eqb_refl in Hget. injection Hget as <-.
        cbn [count]. specialize (Hlim clientIP old Hold). lia.
      * now apply (Hlim clientIP).
    + apply jsstring_eqb_neq in E. rewrite rateLimit_other in Hget by exact E.
      now apply (Hlim other).
Qed.

Lemma serve_cons (now : Z) (clientIP : jsstring) (rest : list (Z * jsstring))
    (requestCounts : list (jsstring * ClientData)) :
  fst (serve ((now, clientIP) :: rest) requestCounts)
  = snd (rateLimit now clientIP requestCounts)
    :: fst (serve rest (fst (rateLimit now clientIP requestCounts))).
Proof.
  cbn [serve]. destruct (rateLimit now clientIP requestCounts) as [m v].
  cbn [fst snd]. destruct (serve rest m). reflexivity.
Qed.

Lemma passed_of_cons (clientIP : jsstring) (request : Z * jsstring)
    (rest : list (Z * jsstring)) (v : Verdict) (vs : list Verdict) :
  passed_of clientIP (request :: rest) (v :: vs)
  = if jsstring_eqb (snd request) clientIP && is_next v
    then (request, v) :: passed_of clientIP rest vs
    else passed_of clientIP rest vs.
Proof. reflexivity. Qed.

Lemma requests_of_cons (clientIP : jsstring) (request : Z * jsstring)
    (rest : list (Z * jsstring)) :
  requests_of clientIP (request :: rest)
  = if jsstring_eqb (snd request) clientIP
    then request :: requests_of clientIP rest
    else requests_of clientIP rest.
Proof. reflexivity. Qed.

(** X16. While the window of a client lasts, the requests of that client
    that are let through are as many as fit below the limit and no more,
    whatever other clients do in between: with the count at [c] and all the
    client's requests arriving no later than its reset time, the first
    [RATE_LIMIT - c] of them pass and the others are answered 429. *)
Theorem rate_limiter_bound :
  forall (requests : list (Z * jsstring))
         (requestCounts : list (jsstring * ClientData))
         (clientIP : jsstring) (clientData : ClientData),
    Map_get requestCounts clientIP = Some clientData ->
    count clientData <= RATE_LIMIT ->
    (forall now, In (now, clientIP) requests -> now <= resetTime clientData) ->
    Z.of_nat (length (passed_of clientIP requests
                        (fst (serve requests requestCounts))))
    = Z.min (Z.of_nat (length (requests_of clientIP requests)))
            (RATE_LIMIT - count clientData).
Proof.
  induction requests as [|[now ip] rest IH];
    intros requestCounts clientIP clientData Hget Hle Htimes.
  - unfold passed_of, requests_of.
    cbn [serve fst combine filter length Z.of_nat]. lia.
  - rewrite serve_cons, passed_of_cons, requests_of_cons.
    change (snd (now, ip)) with ip.
    assert (Hrest : forall t, In (t, clientIP) rest -> t <= resetTime clientData).
    { intros t Ht. apply Htimes. now right. }
    destruct (jsstring_eqb ip clientIP) eqn:E.
    + apply jsstring_eqb_eq in E. subst ip.
      assert (Hnow : now <= resetTime clientData) by (apply Htimes; now left).
      destruct (rateLimit_cases now clientIP requestCounts)
        as [(fresh & Hfresh & _) | [(old & Hold & _ & Hlt & Heq)
                                   | (old & Hold & _ & Hge & Heq)]].
      * destruct Hfresh as [Hnone | (old & Hold & Hlt)].
        -- rewrite Hget in Hnone. discriminate.
        -- rewrite Hget in Hold. injection Hold as <-. lia.
      * rewrite Hget in Hold. injection Hold as <-. rewrite Heq.
        cbn [fst snd is_next andb length].
        rewrite !Nat2Z.inj_succ.
        rewrite (IH _ clientIP
                   {| count := count clientData + 1;
                      resetTime := resetTime clientData |}).
        -- cbn [count]. lia.
        -- now rewrite Map_get_set, jsstring_eqb_refl.
        -- cbn [count]. lia.
        -- exact Hrest.
      * rewrite Hget in Hold. injection Hold as <-. rewrite Heq.
        cbn [fst snd is_next andb length].
        rewrite !Nat2Z.inj_succ.
        rewrite (IH _ clientIP clientData Hget Hle Hrest). lia.
    + cbn [andb]. apply jsstring_eqb_neq in E.
      apply (IH _ clientIP clientData); [|exact Hle|exact Hrest].
      rewrite rateLimit_other by exact E. exact Hget.
Qed.

Lemma rate_limiter_bound_witness :
  let ip := str "10.0.0.7" in
  let requestCounts := [(ip, {| count := 999999; resetTime := 5000 |})] in
  let requests := [(1000, ip); (2000, str "10.0.0.8"); (3000, ip); (4000, ip)] in
  Z.of_nat (length (passed_of ip requests (fst (serve requests requestCounts))))
  = Z.min 3 1.
Proof.
  intros ip requestCounts requests.
  apply (rate_limiter_bound requests requestCounts ip
           {| count := 999999; resetTime := 5000 |}).
  - reflexivity.
  - vm_compute. discriminate.
  - intros now [H | [H | [H | [H | []]]]]; injection H as <-;
      try discriminate; cbn; lia.
Defined.

Local Open Scope nat_scope.

(* ================================================================= *)
(** ** The language of a file *)

Lemma split_on_nonempty (sep : N) (s : jsstring) : split_on sep s <> [].
Proof.
  destruct s as [|c s]; cbn [split_on]; [discriminate|].
  destruct (N.eqb c sep); [discriminate|].
  destruct (split_on sep s); discriminate.
Qed.

Lemma last_cons_nonempty {A} (x : A) (l : list A) (d : A) :
  l <> [] -> last (x :: l) d = last l d.
Proof. destruct l; [contradiction|reflexivity]. Qed.

Lemma split_on_two (sep : N) (a b : jsstring) :
  exists s1 s2 rest, split_on sep (a ++ sep :: b) = s1 :: s2 :: rest.
Proof.
  induction a as [|c a IH]; cbn [app split_on].
  - rewrite N.eqb_refl. destruct (split_on sep b) as [|s2 rest] eqn:E.
    + now apply split_on_nonempty in E.
    + eauto.
  - destruct IH as (s1 & s2 & rest & ->).
    destruct (N.eqb c sep); eauto.
Qed.

Lemma last_segment (sep : N) (a b : jsstring) :
  last (split_on sep (a ++ sep :: b)) [] = last (split_on sep b) [].
Proof.
  induction a as [|c a IH]; cbn [app split_on].
  - rewrite N.eqb_refl. apply last_cons_nonempty, split_on_nonempty.
  - destruct (split_on_two sep a b) as (s1 & s2 & rest & E).
    rewrite E in *. destruct (N.eqb c sep); exact IH.
Qed.

Lemma split_on_no_sep (sep : N) (s : jsstring) :
  ~ In sep s -> split_on sep s = [s].
Proof.
  induction s as [|c s IH]; intros H; [reflexivity|].
  cbn [split_on]. destruct (N.eqb c sep) eqn:E.
  - apply N.eqb_eq in E. subst c. elim H. now left.
  - rewrite IH; [reflexivity|]. intros Hin. apply H. now right.
Qed.

Lemma toLowerCase_unit_not_capital (c : N) :
  is_capital (toLowerCase_unit c) = false.
Proof.
  unfold toLowerCase_unit, is_capital.
  destruct (N.leb 65 c && N.leb c 90) eqn:E1.
  - apply andb_prop in E1. destruct E1 as (H1 & H2).
    apply N.leb_le in H1, H2. apply Bool.andb_false_iff. right.
    apply N.leb_gt. lia.
  - destruct (N.leb 192 c && N.leb c 222 && negb (N.eqb c 215)) eqn:E2.
    + apply andb_prop in E2. destruct E2 as (E2 & _).
      apply andb_prop in E2. destruct E2 as (H1 & H2).
      apply N.leb_le in H1, H2. apply Bool.andb_false_iff. right.
      apply N.leb_gt. lia.
    + destruct (N.eqb c 8490); [reflexivity|exact E1].
Qed.

Lemma toLowerCase_no_capital (s : jsstring) :
  existsb is_capital (toLowerCase s) = false.
Proof.
  induction s as [|c s IH]; [reflexivity|].
  cbn [toLowerCase map existsb]. fold (toLowerCase s).
  now rewrite toLowerCase_unit_not_capital, IH.
Qed.

Lemma inherited_keys_in_lower_case (s : jsstring) :
  includes Object_prototype_keys (toLowerCase s) = true ->
  toLowerCase s = str "constructor" \/ toLowerCase s = str "__proto__".
Proof.
  intros H. apply includes_In in H.
  pose proof (toLowerCase_no_capital s) as Hcap.
  unfold Object_prototype_keys in H. cbn [map In] in H.
  repeat match type of H with
         | _ \/ _ => destruct H as [H | H]
         end;
    try contradiction;
    try (rewrite <- H in Hcap; vm_compute in Hcap; discriminate);
    [left | right]; now symmetry.
Qed.

(** X17. The language of a file is decided by what follows the last dot of
    its path, whatever the letter case; a path without a dot counts as its
    own extension. For an extension that the table lists the answer is the
    language that the table gives for it; for "constructor" and "__proto__"
    the lookup finds what the object inherits, and the function returns
    that instead of a string; for every other extension the answer is
    "text". *)
Theorem language_from_last_extension :
  forall (filePath : jsstring),
    let extension := toLowerCase (last (split_on 46 filePath) []) in
    (forall dir, getLanguageFromPath (dir ++ [46%N] ++ filePath)
                 = getLanguageFromPath filePath)
    /\ (forall other,
          ~ In 46%N filePath -> ~ In 46%N other ->
          toLowerCase filePath = toLowerCase other ->
          getLanguageFromPath filePath = getLanguageFromPath other)
    /\ (forall listed name,
          In (listed, name) languageMap ->
          extension = str listed ->
          getLanguageFromPath filePath = LanguageName (str name))
    /\ (extension = str "constructor" \/ extension = str "__proto__" ->
        getLanguageFromPath filePath = InheritedProperty extension)
    /\ ((forall listed name,
            In (listed, name) languageMap -> extension <> str listed) ->
        extension <> str "constructor" ->
        extension <> str "__proto__" ->
        getLanguageFromPath filePath = LanguageName (str "text")).
Proof.
  intros filePath extension.
  assert (Hkey : (if truthy extension then extension else []) = extension).
  { destruct extension; reflexivity. }
  split; [|split; [|split; [|split]]].
  - intros dir. unfold getLanguageFromPath. cbn [app].
    now rewrite last_segment.
  - intros other Hf Ho Hlow. unfold getLanguageFromPath.
    rewrite (split_on_no_sep 46 filePath Hf), (split_on_no_sep 46 other Ho).
    cbn [last]. now rewrite Hlow.
  - intros listed name Hin Hext. unfold getLanguageFromPath. cbv zeta.
    fold extension. rewrite Hkey, Hext. clear Hkey Hext.
    unfold languageMap in Hin. cbn [In] in Hin.
    repeat match type of Hin with
           | _ \/ _ => destruct Hin as [Hin | Hin]
           end;
      try contradiction;
      injection Hin as <- <-; vm_compute; reflexivity.
  - intros Hext. unfold getLanguageFromPath. cbv zeta.
    fold extension. rewrite Hkey.
    destruct Hext as [-> | ->]; vm_compute; reflexivity.
  - intros Hnot Hc Hp. unfold getLanguageFromPath. cbv zeta.
    fold extension. rewrite Hkey.
    destruct (find _ languageMap) as [[listed name]|] eqn:E.
    + exfalso. apply find_some in E. destruct E as (Hin & Heq).
      cbn [fst] in Heq. apply jsstring_eqb_eq in Heq.
      now apply (Hnot listed name Hin).
    + destruct (includes Object_prototype_keys extension) eqn:Ei;
        [|reflexivity].
      exfalso. apply inherited_keys_in_lower_case in Ei.
      destruct Ei as [Ei | Ei]; [now apply Hc | now apply Hp].
Qed.

Lemma language_from_last_extension_witness :
  getLanguageFromPath (str "crates/router/src/Core.RS")
  = LanguageName (str "rust")
  /\ getLanguageFromPath (str "docs/notes.constructor")
     = InheritedProperty (str "constructor")
  /\ getLanguageFromPath (str "Makefile") = LanguageName (str "text").
Proof.
  split; [|split].
  - apply (proj1 (proj2 (proj2
             (language_from_last_extension (str "crates/router/src/Core.RS"))))
             "rs"%string "rust"%string).
    + now left.
    + reflexivity.
  - apply (proj1 (proj2 (proj2 (proj2
             (language_from_last_extension (str "docs/notes.constructor")))))).
    left. reflexivity.
  - apply (proj2 (proj2 (proj2 (proj2
             (language_from_last_extension (str "Makefile")))))).
    + intros listed name Hin Heq. unfold languageMap in Hin. cbn [In] in Hin.
      repeat match type of Hin with
             | _ \/ _ => destruct Hin as [Hin | Hin]
             end;
        try contradiction;
        injection Hin as <- <-; vm_compute in Heq; discriminate.
    + intro Heq. vm_compute in Heq. discriminate.
    + intro Heq. vm_compute in Heq. discriminate.
Defined.

(* ================================================================= *)
(** ** The lines of a code context *)

Lemma split_on_segments (sep : N) (s : jsstring) :
  Forall (fun segment => ~ In sep segment) (split_on sep s).
Proof.
  induction s as [|c s IH]; cbn [split_on].
  - constructor; [intros []|constructor].
  - destruct (N.eqb c sep) eqn:E.
    + constructor; [intros []|exact IH].
    + destruct (split_on sep s) as [|segment segments].
      * constructor; [|constructor]. intros [H | []].
        subst c. now rewrite N.eqb_refl in E.
      * inversion IH as [|? ? Hs Hrest]; subst. constructor; [|exact Hrest].
        intros [H | H]; [|now apply Hs].
        subst c. now rewrite N.eqb_refl in E.
Qed.

Lemma split_on_app (sep : N) (a b : jsstring) :
  ~ In sep a -> split_on sep (a ++ sep :: b) = a :: split_on sep b.
Proof.
  induction a as [|c a IH]; intros H; cbn [app split_on].
  - now rewrite N.eqb_refl.
  - destruct (N.eqb c sep) eqn:E.
    + apply N.eqb_eq in E. subst c. elim H. now left.
    + rewrite IH; [reflexivity|]. intros Hin. apply H. now right.
Qed.

Lemma split_join (sep : N) (l : list jsstring) :
  l <> [] ->
  Forall (fun segment => ~ In sep segment) l ->
  split_on sep (Array_join sep l) = l.
Proof.
  induction l as [|s l IH]; intros Hne Hf; [contradiction|].
  inversion Hf as [|? ? Hs Hl]; subst.
  destruct l as [|s' l'].
  - cbn [Array_join]. now apply split_on_no_sep.
  - change (Array_join sep (s :: s' :: l'))
      with (s ++ sep :: Array_join sep (s' :: l')).
    rewrite split_on_app by exact Hs. f_equal.
    apply IH; [discriminate|exact Hl].
Qed.

Lemma Forall_firstn {A} (P : A -> Prop) (n : nat) (l : list A) :
  Forall P l -> Forall P (firstn n l).
Proof.
  intros H. rewrite Forall_forall in *. intros x Hx.
  apply H. rewrite <- (firstn_skipn n l). apply in_app_iff. now left.
Qed.

Lemma Forall_skipn {A} (P : A -> Prop) (n : nat) (l : list A) :
  Forall P l -> Forall P (skipn n l).
Proof.
  intros H. rewrite Forall_forall in *. intros x Hx.
  apply H. rewrite <- (firstn_skipn n l). apply in_app_iff. now right.
Qed.

Local Open Scope Z_scope.

Lemma Array_slice_within {A} (start end_ : Z) (l : list A) :
  0 <= start <= Z.of_nat (length l) ->
  0 <= end_ <= Z.of_nat (length l) ->
  Array_slice start end_ l
  = firstn (Z.to_nat (end_ - start)) (skipn (Z.to_nat start) l).
Proof.
  intros Hs He. unfold Array_slice. cbv zeta.
  replace (start <? 0) with false by (symmetry; apply Z.ltb_ge; lia).
  replace (end_ <? 0) with false by (symmetry; apply Z.ltb_ge; lia).
  now rewrite !Z.min_l by lia.
Qed.

Lemma fetchCodeContext_of_file (fileContent path : jsstring) (line : Z) :
  path <> [] -> line <> 0 ->
  fetchCodeContext (ContentEntry (str "file") fileContent)
    (mkCommentLocation (Some path) (Some line))
  = let lines := split_on 10 fileContent in
    let startLine := Z.max 0 (line - 5 - 1) in
    let endLine := Z.min (Z.of_nat (length lines)) (line + 5) in
    Some {| context_file_path := path;
            context_line_number := line;
            code_snippet := Array_join 10 (Array_slice startLine endLine lines);
            context_range :=
              Z_toString (startLine + 1) ++ str "-" ++ Z_toString endLine;
            language := getLanguageFromPath path |}.
Proof.
  intros Hpath Hline. unfold fetchCodeContext, no_location.
  cbn [file_path line_number truthy_opt].
  destruct path as [|c path]; [contradiction|]. cbn [truthy negb orb].
  replace (line =? 0) with false by (symmetry; apply Z.eqb_neq; exact Hline).
  reflexivity.
Qed.

(** X18. For a comment on a line that the file has, the code context holds
    the lines from five before the commented line to five after it, as far
    as the file reaches: at most eleven lines, the commented line among
    them at its place, and a range that names the first and the last of
    them, counted from 1. *)
Theorem code_context_window :
  forall (fileContent path : jsstring) (line : Z),
    path <> [] ->
    let lines := split_on 10 fileContent in
    1 <= line <= Z.of_nat (length lines) ->
    exists context,
      fetchCodeContext (ContentEntry (str "file") fileContent)
        (mkCommentLocation (Some path) (Some line)) = Some context
      /\ let first := Z.max 1 (line - 5) in
         let last_ := Z.min (Z.of_nat (length lines)) (line + 5) in
         let snippet := split_on 10 (code_snippet context) in
         first <= line <= last_
         /\ context_range context
            = Z_toString first ++ str "-" ++ Z_toString last_
         /\ snippet = firstn (Z.to_nat (last_ - first + 1))
                        (skipn (Z.to_nat (first - 1)) lines)
         /\ Z.of_nat (length snippet) = last_ - first + 1
         /\ (length snippet <= 11)%nat
         /\ nth_error snippet (Z.to_nat (line - first))
            = nth_error lines (Z.to_nat (line - 1))
         /\ context_file_path context = path
         /\ context_line_number context = line
         /\ language context = getLanguageFromPath path.
Proof.
  intros fileContent path line Hpath lines Hline.
  rewrite fetchCodeContext_of_file by (try assumption; lia).
  cbv zeta. fold lines. eexists. split; [reflexivity|].
  cbn [code_snippet context_range context_file_path context_line_number
       language].
  set (len := Z.of_nat (length lines)) in *.
  assert (Hstart : Z.max 0 (line - 5 - 1) = Z.max 1 (line - 5) - 1) by lia.
  rewrite Hstart.
  set (first := Z.max 1 (line - 5)).
  set (last_ := Z.min len (line + 5)).
  assert (Hf : 1 <= first <= line) by (subst first; lia).
  assert (Hl : line <= last_ <= len) by (subst last_; lia).
  assert (Hl11 : last_ - first + 1 <= 11) by (subst first last_; lia).
  rewrite Array_slice_within by (fold len; lia).
  replace (last_ - (first - 1)) with (last_ - first + 1) by lia.
  replace (first - 1 + 1) with first by lia.
  set (window := firstn (Z.to_nat (last_ - first + 1))
                   (skipn (Z.to_nat (first - 1)) lines)).
  assert (Hlen : length window = Z.to_nat (last_ - first + 1)).
  { subst window. rewrite length_firstn, length_skipn. subst len. lia. }
  assert (Hsplit : split_on 10 (Array_join 10 window) = window).
  { apply split_join.
    - intros E. rewrite E in Hlen. cbn [length] in Hlen. lia.
    - apply Forall_firstn, Forall_skipn, split_on_segments. }
  rewrite Hsplit.
  split; [lia|]. split; [reflexivity|]. split; [reflexivity|].
  split; [lia|]. split; [lia|]. split; [|repeat split].
  subst window. rewrite nth_error_firstn, nth_error_skipn.
  replace (Nat.ltb (Z.to_nat (line - first)) (Z.to_nat (last_ - first + 1)))
    with true by (symmetry; apply Nat.ltb_lt; lia).
  f_equal. lia.
Qed.

Lemma code_context_window_witness :
  let fileContent := str "fn main() {}" ++ [10%N] ++ str "// end" in
  exists context,
    fetchCodeContext (ContentEntry (str "file") fileContent)
      (mkCommentLocation (Some (str "src/main.rs")) (Some 2)) = Some context
    /\ context_range context = Z_toString 1 ++ str "-" ++ Z_toString 2
    /\ nth_error (split_on 10 (code_snippet context)) 1 = Some (str "// end").
Proof.
  intros fileContent.
  destruct (code_context_window fileContent (str "src/main.rs") 2)
    as (context & Hc & _ & Hrange & _ & _ & _ & Hnth & _).
  - discriminate.
  - vm_compute. split; discriminate.
  - exists context. split; [exact Hc|]. split; [exact Hrange|exact Hnth].
Defined.

(** X19. For a comment on a line beyond the end of the file a code context
    is returned all the same. Its snippet holds the last lines of the file
    from five before the commented line on and so not the commented line;
    when the line lies more than five lines beyond the end the snippet is
    empty and the range names a first line after its last. *)
Theorem code_context_beyond_end :
  forall (fileContent path : jsstring) (line : Z),
    path <> [] ->
    let lines := split_on 10 fileContent in
    Z.of_nat (length lines) < line ->
    exists context,
      fetchCodeContext (ContentEntry (str "file") fileContent)
        (mkCommentLocation (Some path) (Some line)) = Some context
      /\ context_range context
         = Z_toString (Z.max 1 (line - 5)) ++ str "-"
           ++ Z_toString (Z.of_nat (length lines))
      /\ code_snippet context
         = Array_join 10 (skipn (Z.to_nat (line - 6)) lines)
      /\ (Z.of_nat (length lines) + 5 < line ->
          code_snippet context = []
          /\ Z.of_nat (length lines) < Z.max 1 (line - 5)).
Proof.
  intros fileContent path line Hpath lines Hline.
  rewrite fetchCodeContext_of_file by (try assumption; lia).
  cbv zeta. fold lines. eexists. split; [reflexivity|].
  cbn [code_snippet context_range].
  set (len := Z.of_nat (length lines)) in *.
  assert (Hslice : Array_slice (Z.max 0 (line - 5 - 1)) (Z.min len (line + 5))
                     lines
                   = skipn (Z.to_nat (line - 6)) lines).
  { unfold Array_slice. cbv zeta. fold len.
    replace (Z.max 0 (line - 5 - 1) <? 0) with false
      by (symmetry; apply Z.ltb_ge; lia).
    replace (Z.min len (line + 5) <? 0) with false
      by (symmetry; apply Z.ltb_ge; lia).
    rewrite (Z.min_l len (line + 5)) by lia. rewrite Z.min_id.
    destruct (Z.le_gt_cases (line - 6) len) as [Hle | Hgt].
    - rewrite Z.min_l by lia.
      replace (Z.to_nat (Z.max 0 (line - 5 - 1))) with (Z.to_nat (line - 6))
        by lia.
      apply firstn_all2. rewrite length_skipn. subst len. lia.
    - rewrite Z.min_r by lia. replace (len - len) with 0 by lia.
      cbn [Z.to_nat firstn]. symmetry. apply length_zero_iff_nil.
      rewrite length_skipn. subst len. lia. }
  rewrite Hslice.
  split; [|split].
  - rewrite (Z.min_l len (line + 5)) by lia.
    replace (Z.max 0 (line - 5 - 1) + 1) with (Z.max 1 (line - 5)) by lia.
    reflexivity.
  - reflexivity.
  - intros Hfar. split; [|lia].
    replace (skipn (Z.to_nat (line - 6)) lines) with (@nil jsstring);
      [reflexivity|].
    symmetry. apply length_zero_iff_nil. rewrite length_skipn. subst len. lia.
Qed.

Lemma code_context_beyond_end_witness :
  let fileContent := str "fn main() {}" ++ [10%N] ++ str "// end" in
  exists context,
    fetchCodeContext (ContentEntry (str "file") fileContent)
      (mkCommentLocation (Some (str "src/main.rs")) (Some 30)) = Some context
    /\ context_range context = Z_toString 25 ++ str "-" ++ Z_toString 2
    /\ code_snippet context = [].
Proof.
  intros fileContent.
  destruct (code_context_beyond_end fileContent (str "src/main.rs") 30)
    as (context & Hc & Hrange & _ & Hfar).
  - discriminate.
  - vm_compute. reflexivity.
  - exists context. split; [exact Hc|]. split; [exact Hrange|].
    apply Hfar. vm_compute. reflexivity.
Defined.

(** X20. The cache of code contexts answers a second request for the same
    comment of the same pull request with what the first request returned,
    without asking GitHub again and without changing the map, whatever
    GitHub would answer by then; this holds as well when the first request
    failed and returned nothing. A comment without a file or a line is
    answered with nothing, and neither GitHub nor the map is touched. *)
Theorem code_context_cached :
  forall (response response' : ContentResponse)
         (codeContextCache : list (jsstring * option CodeContext))
         (comment : CommentLocation) (prNumber : Z),
    let first := getCachedCodeContext response codeContextCache comment
                   prNumber in
    let cache' := snd (fst first) in
    getCachedCodeContext response' cache' comment prNumber
    = (fst (fst first), cache', false)
    /\ (snd first = true ->
        fst (fst first) = fetchCodeContext response comment)
    /\ (no_location comment = true ->
        first = (None, codeContextCache, false)).
Proof.
  intros response response' codeContextCache comment prNumber first cache'.
  subst cache' first. unfold getCachedCodeContext.
  destruct (no_location comment) eqn:Eloc.
  - cbn [fst snd]. repeat split. discriminate.
  - destruct (file_path comment) as [path|];
      [|cbn [fst snd]; repeat split; discriminate].
    destruct (line_number comment) as [line|];
      [|cbn [fst snd]; repeat split; discriminate].
    cbv zeta.
    set (cacheKey := Z_toString prNumber ++ str ":" ++ path ++ str ":"
                     ++ Z_toString line).
    destruct (Map_get codeContextCache cacheKey) as [cached|] eqn:Eget.
    + cbn [fst snd]. rewrite Eget. repeat split; discriminate.
    + cbn [fst snd]. rewrite Map_get_set, jsstring_eqb_refl.
      repeat split. discriminate.
Qed.

Local Open Scope nat_scope.

(* ================================================================= *)
(** ** Status of the cache *)

Local Open Scope Z_scope.

Lemma SF_positive_not_negative (f : spec_float) :
  SFltb (S754_zero false) f = true -> SFltb f (S754_zero false) = false.
Proof.
  unfold SFltb, SFcompare.
  destruct f as [s|s| |s m e]; try discriminate; destruct s;
    try discriminate; reflexivity.
Qed.

Lemma Math_max_0_not_negative (x : float) :
  (Math_max 0 x <? 0)%float = false.
Proof.
  unfold Math_max.
  destruct (is_nan 0 || is_nan x); [reflexivity|].
  destruct (0 <? x)%float eqn:E1.
  - rewrite FloatAxioms.ltb_spec in *.
    change (Prim2SF 0) with (S754_zero false) in *.
    now apply SF_positive_not_negative.
  - destruct (x <? 0)%float; [reflexivity|].
    change (get_sign 0) with false. reflexivity.
Qed.

(** X21. The status endpoint never reports a negative number of minutes
    until expiry, and it reports no cache exactly when there is none. For an
    entry that [createCacheEntry] made at the time [t0], asked about while
    the store is the same, it reports validity until two hours after [t0],
    the age and the remaining time in minutes rounded from the clock, and at
    [t0] itself the age 0 and 120 minutes to go. *)
Theorem cache_status_of_entry :
  forall (st : Store) (t0 now now' : Z) (payload : CategorizationData),
    four_digit_year t0 ->
    four_digit_year (t0 + 7200000) ->
    (forall cache,
        match cacheStatus st now now' cache with
        | NotCached => cache = None
        | Cached _ _ _ _ _ expires_in_minutes _ =>
            cache <> None /\ (expires_in_minutes <? 0)%float = false
        end)
    /\ exists entry,
         createCacheEntry st t0 payload = Some entry
         /\ cacheStatus st now now' (Some entry)
            = Cached (now' <? t0 + 7200000) (generated_at entry)
                (expires_at entry) (generateDataVersionHash st)
                (Math_round (number_of_Z (now - t0) / 60000))
                (Math_max 0
                   (Math_round (number_of_Z (t0 + 7200000 - now) / 60000)))
                {| total_prs := total_prs_analyzed (overall_summary payload);
                   total_comments :=
                     total_comments_categorized (overall_summary payload);
                   avg_confidence :=
                     avg_confidence_score (overall_summary payload) |}
         /\ cacheStatus st t0 t0 (Some entry)
            = Cached true (generated_at entry) (expires_at entry)
                (generateDataVersionHash st) 0 120
                {| total_prs := total_prs_analyzed (overall_summary payload);
                   total_comments :=
                     total_comments_categorized (overall_summary payload);
                   avg_confidence :=
                     avg_confidence_score (overall_summary payload) |}.
Proof.
  intros st t0 now now' payload H0 H2. split.
  - intros [cache|]; cbn [cacheStatus]; [|reflexivity].
    split; [discriminate|apply Math_max_0_not_negative].
  - destruct (Date_roundtrip t0 H0) as (s0 & Hs0 & Hg0).
    destruct (Date_roundtrip (t0 + 7200000) H2) as (s2 & Hs2 & Hg2).
    assert (Hentry : createCacheEntry st t0 payload
                     = Some {| data := payload; generated_at := s0;
                               expires_at := s2;
                               version := generateDataVersionHash st |}).
    { unfold createCacheEntry. cbv zeta.
      replace (t0 + CACHE_EXPIRY_HOURS * 60 * 60 * 1000) with (t0 + 7200000)
        by (unfold CACHE_EXPIRY_HOURS; lia).
      rewrite Hs0, Hs2. reflexivity. }
    eexists. split; [exact Hentry|].
    assert (Hstatus : forall n n',
               cacheStatus st n n'
                 (Some {| data := payload; generated_at := s0; expires_at := s2;
                          version := generateDataVersionHash st |})
               = Cached (n' <? t0 + 7200000) s0 s2 (generateDataVersionHash st)
                   (Math_round (number_of_Z (n - t0) / 60000))
                   (Math_max 0
                      (Math_round (number_of_Z (t0 + 7200000 - n) / 60000)))
                   {| total_prs := total_prs_analyzed (overall_summary payload);
                      total_comments :=
                        total_comments_categorized (overall_summary payload);
                      avg_confidence :=
                        avg_confidence_score (overall_summary payload) |}).
    { intros n n'. unfold cacheStatus, isCacheValid.
      cbn [generated_at expires_at version data]. rewrite Hg0, Hg2.
      cbn [time_difference time_ltb].
      rewrite (proj2 (jsstring_eqb_eq _ _) eq_refl), Bool.andb_true_r.
      reflexivity. }
    cbn [generated_at expires_at]. split; [apply Hstatus|].
    rewrite Hstatus.
    replace (t0 <? t0 + 7200000) with true by (symmetry; apply Z.ltb_lt; lia).
    replace (t0 - t0) with 0 by lia.
    replace (t0 + 7200000 - t0) with 7200000 by lia.
    reflexivity.
Qed.

Lemma cache_status_of_entry_witness :
  exists entry,
    createCacheEntry sample_store 1704067200123
      (mkCategorizationData (mkOverallSummary 3 1 0.9)) = Some entry
    /\ cacheStatus sample_store 1704067200123 1704067200123 (Some entry)
       = Cached true (generated_at entry) (expires_at entry)
           (generateDataVersionHash sample_store) 0 120
           (mkDataSummary 3 1 0.9).
Proof.
  destruct (cache_status_of_entry sample_store 1704067200123 1704067200123
              1704067200123 (mkCategorizationData (mkOverallSummary 3 1 0.9)))
    as (_ & entry & Hc & _ & Hs).
  - unfold four_digit_year. lia.
  - unfold four_digit_year. lia.
  - exists entry. split; [exact Hc|exact Hs].
Defined.

Local Open Scope nat_scope.

(* ================================================================= *)
(** ** Webhook *)

Lemma has_connector_label_In (labels : list jsstring) :
  has_connector_label labels = true
  <-> In (str "A-connector-integration") labels.
Proof.
  unfold has_connector_label. rewrite existsb_exists. split.
  - intros (name & Hin & E). apply jsstring_eqb_eq in E. now subst.
  - intros H. eexists. split; [exact H|]. now apply jsstring_eqb_eq.
Qed.

Ltac nothing_started :=
  split; [reflexivity|];
  split; [reflexivity|];
  split; [intros ? []|reflexivity].

(** What the handler answers, read off its result: the fetches it has
    started are for a labelled pull request or issue, and a TypeError comes
    from a missing [pull_request] or missing [labels]. *)
Lemma webhook_cases :
  forall (event : option jsstring) (payload : WebhookPayload),
    match webhook event payload with
    | Responded status body started =>
        status = 200%Z /\ body = str "OK"
        /\ (forall refresh, In refresh started -> labelled_for payload refresh)
        /\ ((forall known,
                In known [ "pull_request"; "pull_request_review";
                           "pull_request_review_comment"; "issue_comment" ]%string ->
                event <> Some (str known)) ->
            started = [])
    | TypeError =>
        (event = Some (str "pull_request") /\ pull_request payload = None)
        \/ (exists pr,
               In event [ Some (str "pull_request");
                          Some (str "pull_request_review");
                          Some (str "pull_request_review_comment") ]
               /\ pull_request payload = Some pr
               /\ payload_labels pr = None)
    end.
Proof.
  intros event payload. unfold webhook. cbv zeta.
  assert (Hev : forall name : string,
             match event with
             | Some e => jsstring_eqb e (str name)
             | None => false
             end = true -> event = Some (str name)).
  { intros name H. destruct event as [e|]; [|discriminate].
    apply jsstring_eqb_eq in H. now subst. }
  destruct (match event with
            | Some e => jsstring_eqb e (str "pull_request")
            | None => false
            end) eqn:E1.
  { apply Hev in E1. unfold isConnectorIntegrationPR.
    destruct (pull_request payload) as [pr|] eqn:Epr; [|now left].
    destruct (payload_labels pr) as [labels|] eqn:El; cbn [option_map].
    - destruct (has_connector_label labels) eqn:Eh.
      + apply has_connector_label_In in Eh.
        split; [reflexivity|]. split; [reflexivity|]. split.
        * intros refresh [<- | []]. cbn [labelled_for]. eauto.
        * intros H. elim (H "pull_request"%string); [now left|exact E1].
      + nothing_started.
    - right. exists pr. split; [rewrite E1; now left|now split]. }
  destruct (match event with
            | Some e => jsstring_eqb e (str "pull_request_review")
            | None => false
            end) eqn:E2.
  { apply Hev in E2. unfold isConnectorIntegrationPR.
    destruct (pull_request payload) as [pr|] eqn:Epr;
      [|nothing_started].
    destruct (payload_labels pr) as [labels|] eqn:El; cbn [option_map].
    - destruct (has_connector_label labels) eqn:Eh.
      + apply has_connector_label_In in Eh.
        split; [reflexivity|]. split; [reflexivity|]. split.
        * intros refresh [<- | [<- | []]]; cbn [labelled_for]; eauto 6.
        * intros H. elim (H "pull_request_review"%string);
            [right; now left|exact E2].
      + nothing_started.
    - right. exists pr. split; [rewrite E2; right; now left|now split]. }
  destruct (match event with
            | Some e => jsstring_eqb e (str "pull_request_review_comment")
            | None => false
            end) eqn:E3.
  { apply Hev in E3. unfold isConnectorIntegrationPR.
    destruct (pull_request payload) as [pr|] eqn:Epr;
      [|nothing_started].
    destruct (payload_labels pr) as [labels|] eqn:El; cbn [option_map].
    - destruct (has_connector_label labels) eqn:Eh.
      + apply has_connector_label_In in Eh.
        split; [reflexivity|]. split; [reflexivity|]. split.
        * intros refresh [<- | []]; cbn [labelled_for]; eauto 6.
        * intros H. elim (H "pull_request_review_comment"%string);
            [right; right; now left|exact E3].
      + nothing_started.
    - right. exists pr. split; [rewrite E3; right; right; now left|now split]. }
  destruct (match event with
            | Some e => jsstring_eqb e (str "issue_comment")
            | None => false
            end) eqn:E4.
  { apply Hev in E4.
    destruct (issue payload) as [i|] eqn:Ei;
      [|nothing_started].
    destruct (issue_pull_request i) eqn:Ep; cbn [andb];
      [|nothing_started].
    destruct (issue_labels i) as [labels|] eqn:El;
      [|nothing_started].
    destruct (has_connector_label labels) eqn:Eh;
      [|nothing_started].
    apply has_connector_label_In in Eh.
    split; [reflexivity|]. split; [reflexivity|]. split.
    - intros refresh [<- | []]. cbn [labelled_for]. exists i, labels.
      repeat split; assumption.
    - intros H. elim (H "issue_comment"%string);
        [right; right; right; now left|exact E4]. }
  nothing_started.
Qed.


(** The payloads of a pull request event that end in a TypeError. *)
Lemma webhook_type_errors (event : option jsstring) (payload : WebhookPayload) :
  (event = Some (str "pull_request") /\ pull_request payload = None)
  \/ (exists pr,
         In event [ Some (str "pull_request");
                    Some (str "pull_request_review");
                    Some (str "pull_request_review_comment") ]
         /\ pull_request payload = Some pr
         /\ payload_labels pr = None) ->
  webhook event payload = TypeError.
Proof.
  unfold webhook, isConnectorIntegrationPR.
  intros [(-> & ->) | (pr & Hev & -> & Hl)]; [reflexivity|].
  rewrite Hl. cbn [In] in Hev.
  destruct Hev as [<- | [<- | [<- | []]]]; reflexivity.
Qed.

(** What the handler starts for a labelled pull request. *)
Lemma webhook_labelled_pull_request (payload : WebhookPayload)
    (pr : PullRequestPayload) (labels : list jsstring) :
  pull_request payload = Some pr ->
  payload_labels pr = Some labels ->
  In (str "A-connector-integration") labels ->
  webhook (Some (str "pull_request")) payload
  = Responded 200 (str "OK") [FetchConnectorPRs]
  /\ webhook (Some (str "pull_request_review")) payload
     = Responded 200 (str "OK")
         [FetchPRReviews (payload_number pr); FetchConnectorPRs]
  /\ webhook (Some (str "pull_request_review_comment")) payload
     = Responded 200 (str "OK") [FetchPRReviewComments (payload_number pr)].
Proof.
  intros Hpr Hl Hin. apply has_connector_label_In in Hin.
  unfold webhook, isConnectorIntegrationPR.
  rewrite Hpr, Hl. cbn [option_map]. rewrite Hin.
  repeat split; reflexivity.
Qed.

(** What the handler starts for a comment on a labelled pull request. *)
Lemma webhook_labelled_issue (payload : WebhookPayload)
    (commented : IssuePayload) (labels : list jsstring) :
  issue payload = Some commented ->
  issue_pull_request commented = true ->
  issue_labels commented = Some labels ->
  In (str "A-connector-integration") labels ->
  webhook (Some (str "issue_comment")) payload
  = Responded 200 (str "OK") [FetchPRComments (issue_number commented)].
Proof.
  intros Hi Hp Hl Hin. apply has_connector_label_In in Hin.
  unfold webhook. rewrite Hi, Hp, Hl, Hin. reflexivity.
Qed.

(** X22. The webhook starts a fetch only for a pull request or an issue that
    carries the label A-connector-integration, and with the number of that
    pull request or issue; for an event it does not know it starts nothing.
    For a labelled pull request the event pull_request starts a refresh of
    all pull requests, pull_request_review a fetch of its reviews and then
    that refresh, pull_request_review_comment a fetch of its review
    comments; issue_comment on a labelled issue that is a pull request
    starts a fetch of its comments. The handler answers 200 OK in every case
    but these, which end in a TypeError before anything is started: a
    pull_request event without [pull_request], or one of the three pull
    request events whose [pull_request] has no [labels]. *)
Theorem webhook_refreshes_labelled_only :
  forall (event : option jsstring) (payload : WebhookPayload),
    match webhook event payload with
    | Responded status body started =>
        status = 200%Z /\ body = str "OK"
        /\ (forall refresh, In refresh started -> labelled_for payload refresh)
        /\ ((forall known,
                In known [ "pull_request"; "pull_request_review";
                           "pull_request_review_comment"; "issue_comment" ]%string ->
                event <> Some (str known)) ->
            started = [])
    | TypeError =>
        (event = Some (str "pull_request") /\ pull_request payload = None)
        \/ (exists pr,
               In event [ Some (str "pull_request");
                          Some (str "pull_request_review");
                          Some (str "pull_request_review_comment") ]
               /\ pull_request payload = Some pr
               /\ payload_labels pr = None)
    end
    /\ (webhook event payload = TypeError
        <-> (event = Some (str "pull_request") /\ pull_request payload = None)
            \/ (exists pr,
                   In event [ Some (str "pull_request");
                              Some (str "pull_request_review");
                              Some (str "pull_request_review_comment") ]
                   /\ pull_request payload = Some pr
                   /\ payload_labels pr = None))
    /\ (forall pr labels,
          pull_request payload = Some pr ->
          payload_labels pr = Some labels ->
          In (str "A-connector-integration") labels ->
          (event = Some (str "pull_request") ->
           webhook event payload
           = Responded 200 (str "OK") [FetchConnectorPRs])
          /\ (event = Some (str "pull_request_review") ->
              webhook event payload
              = Responded 200 (str "OK")
                  [FetchPRReviews (payload_number pr); FetchConnectorPRs])
          /\ (event = Some (str "pull_request_review_comment") ->
              webhook event payload
              = Responded 200 (str "OK")
                  [FetchPRReviewComments (payload_number pr)]))
    /\ (forall commented labels,
          event = Some (str "issue_comment") ->
          issue payload = Some commented ->
          issue_pull_request commented = true ->
          issue_labels commented = Some labels ->
          In (str "A-connector-integration") labels ->
          webhook event payload
          = Responded 200 (str "OK") [FetchPRComments (issue_number commented)]).
Proof.
  intros event payload.
  pose proof (webhook_cases event payload) as Hcases.
  split; [exact Hcases|]. split; [|split].
  - split; [|apply webhook_type_errors].
    intros E. rewrite E in Hcases. exact Hcases.
  - intros pr labels Hpr Hl Hin.
    destruct (webhook_labelled_pull_request payload pr labels Hpr Hl Hin)
      as (H1 & H2 & H3).
    repeat split; intros ->; assumption.
  - intros commented labels -> Hi Hp Hl Hin.
    now apply (webhook_labelled_issue payload commented labels).
Qed.

Lemma webhook_refreshes_labelled_only_witness :
  let labelled :=
    mkWebhookPayload
      (Some (mkPullRequestPayload
               (Some [str "C-bug"; str "A-connector-integration"]) 4242))
      None in
  webhook (Some (str "pull_request")) (mkWebhookPayload None None) = TypeError
  /\ webhook (Some (str "pull_request_review")) labelled
     = Responded 200 (str "OK") [FetchPRReviews 4242; FetchConnectorPRs].
Proof.
  intros labelled. split.
  - apply (proj1 (proj2 (webhook_refreshes_labelled_only
                           (Some (str "pull_request"))
                           (mkWebhookPayload None None)))).
    left. split; reflexivity.
  - apply (proj1 (proj2 (proj2 (webhook_refreshes_labelled_only
                                  (Some (str "pull_request_review")) labelled)))
             (mkPullRequestPayload
                (Some [str "C-bug"; str "A-connector-integration"]) 4242)
             [str "C-bug"; str "A-connector-integration"]);
      try reflexivity.
    right. now left.
Defined.

(* ================================================================= *)
(** ** Timeline analytics *)

Lemma map_numbered {A B C} (g : nat -> A -> B) (h : B -> C) (h' : A -> C)
    (l : list A) :
  (forall k x, h (g k x) = h' x) ->
  forall s,
    map h (map (fun entry : nat * A => let '(k, x) := entry in g k x)
               (combine (seq s (length l)) l))
    = map h' l.
Proof.
  intros H. induction l as [|x l IH]; intros s; [reflexivity|].
  cbn [length seq combine map]. now rewrite H, IH.
Qed.

Lemma filter_length_by_map {A B} (p : A -> bool) (q : B -> bool) :
  forall (l : list A) (l' : list B),
    map p l = map q l' -> length (filter p l) = length (filter q l').
Proof.
  induction l as [|x l IH]; intros [|y l'] H; try discriminate; [reflexivity|].
  cbn [map] in H. injection H as Hx Hl. cbn [filter]. rewrite Hx.
  destruct (q y); cbn [length]; now rewrite (IH l' Hl).
Qed.

Lemma sum_of_lengths {A} (f : A -> nat) (l : list A) :
  forall start,
    fold_left (fun sum t => sum + f t) l start = start + list_sum (map f l).
Proof.
  induction l as [|x l IH]; intros start; cbn [fold_left map].
  - cbn. lia.
  - rewrite IH. cbn [list_sum fold_right]. fold (list_sum (map f l)). lia.
Qed.

Lemma quality_levels_partition {A} (level : A -> Level) (l : list A) :
  length (filter (fun t => level_eqb (level t) high) l)
  + length (filter (fun t => level_eqb (level t) medium) l)
  + length (filter (fun t => level_eqb (level t) low) l)
  = length l.
Proof.
  induction l as [|x l IH]; [reflexivity|].
  cbn [filter]. destruct (level x); cbn [level_eqb length]; lia.
Qed.

Lemma review_cycles_count now1 now2 pr prReviews prComments :
  length (review_cycles (fst (calculateEnhancedPRTimeline now1 now2 pr
                                prReviews prComments)))
  = length (filter is_changes_requested prReviews).
Proof.
  unfold calculateEnhancedPRTimeline. cbn [fst review_cycles].
  rewrite reconstruct_cycles.
  destruct (review_loop_result pr (Array_sort compareBySubmittedAt prReviews))
    as (_ & -> & _).
  rewrite <- (length_map cycle_number), cycles_from_numbers, length_seq.
  apply Permutation_length, Permutation_filter_same, Permutation_sym,
    Array_sort_perm.
Qed.

(** X23. The timeline analytics has one basic and one enhanced timeline for
    each pull request of the store, the enhanced ones in the order of the
    store and the basic ones reordered. The three quality tiers add up to
    the number of pull requests; the completed count is the number of pull
    requests whose status is merged or closed; and the total of review
    cycles is the number of reviews that request changes, added up over the
    pull requests. *)
Theorem timeline_analytics_counts :
  forall (clock : nat -> jsstring * jsstring) (now : jsstring) (st : Store)
         (reviews : list Review),
    let analytics := timelineAnalytics clock now st reviews in
    let summary := analytics_summary analytics in
    let quality := summary_data_quality summary in
    summary_total_prs_analyzed summary = length (pullRequests st)
    /\ map pr_number (enhanced_timeline_data analytics)
       = map github_pr_number (pullRequests st)
    /\ Permutation (map basic_pr_number (timeline_data analytics))
         (map github_pr_number (pullRequests st))
    /\ completed_prs summary
       = length (filter is_closed_or_merged (pullRequests st))
    /\ high_quality quality + medium_quality quality + low_quality quality
       = length (pullRequests st)
    /\ invalid_timelines quality <= length (pullRequests st)
    /\ review_cycles_total quality
       = list_sum (map (fun pr => length (filter is_changes_requested
                                            (reviews_of reviews pr)))
                       (pullRequests st)).
Proof.
  intros clock now st reviews analytics summary quality.
  subst quality summary analytics. unfold timelineAnalytics. cbv zeta.
  cbn [analytics_summary summary_data_quality summary_total_prs_analyzed
       enhanced_timeline_data timeline_data completed_prs high_quality
       medium_quality low_quality invalid_timelines review_cycles_total].
  set (basic := map _ (combine (seq 0 (length (pullRequests st)))
                         (pullRequests st))).
  set (enhanced := map _ (combine (seq 0 (length (pullRequests st)))
                            (pullRequests st))).
  set (sorted := Array_sort _ basic).
  assert (Hperm : Permutation basic sorted) by apply Array_sort_perm.
  assert (Hbasic : forall {C} (h : PRTimeline -> C) (h' : PullRequest -> C),
             (forall n1 n2 pr rs cs,
                 h (fst (calculatePRTimeline n1 n2 pr rs cs)) = h' pr) ->
             map h basic = map h' (pullRequests st)).
  { intros C h h' H. subst basic.
    apply (map_numbered
             (fun k pr =>
                fst (calculatePRTimeline (fst (clock k)) (snd (clock k)) pr
                       (filter (fun r => Z.eqb (review_pr_id r)
                                               (github_pr_number pr)) reviews)
                       (filter (fun c => Z.eqb (comment_pr_id c)
                                               (github_pr_number pr))
                               (comments st))))).
    intros k pr. apply H. }
  assert (Henh : forall {C} (h : EnhancedPRTimeline -> C)
                        (h' : PullRequest -> C),
             (forall n1 n2 pr cs,
                 h (fst (calculateEnhancedPRTimeline n1 n2 pr
                           (reviews_of reviews pr) cs)) = h' pr) ->
             map h enhanced = map h' (pullRequests st)).
  { intros C h h' H. subst enhanced.
    apply (map_numbered
             (fun k pr =>
                fst (calculateEnhancedPRTimeline
                       (fst (clock (length (pullRequests st) + k)))
                       (snd (clock (length (pullRequests st) + k))) pr
                       (filter (fun r => Z.eqb (review_pr_id r)
                                               (github_pr_number pr)) reviews)
                       (filter (fun c => Z.eqb (comment_pr_id c)
                                               (github_pr_number pr))
                               (comments st))))).
    intros k pr. apply H. }
  assert (Hlen_basic : length basic = length (pullRequests st)).
  { rewrite <- (length_map (fun _ => tt) basic),
      (Hbasic _ (fun _ => tt) (fun _ => tt)), length_map; reflexivity. }
  assert (Hlen_enh : length enhanced = length (pullRequests st)).
  { rewrite <- (length_map (fun _ => tt) enhanced),
      (Henh _ (fun _ => tt) (fun _ => tt)), length_map; reflexivity. }
  split; [|split; [|split; [|split; [|split; [|split]]]]].
  - rewrite <- (Permutation_length Hperm). exact Hlen_basic.
  - apply Henh. reflexivity.
  - eapply Permutation_trans;
      [apply Permutation_sym, Permutation_map, Hperm|].
    rewrite (Hbasic _ basic_pr_number github_pr_number);
      [apply Permutation_refl|reflexivity].
  - rewrite <- (Permutation_length
                  (Permutation_filter_same basic_is_completed _ _ Hperm)).
    apply filter_length_by_map. apply Hbasic. reflexivity.
  - rewrite (quality_levels_partition (fun t => data_quality (validation t))).
    exact Hlen_enh.
  - rewrite <- Hlen_enh. apply filter_length_le.
  - rewrite sum_of_lengths. cbn [Nat.add]. f_equal.
    apply Henh. intros n1 n2 pr cs. apply review_cycles_count.
Qed.

(** X24. With no pull request in the store the timeline analytics is empty:
    no timelines, no longest and no fastest pull request, every count and
    every average of days 0; only the average confidence, a sum divided by
    the number of timelines, is NaN. *)
Theorem timeline_analytics_of_empty_store :
  forall (clock : nat -> jsstring * jsstring) (now : jsstring) (st : Store)
         (reviews : list Review),
    pullRequests st = [] ->
    timelineAnalytics clock now st reviews
    = {| timeline_data := [];
         enhanced_timeline_data := [];
         analytics_summary :=
           {| summary_total_prs_analyzed := 0;
              completed_prs := 0;
              avg_total_time_days := 0;
              avg_first_review_time_days := 0;
              avg_approval_time_days := 0;
              longest_pr := None;
              fastest_pr := None;
              summary_data_quality :=
                {| high_quality := 0;
                   medium_quality := 0;
                   low_quality := 0;
                   invalid_timelines := 0;
                   quality_avg_confidence_score := nan;
                   total_issues_detected := 0;
                   review_cycles_total := 0 |} |};
         analytics_generated_at := now |}.
Proof.
  intros clock now st reviews Hempty.
  unfold timelineAnalytics. rewrite Hempty. reflexivity.
Qed.

Lemma timeline_analytics_of_empty_store_witness :
  is_nan (quality_avg_confidence_score
            (summary_data_quality
               (analytics_summary
                  (timelineAnalytics (fun _ => ([], [])) (str "2024-02-01T00:00:00.000Z")
                     (mkStore [] []) [])))) = true.
Proof.
  rewrite (timeline_analytics_of_empty_store (fun _ => ([], []))
             (str "2024-02-01T00:00:00.000Z") (mkStore [] []) [] eq_refl).
  reflexivity.
Defined.

(* ================================================================= *)
(** ** Background summaries *)

Lemma NumberMap_get_set {V} (m : list (Z * V)) (k : Z) (v : V) (k' : Z) :
  NumberMap_get (NumberMap_set m k v) k'
  = if Z.eqb k k' then Some v else NumberMap_get m k'.
Proof.
  unfold NumberMap_get.
  induction m as [|[k0 v0] rest IH]; cbn [NumberMap_set find fst].
  - destruct (Z.eqb k k'); reflexivity.
  - destruct (Z.eqb k0 k) eqn:E.
    + apply Z.eqb_eq in E. subst k0. cbn [find fst].
      destruct (Z.eqb k k'); reflexivity.
    + cbn [find fst]. destruct (Z.eqb k0 k') eqn:E'.
      * apply Z.eqb_eq in E'. subst k'.
        rewrite Z.eqb_sym, E. reflexivity.
      * exact IH.
Qed.

Lemma summarize_cases generatePRSummary now st reviews pr :
  let prNumber := github_pr_number pr in
  let strategy :=
    determineAnalysisStrategy
      (filter (fun c => Z.eqb (comment_pr_id c) prNumber) (comments st))
      (reviews_of reviews pr) in
  (human_comments_of st pr = [] /\ human_reviews_of reviews pr = []
   /\ summarize generatePRSummary now st reviews pr
      = Stored prNumber
          {| summary_body := CodeOnlyAnalysis;
             summary_generated_at := now;
             model_used := str "code-analysis";
             summary_confidence_score := 0.3;
             analysis_strategy := Some strategy;
             background_generated := Some true |})
  \/ ((human_comments_of st pr <> [] \/ human_reviews_of reviews pr <> [])
      /\ match generatePRSummary pr (human_comments_of st pr)
                 (human_reviews_of reviews pr) with
         | Some summary =>
             summarize generatePRSummary now st reviews pr
             = Stored prNumber
                 {| summary_body := summary_body summary;
                    summary_generated_at := summary_generated_at summary;
                    model_used := model_used summary;
                    summary_confidence_score := summary_confidence_score summary;
                    analysis_strategy := Some strategy;
                    background_generated := Some true |}
         | None =>
             summarize generatePRSummary now st reviews pr = Failed prNumber
         end).
Proof.
  intros prNumber strategy. subst prNumber strategy.
  unfold summarize, human_comments_of, human_reviews_of, reviews_of,
    determineAnalysisStrategy.
  cbv zeta.
  set (allComments := filter _ (comments st)).
  set (allReviews := filter _ reviews).
  remember (filter isHumanComment allComments) as hc eqn:Ec.
  remember (filter isHumanReview allReviews) as hr eqn:Er.
  destruct hc as [|c hc']; destruct hr as [|r hr'];
    cbn [length Nat.add Nat.eqb strategy_type Nat.ltb Nat.leb orb].
  - left. repeat split.
  - right. split; [right; discriminate|].
    destruct (_ || _); cbn [strategy_type];
      destruct (generatePRSummary pr [] (r :: hr')); reflexivity.
  - right. split; [left; discriminate|].
    destruct (_ || _); cbn [strategy_type];
      destruct (generatePRSummary pr (c :: hc') []); reflexivity.
  - right. split; [left; discriminate|].
    destruct (_ || _); cbn [strategy_type];
      destruct (generatePRSummary pr (c :: hc') (r :: hr')); reflexivity.
Qed.

Lemma summarize_pr generatePRSummary now st reviews pr :
  outcome_pr (summarize generatePRSummary now st reviews pr)
  = github_pr_number pr
  /\ is_skipped (summarize generatePRSummary now st reviews pr) = false.
Proof.
  destruct (summarize_cases generatePRSummary now st reviews pr)
    as [(_ & _ & ->) | (_ & H)]; [now split|].
  destruct (generatePRSummary pr _ _); rewrite H; now split.
Qed.

Lemma summary_rounds generatePRSummary clock st reviews
    (batch : list PullRequest) :
  forall (start : nat) (prSummaries : list (Z * PRSummary))
         (outcomes : list SummaryOutcome),
    snd (fold_left (summary_round generatePRSummary clock st reviews)
           (combine (seq start (length batch)) batch) (prSummaries, outcomes))
    = outcomes
      ++ map (fun round => summarize generatePRSummary (clock (fst round)) st
                             reviews (snd round))
             (combine (seq start (length batch)) batch)
    /\ forall prNumber,
         ~ In prNumber (map github_pr_number batch) ->
         NumberMap_get
           (fst (fold_left (summary_round generatePRSummary clock st reviews)
                   (combine (seq start (length batch)) batch)
                   (prSummaries, outcomes))) prNumber
         = NumberMap_get prSummaries prNumber.
Proof.
  induction batch as [|pr batch IH]; intros start prSummaries outcomes.
  - cbn. split; [now rewrite app_nil_r|reflexivity].
  - cbn [length seq combine fold_left map fst snd].
    pose proof (summarize_pr generatePRSummary (clock start) st reviews pr)
      as (Hpr & _).
    unfold summary_round at 2 4. cbv zeta.
    destruct (summarize generatePRSummary (clock start) st reviews pr)
      as [n s|n|n] eqn:E;
      match goal with
      | |- context [fold_left _ _ (?m, ?o)] =>
          destruct (IH (S start) m o) as (Hlog & Hmap)
      end;
      (split;
       [ rewrite Hlog, <- app_assoc; reflexivity
       | intros prNumber Hnot; rewrite Hmap
           by (intros Hin; apply Hnot; now right) ]).
    + rewrite NumberMap_get_set. cbn [outcome_pr] in Hpr.
      destruct (Z.eqb n prNumber) eqn:En; [|reflexivity].
      apply Z.eqb_eq in En. elim Hnot. left. congruence.
    + reflexivity.
    + reflexivity.
Qed.

(** X25. A run of the background summaries handles the first three pull
    requests that need a summary, in their order, and no other. No round
    ends in a skip: a pull request with no human comment and no human review
    gets the summary of a code-only analysis with the confidence 0.3 without
    the Gemini service being asked, and every other one is handed to the
    service with its human comments and reviews only. The summaries of the
    pull requests outside the batch stay as they were. *)
Theorem background_summaries_batch :
  forall (generatePRSummary
            : PullRequest -> list Comment -> list Review -> option PRSummary)
         (clock : nat -> jsstring) (st : Store) (reviews : list Review)
         (prSummaries : list (Z * PRSummary)),
    let result :=
      generateBackgroundSummaries generatePRSummary clock st reviews
        prSummaries in
    let batch :=
      firstn 3 (filter (needs_summary prSummaries) (pullRequests st)) in
    map outcome_pr (snd result) = map github_pr_number batch
    /\ length (snd result) <= 3
    /\ (forall outcome, In outcome (snd result) -> is_skipped outcome = false)
    /\ (forall prNumber,
          ~ In prNumber (map github_pr_number batch) ->
          NumberMap_get (fst result) prNumber
          = NumberMap_get prSummaries prNumber)
    /\ (forall now pr,
          human_comments_of st pr = [] ->
          human_reviews_of reviews pr = [] ->
          exists summary,
            summarize generatePRSummary now st reviews pr
            = Stored (github_pr_number pr) summary
            /\ summary_body summary = CodeOnlyAnalysis
            /\ summary_confidence_score summary = 0.3%float)
    /\ (forall now pr,
          human_comments_of st pr <> [] \/ human_reviews_of reviews pr <> [] ->
          match generatePRSummary pr (human_comments_of st pr)
                  (human_reviews_of reviews pr) with
          | Some answer =>
              exists summary,
                summarize generatePRSummary now st reviews pr
                = Stored (github_pr_number pr) summary
                /\ summary_body summary = summary_body answer
                /\ background_generated summary = Some true
          | None =>
              summarize generatePRSummary now st reviews pr
              = Failed (github_pr_number pr)
          end).
Proof.
  intros generatePRSummary clock st reviews prSummaries result batch.
  subst result. unfold generateBackgroundSummaries. cbv zeta.
  set (needing := filter (needs_summary prSummaries) (pullRequests st)) in *.
  assert (Hbatch : firstn (Nat.min (length needing) 3) needing = batch).
  { subst batch. destruct (Nat.le_ge_cases (length needing) 3) as [H | H].
    - rewrite Nat.min_l by exact H.
      rewrite firstn_all. symmetry. now apply firstn_all2.
    - now rewrite Nat.min_r by exact H. }
  assert (Hlen : Nat.min (length needing) 3 = length batch).
  { subst batch. rewrite length_firstn. apply Nat.min_comm. }
  rewrite Hbatch, Hlen.
  match goal with
  | |- context [fold_left ?f ?l ?s] =>
      change (fold_left f l s)
        with (fold_left (summary_round generatePRSummary clock st reviews) l s)
  end.
  destruct (summary_rounds generatePRSummary clock st reviews batch 0
              prSummaries []) as (Hlog & Hmap).
  cbn [app] in Hlog.
  split; [|split; [|split; [|split; [|split]]]].
  - rewrite Hlog, map_map. clear.
    generalize 0. induction batch as [|pr batch IH]; intros start;
      [reflexivity|].
    cbn [length seq combine map fst snd]. f_equal; [|apply IH].
    apply summarize_pr.
  - rewrite Hlog, length_map, length_combine, length_seq, Nat.min_id.
    subst batch. apply firstn_le_length.
  - intros outcome Hin. rewrite Hlog in Hin. apply in_map_iff in Hin.
    destruct Hin as (round & <- & _). apply summarize_pr.
  - exact Hmap.
  - intros now pr Hc Hr.
    destruct (summarize_cases generatePRSummary now st reviews pr)
      as [(_ & _ & ->) | ([H | H] & _)]; [|contradiction|contradiction].
    eexists. split; [reflexivity|]. now split.
  - intros now pr Hhuman.
    destruct (summarize_cases generatePRSummary now st reviews pr)
      as [(Hc & Hr & _) | (_ & H)].
    + destruct Hhuman as [H | H]; contradiction.
    + destruct (generatePRSummary pr _ _) as [answer|]; [|exact H].
      eexists. split; [exact H|]. now split.
Qed.

(* ================================================================= *)
(** ** Comment categorization with its cache *)

Local Open Scope Z_scope.

Lemma isCacheValid_of_entry {D} (st st' : Store) (t0 later : Z) (payload : D)
    (entry : CachedCommentCategorization D) :
  four_digit_year (t0 + 7200000) ->
  createCacheEntry st t0 payload = Some entry ->
  isCacheValid st' later (Some entry)
  = (later <? t0 + 7200000)
    && jsstring_eqb (generateDataVersionHash st) (generateDataVersionHash st').
Proof.
  intros H2 Hentry. unfold createCacheEntry in Hentry. cbv zeta in Hentry.
  replace (t0 + CACHE_EXPIRY_HOURS * 60 * 60 * 1000) with (t0 + 7200000)
    in Hentry by (unfold CACHE_EXPIRY_HOURS; lia).
  destruct (Date_toISOString t0) as [s0|]; [|discriminate].
  destruct (Date_roundtrip (t0 + 7200000) H2) as (s2 & Hs2 & Hg2).
  rewrite Hs2 in Hentry. cbn [obind] in Hentry. injection Hentry as <-.
  unfold isCacheValid. cbn [expires_at version]. rewrite Hg2.
  reflexivity.
Qed.

(** X26. When a request for the comment categorization finds no valid cache
    while the store has pull requests and human comments and the Gemini
    service answers, the answer is a miss with the fresh data, which is
    cached. Every later request before two hours have passed, the store
    being the same, is a hit: it returns that data with the age of the entry
    in minutes, whatever the service would answer now, and leaves the cache
    as it is. From two hours on no request is a hit. *)
Theorem categorization_miss_then_hit :
  forall (D : Type)
         (categorizeComments categorizeComments'
            : list PullRequest -> list Comment -> option D)
         (st : Store) (cache : option (CachedCommentCategorization D))
         (t0 t1 : Z) (categorization : D),
    four_digit_year t1 ->
    four_digit_year (t1 + 7200000) ->
    isCacheValid st t0 cache = false ->
    pullRequests st <> [] ->
    categorizeComments (pullRequests st) (filter isHumanComment (comments st))
    = Some categorization ->
    filter isHumanComment (comments st) <> [] ->
    exists entry,
      commentCategorization categorizeComments t0 t1 st cache
      = (CacheMiss categorization (generated_at entry) (expires_at entry)
           (generateDataVersionHash st),
         Some entry)
      /\ (forall now now',
            now < t1 + 7200000 ->
            commentCategorization categorizeComments' now now' st (Some entry)
            = (CacheHit categorization (generated_at entry) (expires_at entry)
                 (generateDataVersionHash st)
                 (Math_round (number_of_Z (now' - t1) / 60000)),
               Some entry))
      /\ (forall now now' st',
            t1 + 7200000 <= now ->
            is_hit (fst (commentCategorization categorizeComments' now now' st'
                           (Some entry))) = false).
Proof.
  intros D categorizeComments categorizeComments' st cache t0 t1 categorization
    H1 H2 Hinvalid Hprs Hanswer Hhuman.
  destruct (Date_roundtrip t1 H1) as (s1 & Hs1 & Hg1).
  destruct (Date_roundtrip (t1 + 7200000) H2) as (s2 & Hs2 & Hg2).
  assert (Hentry : createCacheEntry st t1 categorization
                   = Some {| data := categorization; generated_at := s1;
                             expires_at := s2;
                             version := generateDataVersionHash st |}).
  { unfold createCacheEntry. cbv zeta.
    replace (t1 + CACHE_EXPIRY_HOURS * 60 * 60 * 1000) with (t1 + 7200000)
      by (unfold CACHE_EXPIRY_HOURS; lia).
    rewrite Hs1, Hs2. reflexivity. }
  eexists. split; [|split].
  - unfold commentCategorization. rewrite Hinvalid.
    destruct (pullRequests st) as [|pr prs] eqn:Ep; [contradiction|].
    cbn [length Nat.eqb]. cbv zeta.
    destruct (filter isHumanComment (comments st)) as [|c cs] eqn:Eh;
      [contradiction|].
    cbn [length Nat.eqb]. rewrite Hanswer, Hentry. reflexivity.
  - intros now now' Hnow. unfold commentCategorization.
    rewrite (isCacheValid_of_entry st st t1 now categorization _ H2 Hentry).
    replace (now <? t1 + 7200000) with true by (symmetry; apply Z.ltb_lt; lia).
    rewrite (proj2 (jsstring_eqb_eq _ _) eq_refl).
    cbn [andb data generated_at expires_at version]. rewrite Hg1.
    reflexivity.
  - intros now now' st' Hnow. unfold commentCategorization.
    rewrite (isCacheValid_of_entry st st' t1 now categorization _ H2 Hentry).
    replace (now <? t1 + 7200000) with false by (symmetry; apply Z.ltb_ge; lia).
    cbn [andb].
    destruct (Nat.eqb (length (pullRequests st')) 0); [reflexivity|].
    cbv zeta.
    destruct (Nat.eqb (length (filter isHumanComment (comments st'))) 0);
      [reflexivity|].
    destruct (categorizeComments' _ _) as [fresh|]; [|reflexivity].
    destruct (createCacheEntry st' now' fresh); reflexivity.
Qed.

Lemma categorization_miss_then_hit_witness :
  let gemini := fun (prs : list PullRequest) (cs : list Comment) =>
                  Some (length cs) in
  let failing := fun (prs : list PullRequest) (cs : list Comment) =>
                   @None nat in
  exists entry,
    commentCategorization gemini 1704067200000 1704067200123 sample_store None
    = (CacheMiss 1%nat (generated_at entry) (expires_at entry)
         (generateDataVersionHash sample_store),
       Some entry)
    /\ commentCategorization failing 1704067260000 1704067260123 sample_store
         (Some entry)
       = (CacheHit 1%nat (generated_at entry) (expires_at entry)
            (generateDataVersionHash sample_store)
            (Math_round (number_of_Z (1704067260123 - 1704067200123) / 60000)),
          Some entry).
Proof.
  intros gemini failing.
  destruct (categorization_miss_then_hit nat gemini failing sample_store None
              1704067200000 1704067200123 1%nat)
    as (entry & Hmiss & Hhit & _).
  - unfold four_digit_year. lia.
  - unfold four_digit_year. lia.
  - reflexivity.
  - discriminate.
  - vm_compute. reflexivity.
  - vm_compute. discriminate.
  - exists entry. split; [exact Hmiss|]. apply Hhit. lia.
Defined.

Local Open Scope nat_scope.

(* ================================================================= *)
(** ** The review that resolves a cycle *)

Lemma filter_sorted {A} (R : A -> A -> Prop) (keep : A -> bool) :
  forall l : list A, StronglySorted R l -> StronglySorted R (filter keep l).
Proof.
  induction 1 as [|a l Hs IH Ha]; cbn [filter]; [constructor|].
  destruct (keep a); [|exact IH].
  constructor; [exact IH|].
  rewrite Forall_forall in *. intros x Hx. apply filter_In in Hx.
  apply Ha. now destruct Hx.
Qed.

Lemma findChangesAddressedTime_first pr requested (allReviews : list Review) :
  Forall parseable allReviews ->
  StronglySorted submitted_le allReviews ->
  match findChangesAddressedTime pr requested allReviews with
  | Some t =>
      (exists first,
          In first allReviews /\ addresses requested first = true
          /\ t = submitted_at first
          /\ forall other,
               In other allReviews -> addresses requested other = true ->
               submitted_le first other)
      \/ ((forall other, In other allReviews ->
                         addresses requested other = false)
          /\ t = updated_at pr
          /\ Date_gt (updated_at pr) requested = true)
  | None =>
      (forall other, In other allReviews -> addresses requested other = false)
      /\ Date_gt (updated_at pr) requested = false
  end.
Proof.
  intros Hp Hs. unfold findChangesAddressedTime. cbv zeta.
  change (filter _ allReviews) with (filter (addresses requested) allReviews).
  pose proof (filter_sorted submitted_le (addresses requested) allReviews Hs)
    as Hfs.
  destruct (filter (addresses requested) allReviews) as [|first rest] eqn:E.
  - assert (Hnone : forall other, In other allReviews ->
                                  addresses requested other = false).
    { intros other Hin. destruct (addresses requested other) eqn:Ea;
        [|reflexivity].
      assert (Hf : In other (filter (addresses requested) allReviews))
        by (apply filter_In; now split).
      rewrite E in Hf. destruct Hf. }
    destruct (Date_gt (updated_at pr) requested) eqn:Eu.
    + right. repeat split; assumption.
    + split; [exact Hnone|reflexivity].
  - left. exists first.
    assert (Hin : In first (filter (addresses requested) allReviews))
      by (rewrite E; now left).
    apply filter_In in Hin. destruct Hin as (Hin & Ha).
    split; [exact Hin|]. split; [exact Ha|]. split; [reflexivity|].
    intros other Ho Hao.
    assert (Hf : In other (first :: rest))
      by (rewrite <- E; apply filter_In; now split).
    inversion Hfs as [|? ? _ Hall]; subst.
    destruct Hf as [<- | Hf].
    + rewrite Forall_forall in Hp. specialize (Hp first Hin).
      unfold parseable in Hp. unfold submitted_le.
      destruct (Date_getTime (submitted_at first)); [lia|contradiction].
    + rewrite Forall_forall in Hall. now apply Hall.
Qed.

(** X27. When the review timestamps parse, a review cycle is resolved by the
    earliest review after the request that approves or comments, whoever
    wrote it; only when there is no such review is the resolution the time
    of the last update of the pull request, if that is later than the
    request, and else the cycle stays unresolved. *)
Theorem cycle_resolved_by_first_later_review :
  forall (now1 now2 : jsstring) (pr : PullRequest) (prReviews : list Review)
         (prComments : list Comment),
    Forall parseable prReviews ->
    let r := fst (calculateEnhancedPRTimeline now1 now2 pr prReviews
                    prComments) in
    forall c,
      In c (review_cycles r) ->
      let requested := changes_requested_at c in
      match changes_addressed_at c with
      | Some t =>
          (exists first,
              In first prReviews /\ addresses requested first = true
              /\ t = submitted_at first
              /\ forall other,
                   In other prReviews -> addresses requested other = true ->
                   submitted_le first other)
          \/ ((forall other, In other prReviews ->
                             addresses requested other = false)
              /\ t = updated_at pr
              /\ Date_gt (updated_at pr) requested = true)
      | None =>
          (forall other, In other prReviews ->
                         addresses requested other = false)
          /\ Date_gt (updated_at pr) requested = false
      end.
Proof.
  intros now1 now2 pr prReviews prComments Hp r c Hin requested.
  subst r requested.
  unfold calculateEnhancedPRTimeline in Hin. cbn [fst review_cycles] in Hin.
  set (sorted := Array_sort compareBySubmittedAt prReviews) in *.
  rewrite reconstruct_cycles in Hin.
  destruct (review_loop_result pr sorted) as (_ & Hc & _).
  rewrite Hc in Hin.
  destruct (cycles_from_In pr sorted sorted 0 c Hin) as (k & rv & _ & _ & ->).
  cbn [cycle_of changes_addressed_at changes_requested_at].
  assert (Hperm : Permutation prReviews sorted) by apply Array_sort_perm.
  assert (Hps : Forall parseable sorted).
  { rewrite Forall_forall in *. intros x Hx. apply Hp.
    eapply Permutation_in; [apply Permutation_sym, Hperm|exact Hx]. }
  pose proof (findChangesAddressedTime_first pr (submitted_at rv) sorted Hps
                (Array_sort_sorted prReviews Hp)) as H.
  assert (Hto : forall x, In x prReviews -> In x sorted)
    by (intros x; apply Permutation_in, Hperm).
  assert (Hfrom : forall x, In x sorted -> In x prReviews)
    by (intros x; apply Permutation_in, Permutation_sym, Hperm).
  destruct (findChangesAddressedTime pr (submitted_at rv) sorted) as [t|].
  - destruct H as [(first & Hf & Ha & Ht & Hmin) | (Hnone & Ht & Hu)].
    + left. exists first. split; [now apply Hfrom|]. split; [exact Ha|].
      split; [exact Ht|]. intros other Ho. apply Hmin. now apply Hto.
    + right. split; [|now split]. intros other Ho. apply Hnone.
      now apply Hto.
  - destruct H as (Hnone & Hu). split; [|exact Hu].
    intros other Ho. apply Hnone. now apply Hto.
Qed.

Lemma cycle_resolved_by_first_later_review_witness :
  let pr := sample_pr "2024-01-01" "2024-01-07" (Some (str "2024-01-07"))
              status_merged in
  let request := sample_review "rev1" changes_requested "2024-01-02" in
  let comment := sample_review "rev2" commented "2024-01-05" in
  let approval := sample_review "rev3" approved "2024-01-06" in
  let prReviews := [approval; request; comment] in
  (exists first,
      In first prReviews /\ addresses (str "2024-01-02") first = true
      /\ str "2024-01-05" = submitted_at first
      /\ forall other,
           In other prReviews -> addresses (str "2024-01-02") other = true ->
           submitted_le first other)
  \/ ((forall other, In other prReviews ->
                     addresses (str "2024-01-02") other = false)
      /\ str "2024-01-05" = updated_at pr
      /\ Date_gt (updated_at pr) (str "2024-01-02") = true).
Proof.
  intros pr request comment approval prReviews.
  assert (Hp : Forall parseable prReviews).
  { repeat constructor; unfold parseable; vm_compute; discriminate. }
  apply (cycle_resolved_by_first_later_review
           (str "2024-02-01T00:00:00.000Z") (str "2024-02-01T00:00:00.000Z")
           pr prReviews [] Hp
           (mkCycle 1 (str "2024-01-02") (Some (str "2024-01-05")) 3
              (str "rev1"))).
  vm_compute. left. reflexivity.
Defined.

(* ================================================================= *)
(** ** The data version and the order of the store *)

Lemma jsstring_compare_eq (a : jsstring) :
  forall b, jsstring_compare a b = Eq <-> a = b.
Proof.
  induction a as [|x a IH]; intros [|y b]; cbn [jsstring_compare];
    try (split; [discriminate|discriminate]); [split; reflexivity|].
  destruct (N.compare_spec x y) as [Hxy | Hxy | Hxy].
  - subst y. rewrite IH. split; [now intros ->|now intros [= ->]].
  - split; [discriminate|]. intros [= -> _]. lia.
  - split; [discriminate|]. intros [= -> _]. lia.
Qed.

Lemma jsstring_compare_antisym (a : jsstring) :
  forall b, jsstring_compare b a = CompOpp (jsstring_compare a b).
Proof.
  induction a as [|x a IH]; intros [|y b]; cbn [jsstring_compare];
    try reflexivity.
  rewrite (N.compare_antisym x y).
  destruct (N.compare x y); cbn [CompOpp]; [apply IH|reflexivity|reflexivity].
Qed.

Lemma jsstring_compare_lt_trans (a : jsstring) :
  forall b c,
    jsstring_compare a b = Lt -> jsstring_compare b c = Lt ->
    jsstring_compare a c = Lt.
Proof.
  induction a as [|x a IH]; intros [|y b] [|z c]; cbn [jsstring_compare];
    try discriminate; try reflexivity.
  destruct (N.compare_spec x y) as [Hxy | Hxy | Hxy]; try discriminate;
    destruct (N.compare_spec y z) as [Hyz | Hyz | Hyz]; try discriminate;
    intros H1 H2.
  - subst. rewrite N.compare_refl. now apply (IH b c).
  - subst. now rewrite (proj2 (N.compare_lt_iff _ _) Hyz).
  - subst. now rewrite (proj2 (N.compare_lt_iff _ _) Hxy).
  - now rewrite (proj2 (N.compare_lt_iff _ _) (N.lt_trans _ _ _ Hxy Hyz)).
Qed.

Lemma string_le_trans (a b c : jsstring) :
  string_le a b -> string_le b c -> string_le a c.
Proof.
  unfold string_le. intros Hab Hbc.
  destruct (jsstring_compare a b) eqn:E1; [|clear Hab|contradiction].
  - apply jsstring_compare_eq in E1. now subst.
  - destruct (jsstring_compare b c) eqn:E2; [| |contradiction].
    + apply jsstring_compare_eq in E2. subst. now rewrite E1.
    + now rewrite (jsstring_compare_lt_trans a b c E1 E2).
Qed.

Lemma string_sort_insert_sorted (x : jsstring) (l : list jsstring) :
  StronglySorted string_le l ->
  StronglySorted string_le (sort_insert compareStrings x l).
Proof.
  intros Hs. induction Hs as [|y l Hs IH Hy]; cbn [sort_insert].
  - repeat constructor.
  - unfold SortCompare, compareStrings.
    destruct (jsstring_compare x y) eqn:E;
      cbn [Z.leb Z.compare].
    + constructor; [now constructor|].
      assert (Hxy : string_le x y) by (unfold string_le; now rewrite E).
      constructor; [exact Hxy|].
      eapply Forall_impl; [|exact Hy].
      intros z Hz. eapply string_le_trans; eassumption.
    + constructor; [now constructor|].
      assert (Hxy : string_le x y) by (unfold string_le; now rewrite E).
      constructor; [exact Hxy|].
      eapply Forall_impl; [|exact Hy].
      intros z Hz. eapply string_le_trans; eassumption.
    + constructor; [exact IH|].
      eapply Permutation_Forall; [apply sort_insert_perm|].
      constructor; [|exact Hy].
      unfold string_le. rewrite jsstring_compare_antisym, E. discriminate.
Qed.

Lemma string_sort_sorted (l : list jsstring) :
  StronglySorted string_le (Array_sort compareStrings l).
Proof.
  induction l as [|x l IH]; cbn [Array_sort]; [constructor|].
  now apply string_sort_insert_sorted.
Qed.

Lemma sorted_strings_unique (a : list jsstring) :
  forall b,
    StronglySorted string_le a -> StronglySorted string_le b ->
    Permutation a b -> a = b.
Proof.
  induction a as [|x a IH]; intros b Ha Hb Hperm.
  - now apply Permutation_nil in Hperm.
  - destruct b as [|y b].
    { apply Permutation_sym, Permutation_nil in Hperm. discriminate. }
    inversion Ha as [|? ? Ha' Hxa]; subst.
    inversion Hb as [|? ? Hb' Hyb]; subst.
    assert (Hxy : x = y).
    { pose proof (Permutation_in x Hperm (or_introl eq_refl)) as Hx.
      pose proof (Permutation_in y (Permutation_sym Hperm) (or_introl eq_refl))
        as Hy.
      destruct Hx as [Hx | Hx]; [now symmetry|].
      destruct Hy as [Hy | Hy]; [exact Hy|].
      rewrite Forall_forall in Hxa, Hyb.
      specialize (Hxa y Hy). specialize (Hyb x Hx).
      unfold string_le in Hxa, Hyb.
      rewrite jsstring_compare_antisym in Hyb.
      destruct (jsstring_compare x y) eqn:E.
      - now apply jsstring_compare_eq.
      - now elim Hyb.
      - now elim Hxa. }
    subst y. f_equal.
    apply IH; try assumption. now apply Permutation_cons_inv in Hperm.
Qed.

(** X28. The data version does not depend on the order in which the store
    holds its pull requests and its comments: two stores that hold the same
    pull requests and the same comments in some order have the same version,
    so an entry of the cache is valid for the one exactly when it is for the
    other. *)
Theorem data_version_ignores_order :
  forall (st st' : Store),
    Permutation (pullRequests st) (pullRequests st') ->
    Permutation (comments st) (comments st') ->
    generateDataVersionHash st = generateDataVersionHash st'
    /\ forall (D : Type) (now : Z)
              (cache : option (CachedCommentCategorization D)),
         isCacheValid st now cache = isCacheValid st' now cache.
Proof.
  intros st st' Hprs Hcs.
  assert (Hv : generateDataVersionHash st = generateDataVersionHash st').
  { unfold generateDataVersionHash. cbv zeta.
    rewrite (Permutation_length Hprs), (Permutation_length Hcs).
    rewrite (Permutation_length
               (Permutation_filter_same isHumanComment _ _ Hcs)).
    rewrite (sorted_strings_unique
               (Array_sort compareStrings (map updated_at (pullRequests st)))
               (Array_sort compareStrings (map updated_at (pullRequests st')))).
    - reflexivity.
    - apply string_sort_sorted.
    - apply string_sort_sorted.
    - eapply Permutation_trans; [apply Permutation_sym, Array_sort_perm|].
      eapply Permutation_trans; [|apply Array_sort_perm].
      now apply Permutation_map. }
  split; [exact Hv|].
  intros D now [cache|]; [|reflexivity].
  unfold isCacheValid. now rewrite Hv.
Qed.

Lemma data_version_ignores_order_witness :
  generateDataVersionHash sample_store
  = generateDataVersionHash
      (mkStore (rev (pullRequests sample_store)) (comments sample_store)).
Proof.
  apply (data_version_ignores_order sample_store
           (mkStore (rev (pullRequests sample_store)) (comments sample_store))).
  - apply Permutation_rev.
  - apply Permutation_refl.
Defined.

(* ================================================================= *)
(** ** The keys of the cache of code contexts *)

Local Open Scope Z_scope.

Lemma to_radix_app (fuel : nat) :
  forall n acc, to_radix 10 fuel n acc = to_radix 10 fuel n [] ++ acc.
Proof.
  induction fuel as [|fuel IH]; intros n acc; cbn [to_radix]; [reflexivity|].
  cbv zeta. destruct (n / 10 =? 0); [reflexivity|].
  rewrite (IH (n / 10) (_ :: acc)), (IH (n / 10) [_]), <- app_assoc.
  reflexivity.
Qed.

Lemma decimal_value_snoc (s : jsstring) (c : N) :
  decimal_value (s ++ [c]) = 10 * decimal_value s + (Z.of_N c - 48).
Proof.
  unfold decimal_value. now rewrite fold_left_app.
Qed.

Lemma radix_digit_decimal (d : Z) :
  0 <= d < 10 ->
  is_decimal_digit (radix_digit d) /\ Z.of_N (radix_digit d) - 48 = d.
Proof.
  intros H. unfold radix_digit, is_decimal_digit.
  replace (d <? 10) with true by (symmetry; apply Z.ltb_lt; lia).
  split; lia.
Qed.

Lemma to_radix_decimal (fuel : nat) :
  forall n,
    0 <= n < Z.of_nat fuel ->
    decimal_value (to_radix 10 fuel n []) = n
    /\ Forall is_decimal_digit (to_radix 10 fuel n [])
    /\ to_radix 10 fuel n [] <> [].
Proof.
  induction fuel as [|fuel IH]; intros n Hn; [lia|].
  cbn [to_radix]. cbv zeta.
  assert (Hd : 0 <= n mod 10 < 10) by (apply Z.mod_pos_bound; lia).
  destruct (radix_digit_decimal (n mod 10) Hd) as (Hdigit & Hval).
  destruct (n / 10 =? 0) eqn:E.
  - apply Z.eqb_eq in E. split; [|split].
    + unfold decimal_value. cbn [fold_left]. rewrite Hval.
      pose proof (Z.div_mod n 10). lia.
    + now constructor.
    + discriminate.
  - apply Z.eqb_neq in E. rewrite to_radix_app.
    assert (Hq : 0 <= n / 10 < Z.of_nat fuel).
    { pose proof (Z.div_mod n 10). split; [apply Z.div_pos; lia|].
      assert (n / 10 < n) by (apply Z.div_lt; lia). lia. }
    destruct (IH (n / 10) Hq) as (Hv & Hf & _). split; [|split].
    + rewrite decimal_value_snoc, Hv, Hval. pose proof (Z.div_mod n 10). lia.
    + apply Forall_app. split; [exact Hf|now constructor].
    + intros H. apply app_eq_nil in H. destruct H as (_ & H). discriminate.
Qed.

Lemma nat_toString_decimal (n : nat) :
  decimal_value (nat_toString n) = Z.of_nat n
  /\ Forall is_decimal_digit (nat_toString n)
  /\ nat_toString n <> [].
Proof.
  unfold nat_toString. apply to_radix_decimal. lia.
Qed.

Lemma Z_toString_shape (z : Z) :
  ~ In 58%N (Z_toString z)
  /\ (if z <? 0
      then exists digits, Z_toString z = 45%N :: digits
                          /\ decimal_value digits = - z
      else (exists c rest, Z_toString z = c :: rest /\ is_decimal_digit c)
           /\ decimal_value (Z_toString z) = z).
Proof.
  unfold Z_toString. destruct (z <? 0) eqn:E.
  - apply Z.ltb_lt in E.
    destruct (nat_toString_decimal (Z.to_nat (- z))) as (Hv & Hf & _).
    split.
    + intros [H | H]; [discriminate|].
      rewrite Forall_forall in Hf. specialize (Hf _ H).
      unfold is_decimal_digit in Hf. lia.
    + eexists. split; [reflexivity|]. rewrite Hv. lia.
  - apply Z.ltb_ge in E.
    destruct (nat_toString_decimal (Z.to_nat z)) as (Hv & Hf & Hne).
    split; [|split].
    + intros H. rewrite Forall_forall in Hf. specialize (Hf _ H).
      unfold is_decimal_digit in Hf. lia.
    + destruct (nat_toString (Z.to_nat z)) as [|c rest]; [contradiction|].
      inversion Hf; subst. eauto.
    + rewrite Hv. lia.
Qed.

Lemma Z_toString_injective (a b : Z) : Z_toString a = Z_toString b -> a = b.
Proof.
  intros H.
  destruct (Z_toString_shape a) as (_ & Ha).
  destruct (Z_toString_shape b) as (_ & Hb).
  destruct (a <? 0), (b <? 0).
  - destruct Ha as (da & Ea & Va). destruct Hb as (db & Eb & Vb).
    rewrite Ea, Eb in H. injection H as H. subst db. lia.
  - destruct Ha as (da & Ea & _). destruct Hb as ((c & rest & Eb & Hc) & _).
    rewrite Ea, Eb in H. injection H as H _. subst c.
    unfold is_decimal_digit in Hc. lia.
  - destruct Hb as (db & Eb & _). destruct Ha as ((c & rest & Ea & Hc) & _).
    rewrite Ea, Eb in H. injection H as H _. subst c.
    unfold is_decimal_digit in Hc. lia.
  - destruct Ha as (_ & Va). destruct Hb as (_ & Vb).
    rewrite H in Va. lia.
Qed.

Lemma split_at_first (sep : N) (s : jsstring) :
  forall s' r r',
    ~ In sep s -> ~ In sep s' ->
    s ++ sep :: r = s' ++ sep :: r' -> s = s' /\ r = r'.
Proof.
  induction s as [|c s IH]; intros [|c' s'] r r' Hs Hs' H; cbn [app] in H.
  - injection H as H. now split.
  - injection H as Hc _. elim Hs'. left. now symmetry.
  - injection H as Hc _. elim Hs. now left.
  - injection H as Hc H. subst c'.
    destruct (IH s' r r') as (-> & ->); try assumption.
    + intros Hin. apply Hs. now right.
    + intros Hin. apply Hs'. now right.
    + now split.
Qed.

Lemma split_at_last (sep : N) (s s' r r' : jsstring) :
  ~ In sep r -> ~ In sep r' ->
  s ++ sep :: r = s' ++ sep :: r' -> s = s' /\ r = r'.
Proof.
  intros Hr Hr' H. apply (f_equal (@rev N)) in H.
  rewrite !rev_app_distr in H. cbn [rev] in H. rewrite <- !app_assoc in H.
  cbn [app] in H.
  apply split_at_first in H.
  - destruct H as (H1 & H2).
    apply (f_equal (@rev N)) in H1, H2. rewrite !rev_involutive in H1, H2.
    now split.
  - now rewrite <- in_rev.
  - now rewrite <- in_rev.
Qed.

Lemma cacheKey_injective (prNumber prNumber' line line' : Z)
    (path path' : jsstring) :
  cacheKey prNumber path line = cacheKey prNumber' path' line' ->
  prNumber = prNumber' /\ path = path' /\ line = line'.
Proof.
  unfold cacheKey. change (str ":") with [58%N]. cbn [app]. intros H.
  apply split_at_first in H; try apply Z_toString_shape.
  destruct H as (Hp & H).
  apply split_at_last in H; try apply Z_toString_shape.
  destruct H as (Hpath & Hl).
  split; [now apply Z_toString_injective|].
  split; [exact Hpath|now apply Z_toString_injective].
Qed.

(** X29. The keys of the cache of code contexts never collide: the pull
    request, the path and the line can be read back from a key, whatever
    colons the path holds. So a request for one comment does not change
    what later requests for a comment at another place return, nor whether
    they ask GitHub. *)
Theorem code_context_keys_distinct :
  forall (response response' : ContentResponse)
         (codeContextCache : list (jsstring * option CodeContext))
         (path path' : jsstring) (line line' prNumber prNumber' : Z),
    (prNumber, path, line) <> (prNumber', path', line') ->
    let comment := mkCommentLocation (Some path) (Some line) in
    let comment' := mkCommentLocation (Some path') (Some line') in
    let cache1 :=
      snd (fst (getCachedCodeContext response codeContextCache comment
                  prNumber)) in
    cacheKey prNumber path line <> cacheKey prNumber' path' line'
    /\ fst (fst (getCachedCodeContext response' cache1 comment' prNumber'))
       = fst (fst (getCachedCodeContext response' codeContextCache comment'
                     prNumber'))
    /\ snd (getCachedCodeContext response' cache1 comment' prNumber')
       = snd (getCachedCodeContext response' codeContextCache comment'
                prNumber').
Proof.
  intros response response' codeContextCache path path' line line'
    prNumber prNumber' Hneq comment comment' cache1.
  assert (Hkeys : cacheKey prNumber path line
                  <> cacheKey prNumber' path' line').
  { intros H. apply cacheKey_injective in H.
    destruct H as (-> & -> & ->). now apply Hneq. }
  split; [exact Hkeys|].
  assert (Hget : Map_get cache1 (cacheKey prNumber' path' line')
                 = Map_get codeContextCache (cacheKey prNumber' path' line')).
  { subst cache1 comment. unfold getCachedCodeContext.
    destruct (no_location _); [reflexivity|].
    cbn [file_path line_number]. cbv zeta.
    fold (cacheKey prNumber path line).
    destruct (Map_get codeContextCache (cacheKey prNumber path line));
      [reflexivity|].
    cbn [fst snd]. rewrite Map_get_set.
    now rewrite (proj2 (jsstring_eqb_neq _ _) Hkeys). }
  subst comment'. clearbody cache1. unfold getCachedCodeContext.
  destruct (no_location _); [now split|].
  cbn [file_path line_number]. cbv zeta.
  fold (cacheKey prNumber' path' line'). rewrite Hget.
  destruct (Map_get codeContextCache (cacheKey prNumber' path' line'));
    now split.
Qed.

Lemma code_context_keys_distinct_witness :
  cacheKey 1 (str "a:2") 3 <> cacheKey 1 (str "a") 23.
Proof.
  apply (code_context_keys_distinct RequestFailed RequestFailed []
           (str "a:2") (str "a") 3 23 1 1).
  intros H. discriminate H.
Defined.

Local Open Scope nat_scope.
